(** * La Spaziale S50: button-press monitor and delivery tasks

    A shallow embedding of [machine/button_monitor.py] and
    [machine/tasks.py], and the properties of the delivery lifecycle
    proved over it.

    Python integers are [Z], strings are [string], dictionaries keyed by
    strings are [gmap string _].  Code that can raise is a computation in
    a state-and-exception monad: the state written before a [raise] is
    kept, as it is for a Python object mutated inside a [try] block. *)

From Stdlib Require Import ZArith Lia.
From stdpp Require Import base option list strings gmap pretty.

Local Open Scope string_scope.
Local Open Scope Z_scope.
Local Open Scope list_scope.

(** ** Computations that may raise *)

(** The result of running a Python call: a value, or an [Exception]
    carrying its description [str(e)]. *)
Inductive outcome (A : Type) : Type :=
  | Returned (a : A)
  | Raised (e : string).
Arguments Returned {A} a.
Arguments Raised {A} e.

Definition comp (S A : Type) : Type := S → outcome A * S.

Definition ret {S A} (a : A) : comp S A := λ s, (Returned a, s).

Definition raise {S A} (e : string) : comp S A := λ s, (Raised e, s).

Definition bind {S A B} (c : comp S A) (k : A → comp S B) : comp S B :=
  λ s, match c s with
       | (Returned a, s') => k a s'
       | (Raised e, s') => (Raised e, s')
       end.

(** [try: body except Exception as e: handler e]. *)
Definition try_except {S A} (body : comp S A) (handler : string → comp S A)
  : comp S A :=
  λ s, match body s with
       | (Returned a, s') => (Returned a, s')
       | (Raised e, s') => handler e s'
       end.

Definition get_state {S} : comp S S := λ s, (Returned s, s).

Definition modify {S} (f : S → S) : comp S unit := λ s, (Returned tt, f s).

(** A state change that also yields a value. *)
Definition update {S A} (f : S → A * S) : comp S A :=
  λ s, (Returned (f s).1, (f s).2).

(** An external call whose result the environment decides. *)
Definition call {S A} (r : outcome A) : comp S A := λ s, (r, s).

(** A write that the environment may make fail. *)
Definition guard_fault {S} (fault : option string) : comp S unit :=
  match fault with
  | Some e => raise e
  | None => ret tt
  end.

Notation "x <- c ;; k" := (bind c (λ x, k))
  (at level 100, c at next level, right associativity).
Notation "c ;;; k" := (bind c (λ _, k))
  (at level 100, right associativity).

(** [for x in l: body x]. *)
Fixpoint for_each {S A} (l : list A) (body : A → comp S unit) : comp S unit :=
  match l with
  | [] => ret tt
  | x :: l' => body x ;;; for_each l' body
  end.

(** Python's [range(a, b)]. *)
Definition range (a b : Z) : list Z := seqZ a (b - a).

(** ** Data model *)

(** Modelled from the spec: the dictionary returned by
    [get_group_selection] ([machine/coffee_machine.py] is not part of the
    sources): one boolean activity flag per coffee-type variant. *)
Record StatusDict : Type := {
  single_short : bool;
  single_medium : bool;
  single_long : bool;
  double_short : bool;
  double_medium : bool;
  double_long : bool;
  purge : bool
}.

(** Modelled from the spec: the [CoffeeDelivery] model ([machine/models.py]
    is not part of the sources).  Timestamps are [Z]; an unset field is
    [None]. *)
Record CoffeeDelivery : Type := {
  delivery_id : Z;
  coffee_type : string;
  group_number : Z;
  status : string;
  trigger_type : string;
  started_at : option Z;
  completed_at : option Z;
  error_message : option string
}.

(** Modelled from the spec: the [MaintenanceLog] model.  [resolved] is
    [None] where the caller leaves the model's default. *)
Record MaintenanceLog : Type := {
  log_type : string;
  log_group_number : option Z;
  message : string;
  resolved : option bool
}.

(** Modelled from the spec: the repository behind [CoffeeDelivery.objects]
    and [MaintenanceLog.objects]: rows by id, the id the next created row
    gets, and the log rows in creation order. *)
Record Repository : Type := {
  deliveries : gmap Z CoffeeDelivery;
  next_id : Z;
  logs : list MaintenanceLog
}.

Definition with_status (d : CoffeeDelivery) (s : string) : CoffeeDelivery :=
  {| delivery_id := delivery_id d; coffee_type := coffee_type d;
     group_number := group_number d; status := s;
     trigger_type := trigger_type d; started_at := started_at d;
     completed_at := completed_at d; error_message := error_message d |}.

Definition with_completed_at (d : CoffeeDelivery) (t : Z) : CoffeeDelivery :=
  {| delivery_id := delivery_id d; coffee_type := coffee_type d;
     group_number := group_number d; status := status d;
     trigger_type := trigger_type d; started_at := started_at d;
     completed_at := Some t; error_message := error_message d |}.

Definition with_error_message (d : CoffeeDelivery) (m : string) : CoffeeDelivery :=
  {| delivery_id := delivery_id d; coffee_type := coffee_type d;
     group_number := group_number d; status := status d;
     trigger_type := trigger_type d; started_at := started_at d;
     completed_at := completed_at d; error_message := Some m |}.

(** [CoffeeDelivery.objects.create(...)]: the row gets the next id. *)
Definition repo_create_delivery (r : Repository)
    (ct : string) (g : Z) (st tr : string) (t : Z) : CoffeeDelivery * Repository :=
  let d := {| delivery_id := next_id r; coffee_type := ct; group_number := g;
              status := st; trigger_type := tr; started_at := Some t;
              completed_at := None; error_message := None |} in
  (d, {| deliveries := <[next_id r := d]> (deliveries r);
         next_id := next_id r + 1;
         logs := logs r |}).

(** [delivery.save()]: the instance's fields overwrite the row of its id. *)
Definition repo_save_delivery (r : Repository) (d : CoffeeDelivery) : Repository :=
  {| deliveries := <[delivery_id d := d]> (deliveries r);
     next_id := next_id r;
     logs := logs r |}.

(** [MaintenanceLog.objects.create(...)]. *)
Definition repo_create_log (r : Repository) (l : MaintenanceLog) : Repository :=
  {| deliveries := deliveries r;
     next_id := next_id r;
     logs := logs r ++ [l] |}.

(** Modelled from the spec: the driver of [machine/coffee_machine.py]
    (not part of the sources).  Each call's result, or the exception it
    raises, is decided by the environment of one cycle or one task run. *)
Record DeliverResult : Type := { success : bool; result_message : string }.

Record Machine : Type := {
  ensure_connection : outcome bool;
  get_number_of_groups : outcome (option Z);
  get_group_selection : Z → outcome (option StatusDict);
  deliver_coffee : Z → string → outcome DeliverResult;
  wait_until_group_is_free : Z → Z → outcome bool
}.

(** ** machine/button_monitor.py *)

(** The entries of a cycle's ['activities'] list, by their ['type']. *)
Inductive Activity : Type :=
  | delivery_started (group : Z) (coffee_type : string) (delivery_id : Z)
  | delivery_completed (group : Z) (coffee_type : string) (delivery_id : Z)
  | error (group : Z) (message : string).

Definition activity_group (a : Activity) : Z :=
  match a with
  | delivery_started g _ _ | delivery_completed g _ _ | error g _ => g
  end.

(** The dictionaries returned by the cycle and by the scheduled task; a key
    that the dictionary lacks is [None]. *)
Record ResultDict : Type := {
  r_status : string;
  r_message : option string;
  r_timestamp : option Z;
  r_activities : option (list Activity);
  r_active_deliveries : option nat
}.

(** The attributes of [ButtonPressMonitor] that the cycle reads and writes. *)
Record ButtonPressMonitor : Type := {
  previous_states : gmap string StatusDict;
  active_deliveries : gmap string CoffeeDelivery
}.

(** What one cycle meets: the driver, the clock, and for each group whether
    the write of a delivery row or of a log row fails. *)
Record CycleEnv : Type := {
  machine : Machine;
  now : Z;
  delivery_write_fault : Z → option string;
  log_write_fault : Z → option string
}.

(** The state a cycle works on: the monitor object, the repository and the
    local list [activities]. *)
Record Frame : Type := {
  self : ButtonPressMonitor;
  db : Repository;
  activities : list Activity
}.

Definition get_coffee_type_from_status (status_dict : StatusDict) : option string :=
  if single_short status_dict then Some "single_short"
  else if single_medium status_dict then Some "single_medium"
  else if single_long status_dict then Some "single_long"
  else if double_short status_dict then Some "double_short"
  else if double_medium status_dict then Some "double_medium"
  else if double_long status_dict then Some "double_long"
  else if purge status_dict then Some "purge"
  else None.

Definition is_delivery_active (status_dict : StatusDict) : bool :=
  existsb (λ b : bool, b)
    [ single_short status_dict;
      single_medium status_dict;
      single_long status_dict;
      double_short status_dict;
      double_medium status_dict;
      double_long status_dict;
      purge status_dict ].

(** [f"group_{group_num}"]. *)
Definition group_key (group_num : Z) : string := "group_" +:+ pretty group_num.

(** [previous_states.get(group_key, {})] is [None] here when the key is
    absent: the empty dictionary is falsy, so [was_active] is [False]. *)
Definition detect_button_press (m : ButtonPressMonitor) (group_num : Z)
    (current_status : StatusDict) : option string :=
  let previous_status := previous_states m !! group_key group_num in
  let was_active :=
    match previous_status with
    | Some p => is_delivery_active p
    | None => false
    end in
  let is_active := is_delivery_active current_status in
  if negb was_active && is_active then
    match get_coffee_type_from_status current_status with
    | Some coffee_type => Some coffee_type
    | None => None
    end
  else None.

Definition manual_log_type (coffee_type : string) : string :=
  if bool_decide (coffee_type ≠ "purge") then "manual_delivery" else "purge".

Definition set_db (r : Repository) (f : Frame) : Frame :=
  {| self := self f; db := r; activities := activities f |}.

Definition set_self (m : ButtonPressMonitor) (f : Frame) : Frame :=
  {| self := m; db := db f; activities := activities f |}.

Definition append_activity (a : Activity) (f : Frame) : Frame :=
  {| self := self f; db := db f; activities := activities f ++ [a] |}.

Definition track (k : string) (d : CoffeeDelivery) (f : Frame) : Frame :=
  set_self {| previous_states := previous_states (self f);
              active_deliveries := <[k := d]> (active_deliveries (self f)) |} f.

Definition untrack (k : string) (f : Frame) : Frame :=
  set_self {| previous_states := previous_states (self f);
              active_deliveries := delete k (active_deliveries (self f)) |} f.

Definition remember (k : string) (s : StatusDict) (f : Frame) : Frame :=
  set_self {| previous_states := <[k := s]> (previous_states (self f));
              active_deliveries := active_deliveries (self f) |} f.

(** The three repository writes of the monitor; each fails when the
    environment says so, and then writes nothing. *)
Definition delivery_objects_create (fault : option string)
    (ct : string) (g : Z) (st tr : string) (t : Z) : comp Frame CoffeeDelivery :=
  guard_fault fault ;;;
  update (λ f, let created := repo_create_delivery (db f) ct g st tr t in
               (created.1, set_db created.2 f)).

Definition delivery_save (fault : option string) (d : CoffeeDelivery)
  : comp Frame unit :=
  guard_fault fault ;;;
  modify (λ f, set_db (repo_save_delivery (db f) d) f).

Definition log_objects_create (fault : option string) (l : MaintenanceLog)
  : comp Frame unit :=
  guard_fault fault ;;;
  modify (λ f, set_db (repo_create_log (db f) l) f).

Definition create_manual_delivery_record (env : CycleEnv) (group_num : Z)
    (coffee_type : string) : comp Frame CoffeeDelivery :=
  delivery <- delivery_objects_create (delivery_write_fault env group_num)
                coffee_type group_num "in_progress" "manual" (now env) ;;
  log_objects_create (log_write_fault env group_num)
    {| log_type := manual_log_type coffee_type;
       log_group_number := Some group_num;
       message := "Manual " +:+ coffee_type
                  +:+ " delivery started via physical button on group "
                  +:+ pretty group_num;
       resolved := None |} ;;;
  ret delivery.

(** [delivery] is the object held in [active_deliveries]: the two attribute
    writes are seen there whether or not [save()] then succeeds. *)
Definition update_delivery_completion (env : CycleEnv) (group_num : Z)
    (delivery : CoffeeDelivery) : comp Frame CoffeeDelivery :=
  let delivery := with_completed_at (with_status delivery "completed") (now env) in
  modify (track (group_key group_num) delivery) ;;;
  delivery_save (delivery_write_fault env group_num) delivery ;;;
  log_objects_create (log_write_fault env group_num)
    {| log_type := manual_log_type (coffee_type delivery);
       log_group_number := Some group_num;
       message := "Manual " +:+ coffee_type delivery
                  +:+ " delivery completed on group " +:+ pretty group_num;
       resolved := None |} ;;;
  ret delivery.

(** The [try] block of one loop iteration. *)
Definition monitor_group_try (env : CycleEnv) (group_num : Z) : comp Frame unit :=
  current_status <- call (get_group_selection (machine env) group_num) ;;
  match current_status with
  | None => ret tt
  | Some current_status =>
      let group_key := group_key group_num in
      f <- get_state ;;
      match detect_button_press (self f) group_num current_status with
      | Some coffee_type =>
          delivery <- create_manual_delivery_record env group_num coffee_type ;;
          modify (track group_key delivery) ;;;
          modify (append_activity
            (delivery_started group_num coffee_type (delivery_id delivery)))
      | None => ret tt
      end ;;;
      let is_active := is_delivery_active current_status in
      f <- get_state ;;
      match active_deliveries (self f) !! group_key with
      | Some delivery =>
          if negb is_active then
            delivery <- update_delivery_completion env group_num delivery ;;
            modify (untrack group_key) ;;;
            modify (append_activity
              (delivery_completed group_num (coffee_type delivery)
                 (delivery_id delivery)))
          else ret tt
      | None => ret tt
      end ;;;
      modify (remember group_key current_status)
  end.

(** One loop iteration with its [except Exception] handler. *)
Definition monitor_group (env : CycleEnv) (group_num : Z) : comp Frame unit :=
  try_except (monitor_group_try env group_num)
    (λ e, modify (append_activity (error group_num e))).

(** [get_number_of_groups() or 3]. *)
Definition or_3 (n : option Z) : Z :=
  match n with
  | Some n => if bool_decide (n = 0) then 3 else n
  | None => 3
  end.

Definition monitor_single_cycle (env : CycleEnv) : comp Frame ResultDict :=
  connected <- call (ensure_connection (machine env)) ;;
  if negb connected then
    ret {| r_status := "disconnected"; r_message := None; r_timestamp := None;
           r_activities := Some []; r_active_deliveries := None |}
  else
    modify (λ f, {| self := self f; db := db f; activities := [] |}) ;;;
    n <- call (get_number_of_groups (machine env)) ;;
    let num_groups := or_3 n in
    for_each (range 1 (Z.min (num_groups + 1) 5)) (monitor_group env) ;;;
    f <- get_state ;;
    ret {| r_status := "active"; r_message := None;
           r_timestamp := Some (now env);
           r_activities := Some (activities f);
           r_active_deliveries := Some (size (active_deliveries (self f))) |}.

(** ** machine/tasks.py: deliver_coffee_async *)

(** The driver calls a task run makes, in order. *)
Inductive MachineCall : Type :=
  | EnsureConnection
  | DeliverCoffee (group : Z) (coffee_type : string)
  | WaitUntilGroupIsFree (group : Z) (timeout : Z).

(** The places of [deliver_coffee_async] that read or write a row. *)
Inductive GetSite : Type := GetTry | GetExcept.
Inductive SaveSite : Type :=
  SaveDisconnected | SaveInProgress | SaveFinal | SaveExcept.

(** What one run of the task meets. *)
Record TaskEnv : Type := {
  t_machine : Machine;
  t_now : Z;
  get_coffee_machine_fault : option string;
  get_fault : GetSite → option string;
  save_fault : SaveSite → option string
}.

Record TaskWorld : Type := {
  t_db : Repository;
  calls : list MachineCall
}.

Definition does_not_exist : string :=
  "CoffeeDelivery matching query does not exist.".

(** [CoffeeDelivery.objects.get(id=delivery_id)]. *)
Definition objects_get (env : TaskEnv) (site : GetSite) (delivery_id : Z)
  : comp TaskWorld CoffeeDelivery :=
  guard_fault (get_fault env site) ;;;
  w <- get_state ;;
  match deliveries (t_db w) !! delivery_id with
  | Some d => ret d
  | None => raise does_not_exist
  end.

(** [delivery.save()]. *)
Definition save (env : TaskEnv) (site : SaveSite) (delivery : CoffeeDelivery)
  : comp TaskWorld unit :=
  guard_fault (save_fault env site) ;;;
  modify (λ w, {| t_db := repo_save_delivery (t_db w) delivery; calls := calls w |}).

(** A driver call: it is made, then returns or raises. *)
Definition machine_call {A} (c : MachineCall) (r : outcome A) : comp TaskWorld A :=
  modify (λ w, {| t_db := t_db w; calls := calls w ++ [c] |}) ;;;
  call r.

Definition deliver_coffee_try (env : TaskEnv) (delivery_id : Z)
  : comp TaskWorld bool :=
  delivery <- objects_get env GetTry delivery_id ;;
  guard_fault (get_coffee_machine_fault env) ;;;
  let machine := t_machine env in
  connected <- machine_call EnsureConnection (ensure_connection machine) ;;
  if negb connected then
    let delivery :=
      with_error_message (with_status delivery "failed")
        "Failed to connect to machine" in
    save env SaveDisconnected delivery ;;;
    ret false
  else
    result <- machine_call
      (DeliverCoffee (group_number delivery) (coffee_type delivery))
      (deliver_coffee machine (group_number delivery) (coffee_type delivery)) ;;
    delivery <-
      (if success result then
         let delivery := with_status delivery "in_progress" in
         save env SaveInProgress delivery ;;;
         free <- machine_call
           (WaitUntilGroupIsFree (group_number delivery) 120)
           (wait_until_group_is_free machine (group_number delivery) 120) ;;
         if (free : bool) then
           ret (with_completed_at (with_status delivery "completed") (t_now env))
         else
           ret (with_error_message (with_status delivery "failed")
                  "Delivery timeout")
       else
         ret (with_error_message (with_status delivery "failed")
                (result_message result))) ;;
    save env SaveFinal delivery ;;;
    ret (bool_decide (status delivery = "completed")).

(** The [except Exception as e] block; its inner [try] has a bare
    [except: pass]. *)
Definition deliver_coffee_except (env : TaskEnv) (delivery_id : Z) (e : string)
  : comp TaskWorld bool :=
  try_except
    (delivery <- objects_get env GetExcept delivery_id ;;
     let delivery := with_error_message (with_status delivery "failed") e in
     save env SaveExcept delivery)
    (λ _, ret tt) ;;;
  ret false.

Definition deliver_coffee_async (env : TaskEnv) (delivery_id : Z)
  : comp TaskWorld bool :=
  try_except (deliver_coffee_try env delivery_id)
             (deliver_coffee_except env delivery_id).

(** ** machine/tasks.py: monitor_button_presses *)

(** The values the tasks keep in the cache: the enable flag and the
    ISO timestamp of the last check. *)
Inductive CacheValue : Type :=
  | CacheBool (b : bool)
  | CacheTime (t : Z).

(** Python truthiness: a timestamp string is never empty. *)
Definition truthy (v : CacheValue) : bool :=
  match v with
  | CacheBool b => b
  | CacheTime _ => true
  end.

(** [cache.get(key, default)]; an entry is kept with the [timeout] it was
    set with. *)
Definition cache_get (c : gmap string (CacheValue * option Z)) (key : string)
    (default : CacheValue) : CacheValue :=
  match c !! key with
  | Some (v, _) => v
  | None => default
  end.

(** [cache.set(key, value, timeout=...)]. *)
Definition cache_set (key : string) (v : CacheValue) (timeout : option Z)
    (c : gmap string (CacheValue * option Z)) : gmap string (CacheValue * option Z) :=
  <[key := (v, timeout)]> c.

(** The process: the cache, the module global [_monitor_instance] and the
    repository. *)
Record Process : Type := {
  cache : gmap string (CacheValue * option Z);
  _monitor_instance : option ButtonPressMonitor;
  p_db : Repository
}.

Record MonitorTaskEnv : Type := {
  cycle_env : CycleEnv;
  construct_fault : option string;
  task_log_fault : option string
}.

(** [get_button_monitor()]: the singleton, built with empty maps at first
    use. *)
Definition get_button_monitor (env : MonitorTaskEnv)
  : comp Process ButtonPressMonitor :=
  p <- get_state ;;
  match _monitor_instance p with
  | Some m => ret m
  | None =>
      guard_fault (construct_fault env) ;;;
      let m := {| previous_states := ∅; active_deliveries := ∅ |} in
      modify (λ p, {| cache := cache p; _monitor_instance := Some m;
                      p_db := p_db p |}) ;;;
      ret m
  end.

(** A method call on the singleton: it runs on the monitor object and the
    repository, and what it wrote stays written if it raises. *)
Definition on_monitor {A} (m : ButtonPressMonitor) (c : comp Frame A)
  : comp Process A :=
  λ p, let '(r, f) := c {| self := m; db := p_db p; activities := [] |} in
       (r, {| cache := cache p; _monitor_instance := Some (self f);
              p_db := db f |}).

Definition disabled_result : ResultDict :=
  {| r_status := "disabled";
     r_message := Some "Button monitoring is disabled";
     r_timestamp := None; r_activities := None;
     r_active_deliveries := None |}.

Definition monitor_button_presses_try (env : MonitorTaskEnv)
  : comp Process ResultDict :=
  p <- get_state ;;
  if negb (truthy (cache_get (cache p) "button_monitoring_enabled" (CacheBool true)))
  then ret disabled_result
  else
    monitor <- get_button_monitor env ;;
    result <- on_monitor monitor (monitor_single_cycle (cycle_env env)) ;;
    modify (λ p, {| cache := cache_set "last_button_monitor_check"
                               (CacheTime (now (cycle_env env))) (Some 60) (cache p);
                    _monitor_instance := _monitor_instance p;
                    p_db := p_db p |}) ;;;
    ret result.

Definition monitor_button_presses (env : MonitorTaskEnv)
  : comp Process ResultDict :=
  try_except (monitor_button_presses_try env)
    (λ e,
       guard_fault (task_log_fault env) ;;;
       modify (λ p, {| cache := cache p;
                       _monitor_instance := _monitor_instance p;
                       p_db := repo_create_log (p_db p)
                         {| log_type := "connection_issue";
                            log_group_number := None;
                            message := "Button monitoring error: " +:+ e;
                            resolved := Some false |} |}) ;;;
       ret {| r_status := "error"; r_message := Some e; r_timestamp := None;
              r_activities := None; r_active_deliveries := None |}).

(** ** machine/tasks.py: the start and stop services *)

(** Both services set the flag without expiry, then write a health_check
    row; [fault] is the failure of that write, if any. *)
Definition set_monitoring_enabled (fault : option string) (enabled : bool)
    (log_message status result_message : string) : comp Process ResultDict :=
  try_except
    (modify (λ p, {| cache := cache_set "button_monitoring_enabled"
                                (CacheBool enabled) None (cache p);
                     _monitor_instance := _monitor_instance p;
                     p_db := p_db p |}) ;;;
     guard_fault fault ;;;
     modify (λ p, {| cache := cache p;
                     _monitor_instance := _monitor_instance p;
                     p_db := repo_create_log (p_db p)
                       {| log_type := "health_check";
                          log_group_number := None;
                          message := log_message;
                          resolved := Some true |} |}) ;;;
     ret {| r_status := status; r_message := Some result_message;
            r_timestamp := None; r_activities := None;
            r_active_deliveries := None |})
    (λ e, ret {| r_status := "error"; r_message := Some e;
                 r_timestamp := None; r_activities := None;
                 r_active_deliveries := None |}).

Definition start_button_monitoring_service (fault : option string)
  : comp Process ResultDict :=
  set_monitoring_enabled fault true "Button monitoring service started"
    "started" "Button monitoring service is now active".

Definition stop_button_monitoring_service (fault : option string)
  : comp Process ResultDict :=
  set_monitoring_enabled fault false "Button monitoring service stopped"
    "stopped" "Button monitoring service is now inactive".

(** ** machine/tasks.py: health_check_task *)

(** What one run of the health check meets.  Modelled from the spec: the
    driver's [health_check()] ([machine/coffee_machine.py] is not part of
    the sources) answers with the value of ['overall_status'], or raises. *)
Record HealthEnv : Type := {
  h_get_coffee_machine_fault : option string;
  health_check : outcome string;
  health_log_fault : option string;
  failure_log_fault : option string
}.

Definition health_check_task (env : HealthEnv) : comp Repository bool :=
  try_except
    (guard_fault (h_get_coffee_machine_fault env) ;;;
     overall_status <- call (health_check env) ;;
     guard_fault (health_log_fault env) ;;;
     modify (λ r, repo_create_log r
       {| log_type := "health_check";
          log_group_number := None;
          message := "Scheduled health check - Status: " +:+ overall_status;
          resolved := Some (bool_decide (overall_status = "healthy")) |}) ;;;
     ret (bool_decide (overall_status = "healthy")))
    (λ e,
       guard_fault (failure_log_fault env) ;;;
       modify (λ r, repo_create_log r
         {| log_type := "health_check";
            log_group_number := None;
            message := "Health check failed: " +:+ e;
            resolved := Some false |}) ;;;
       ret false).

(** ** machine/management/commands/monitor_buttons.py: show_status *)

(** The value whose truthiness the 'Enabled' line of [show_status] prints:
    [cache.get('button_monitoring_enabled', False)]. *)
Definition show_status_enabled (c : gmap string (CacheValue * option Z))
  : bool :=
  truthy (cache_get c "button_monitoring_enabled" (CacheBool false)).

(** ** The scheduled task, run repeatedly *)

(** Running [monitor_button_presses] once per environment, as Celery Beat
    does. *)
Fixpoint run_tasks (envs : list MonitorTaskEnv) (p : Process)
  : list (outcome ResultDict) * Process :=
  match envs with
  | [] => ([], p)
  | env :: envs' =>
      let '(r, p') := monitor_button_presses env p in
      let '(rs, p'') := run_tasks envs' p' in
      (r :: rs, p'')
  end.

(** ** The scheduler *)

(** Running the cycle once per environment, as the scheduler does. *)
Fixpoint run_cycles (envs : list CycleEnv) (f : Frame)
  : list (outcome ResultDict) * Frame :=
  match envs with
  | [] => ([], f)
  | env :: envs' =>
      let '(r, f') := monitor_single_cycle env f in
      let '(rs, f'') := run_cycles envs' f' in
      (r :: rs, f'')
  end.

(** ** The priority order, as the specification words it *)

Definition priority_order : list (string * (StatusDict → bool)) :=
  [ ("single_short", single_short);
    ("single_medium", single_medium);
    ("single_long", single_long);
    ("double_short", double_short);
    ("double_medium", double_medium);
    ("double_long", double_long);
    ("purge", purge) ].

(** The first flag of the priority order that is true in the snapshot. *)
Definition first_true_in_priority_order (s : StatusDict) : option string :=
  fst <$> List.find (λ p, snd p s) priority_order.

(** ** Snapshots and worlds used in the examples *)

Definition flags (ss sm sl ds dm dl p : bool) : StatusDict :=
  {| single_short := ss; single_medium := sm; single_long := sl;
     double_short := ds; double_medium := dm; double_long := dl; purge := p |}.

Definition inactive : StatusDict :=
  flags false false false false false false false.

Definition pressed_single_short : StatusDict :=
  flags true false false false false false false.

Definition new_monitor : ButtonPressMonitor :=
  {| previous_states := ∅; active_deliveries := ∅ |}.

Definition empty_repository : Repository :=
  {| deliveries := ∅; next_id := 1; logs := [] |}.

Definition new_frame : Frame :=
  {| self := new_monitor; db := empty_repository; activities := [] |}.

(** ** Predicates and example environments used to state the properties *)

(** What the monitor holds for one group: its previous snapshot and its
    tracked open delivery. *)
Definition view (g : Z) (f : Frame)
  : option StatusDict * option CoffeeDelivery :=
  (previous_states (self f) !! group_key g,
   active_deliveries (self f) !! group_key g).

Definition activities_of (g : Z) (l : list Activity) : list Activity :=
  filter (λ a, activity_group a = g) l.

Definition logs_of (g : Z) (r : Repository) : list MaintenanceLog :=
  filter (λ l, log_group_number l = Some g) (logs r).

(** The activities a cycle result reports for one group; [None] when the
    cycle raised. *)
Definition reported (g : Z) (o : outcome ResultDict) : option (list Activity) :=
  match o with
  | Returned r => activities_of g <$> r_activities r
  | Raised _ => None
  end.

(** Two frames that agree on everything that concerns group [g]. *)
Definition same_for (g : Z) (f f' : Frame) : Prop :=
  view g f' = view g f
  ∧ activities_of g (activities f') = activities_of g (activities f)
  ∧ logs_of g (db f') = logs_of g (db f).

Definition preserves {A} (g : Z) (c : comp Frame A) : Prop :=
  ∀ f r f', c f = (r, f') → same_for g f f'.

(** The cycle reaches the machine. *)
Definition connected (env : CycleEnv) : Prop :=
  ensure_connection (machine env) = Returned true.

(** Group [g] is one of the groups the loop of this cycle visits. *)
Definition enumerated (env : CycleEnv) (g : Z) : Prop :=
  ∃ n, get_number_of_groups (machine env) = Returned n
       ∧ 1 ≤ g ≤ Z.min (or_3 n) 4.

(** The cycle reads snapshot [s] for group [g]. *)
Definition fetches (env : CycleEnv) (g : Z) (s : StatusDict) : Prop :=
  get_group_selection (machine env) g = Returned (Some s).

(** No repository write for group [g] fails in this cycle. *)
Definition writes_succeed (env : CycleEnv) (g : Z) : Prop :=
  delivery_write_fault env g = None ∧ log_write_fault env g = None.

(** The failure the first write for group [g] meets in this cycle. *)
Definition write_failure (env : CycleEnv) (g : Z) : option string :=
  match delivery_write_fault env g with
  | Some e => Some e
  | None => log_write_fault env g
  end.

(** The row [create_manual_delivery_record] creates. *)
Definition manual_delivery (id : Z) (ct : string) (g : Z) (t : Z)
  : CoffeeDelivery :=
  {| delivery_id := id; coffee_type := ct; group_number := g;
     status := "in_progress"; trigger_type := "manual";
     started_at := Some t; completed_at := None; error_message := None |}.

(** The cycle polls snapshot [s] for group [g] without a fault: the machine
    is reachable, [g] is enumerated, its snapshot is read, and the writes
    made for [g] succeed.  Nothing is asked of the other groups. *)
Definition polls (env : CycleEnv) (g : Z) (s : StatusDict) : Prop :=
  connected env ∧ enumerated env g ∧ fetches env g s ∧ writes_succeed env g.

Definition polls_active (g : Z) (env : CycleEnv) : Prop :=
  ∃ s, polls env g s ∧ is_delivery_active s = true.

Definition polls_inactive (g : Z) (env : CycleEnv) : Prop :=
  ∃ s, polls env g s ∧ is_delivery_active s = false.

(** The previous snapshot of [g] is absent or inactive. *)
Definition not_active_before (g : Z) (f : Frame) : Prop :=
  match (view g f).1 with
  | Some p => is_delivery_active p = false
  | None => True
  end.

(** A reachable machine with three groups: group 1 shows [s], the others
    are inactive. *)
Definition machine_showing (s : StatusDict) : Machine :=
  {| ensure_connection := Returned true;
     get_number_of_groups := Returned (Some 3);
     get_group_selection :=
       λ g, Returned (Some (if bool_decide (g = 1) then s else inactive));
     deliver_coffee := λ _ _, Returned {| success := true; result_message := "" |};
     wait_until_group_is_free := λ _ _, Returned true |}.

Definition no_fault : Z → option string := λ _, None.

Definition cycle_showing (s : StatusDict) (t : Z) : CycleEnv :=
  {| machine := machine_showing s; now := t;
     delivery_write_fault := no_fault; log_write_fault := no_fault |}.

(** A machine that cannot be reached. *)
Definition unreachable_machine : Machine :=
  {| ensure_connection := Returned false;
     get_number_of_groups := Raised "not connected";
     get_group_selection := λ _, Raised "not connected";
     deliver_coffee := λ _ _, Raised "not connected";
     wait_until_group_is_free := λ _ _, Raised "not connected" |}.

Definition disconnected_cycle (t : Z) : CycleEnv :=
  {| machine := unreachable_machine; now := t;
     delivery_write_fault := no_fault; log_write_fault := no_fault |}.

(** The frame after group 1 started a single_short delivery, id 1. *)
Definition frame_with_open_delivery : Frame :=
  (monitor_single_cycle (cycle_showing pressed_single_short 11) new_frame).2.

(** Group 2 of three returns no snapshot; the other groups are inactive. *)
Definition machine_group2_none : Machine :=
  {| ensure_connection := Returned true;
     get_number_of_groups := Returned (Some 3);
     get_group_selection :=
       λ g, if bool_decide (g = 2) then Returned None
            else Returned (Some inactive);
     deliver_coffee := λ _ _, Returned {| success := true; result_message := "" |};
     wait_until_group_is_free := λ _ _, Returned true |}.

(** Group 2 of three raises on fetch; group 3 shows a single_short press. *)
Definition machine_group2_raises : Machine :=
  {| ensure_connection := Returned true;
     get_number_of_groups := Returned (Some 3);
     get_group_selection :=
       λ g, if bool_decide (g = 2) then Raised "Modbus read failed"
            else if bool_decide (g = 3) then Returned (Some pressed_single_short)
            else Returned (Some inactive);
     deliver_coffee := λ _ _, Returned {| success := true; result_message := "" |};
     wait_until_group_is_free := λ _ _, Returned true |}.

Definition cycle_on (m : Machine) (t : Z) : CycleEnv :=
  {| machine := m; now := t;
     delivery_write_fault := no_fault; log_write_fault := no_fault |}.

(** The two shapes of a failed fetch. *)
Definition fetch_fails (env : CycleEnv) (g : Z) : Prop :=
  get_group_selection (machine env) g = Returned None
  ∨ ∃ e, get_group_selection (machine env) g = Raised e.

(** Nothing but the driver's own answers can make the [try] block fail:
    the row is read, the driver object is obtained and the rows are saved
    without a fault. *)
Definition no_unexpected_fault (env : TaskEnv) : Prop :=
  get_fault env GetTry = None
  ∧ get_coffee_machine_fault env = None
  ∧ save_fault env SaveDisconnected = None
  ∧ save_fault env SaveInProgress = None
  ∧ save_fault env SaveFinal = None.

Definition saved (w : TaskWorld) (d : CoffeeDelivery) (cs : list MachineCall)
  : TaskWorld :=
  {| t_db := repo_save_delivery (t_db w) d; calls := calls w ++ cs |}.

(** A pending automatic delivery of a double_long on group 2, id 7. *)
Definition pending_delivery : CoffeeDelivery :=
  {| delivery_id := 7; coffee_type := "double_long"; group_number := 2;
     status := "pending"; trigger_type := "automatic";
     started_at := Some 100; completed_at := None; error_message := None |}.

Definition world_with_pending : TaskWorld :=
  {| t_db := {| deliveries := {[ 7 := pending_delivery ]};
                next_id := 8; logs := [] |};
     calls := [] |}.

Definition no_get_fault : GetSite → option string := λ _, None.
Definition no_save_fault : SaveSite → option string := λ _, None.

Definition task_on (m : Machine) (t : Z) : TaskEnv :=
  {| t_machine := m; t_now := t; get_coffee_machine_fault := None;
     get_fault := no_get_fault; save_fault := no_save_fault |}.

(** The driver accepts the command and then fails while waiting. *)
Definition machine_wait_raises : Machine :=
  {| ensure_connection := Returned true;
     get_number_of_groups := Returned (Some 3);
     get_group_selection := λ _, Returned (Some inactive);
     deliver_coffee := λ _ _, Returned {| success := true; result_message := "" |};
     wait_until_group_is_free := λ _ _, Raised "Modbus read failed" |}.

(** Group 1 shows a single_short press and every write of a delivery row
    for it fails. *)
Definition cycle_with_failing_write (t : Z) : CycleEnv :=
  {| machine := machine_showing pressed_single_short; now := t;
     delivery_write_fault :=
       λ g, if bool_decide (g = 1) then Some "database is locked" else None;
     log_write_fault := no_fault |}.

(** The machine is unreachable and the save that records it fails. *)
Definition task_with_failing_save (t : Z) : TaskEnv :=
  {| t_machine := unreachable_machine; t_now := t;
     get_coffee_machine_fault := None;
     get_fault := no_get_fault;
     save_fault := λ site,
       match site with
       | SaveDisconnected => Some "database is locked"
       | _ => None
       end |}.

(** The failure of the first [delivery.save()] that the [try] block
    reaches for row [d] and that fails, following the driver's answers:
    the save of the connection failure (line 21), the save of
    'in_progress' (line 29) or the last save (line 43).  [None] when the
    run reaches no failing save. *)
Definition failing_save (env : TaskEnv) (d : CoffeeDelivery) : option string :=
  let machine := t_machine env in
  match ensure_connection machine with
  | Returned false => save_fault env SaveDisconnected
  | Returned true =>
      match deliver_coffee machine (group_number d) (coffee_type d) with
      | Returned result =>
          if success result then
            match save_fault env SaveInProgress with
            | Some e => Some e
            | None =>
                match wait_until_group_is_free machine (group_number d) 120 with
                | Returned _ => save_fault env SaveFinal
                | Raised _ => None
                end
            end
          else save_fault env SaveFinal
      | Raised _ => None
      end
  | Raised _ => None
  end.

(** The driver delivers, and the last save of the run fails. *)
Definition task_with_failing_last_save (t : Z) : TaskEnv :=
  {| t_machine := machine_showing inactive; t_now := t;
     get_coffee_machine_fault := None;
     get_fault := no_get_fault;
     save_fault := λ site,
       match site with
       | SaveFinal => Some "database is locked"
       | _ => None
       end |}.

(** The process after an enabled run of the task whose cycle ended in
    frame [f']. *)
Definition after_check (env : MonitorTaskEnv) (p : Process) (f' : Frame)
  : Process :=
  {| cache := cache_set "last_button_monitor_check"
                (CacheTime (now (cycle_env env))) (Some 60) (cache p);
     _monitor_instance := Some (self f');
     p_db := db f' |}.

(** The monitor the task works on: the singleton, or a new one when the
    process has none yet. *)
Definition monitor_in_use (p : Process) : ButtonPressMonitor :=
  match _monitor_instance p with
  | Some m => m
  | None => new_monitor
  end.

(** The singleton can be obtained: it exists, or it can be built. *)
Definition monitor_available (env : MonitorTaskEnv) (p : Process) : Prop :=
  is_Some (_monitor_instance p) ∨ construct_fault env = None.

(** A process just started: nothing in the cache, no monitor built yet. *)
Definition new_process : Process :=
  {| cache := ∅; _monitor_instance := None; p_db := empty_repository |}.

Definition task_cycle (c : CycleEnv) : MonitorTaskEnv :=
  {| cycle_env := c; construct_fault := None; task_log_fault := None |}.

(** A key has a tracked delivery exactly when its previous snapshot is
    active. *)
Definition tracking_consistent (m : ButtonPressMonitor) : Prop :=
  ∀ k, is_Some (active_deliveries m !! k)
       ↔ ∃ p, previous_states m !! k = Some p ∧ is_delivery_active p = true.

(** ** Further predicates and example environments *)

(** Every activity a cycle outcome carries; none when the cycle raised. *)
Definition all_activities (o : outcome ResultDict) : list Activity :=
  match o with
  | Returned r => default [] (r_activities r)
  | Raised _ => []
  end.

(** Group 1 shows [s] and every write of a delivery row for it fails. *)
Definition failing_cycle_showing (s : StatusDict) (t : Z) : CycleEnv :=
  {| machine := machine_showing s; now := t;
     delivery_write_fault :=
       λ g, if bool_decide (g = 1) then Some "database is locked" else None;
     log_write_fault := no_fault |}.

(** Every delivery row is stored under its own id, and ids below
    [next_id] only. *)
Definition rows_under_own_id (r : Repository) : Prop :=
  ∀ i d, deliveries r !! i = Some d → delivery_id d = i ∧ i < next_id r.

(** The repository's rows are under their own ids, every tracked delivery
    has a row, and no two keys track deliveries with the same id. *)
Definition ids_well_formed (f : Frame) : Prop :=
  rows_under_own_id (db f)
  ∧ (∀ k d, active_deliveries (self f) !! k = Some d →
            is_Some (deliveries (db f) !! delivery_id d))
  ∧ (∀ k1 k2 d1 d2,
       active_deliveries (self f) !! k1 = Some d1 →
       active_deliveries (self f) !! k2 = Some d2 →
       delivery_id d1 = delivery_id d2 → k1 = k2).

(** What one group's iteration may do to the rows and the tracked
    deliveries: ids only grow, a row changes only if it is the row of the
    delivery the group tracked, the other keys' tracked deliveries stay,
    and the group's own tracked delivery is a new one, with the next id,
    or has the id of the one tracked before. *)
Definition writes_own_rows (g : Z) (f f' : Frame) : Prop :=
  next_id (db f) ≤ next_id (db f')
  ∧ (∀ i, is_Some (deliveries (db f) !! i) →
          (∀ d, active_deliveries (self f) !! group_key g = Some d →
                delivery_id d ≠ i) →
          deliveries (db f') !! i = deliveries (db f) !! i)
  ∧ (∀ k, k ≠ group_key g →
          active_deliveries (self f') !! k = active_deliveries (self f) !! k)
  ∧ (∀ d, active_deliveries (self f') !! group_key g = Some d →
          delivery_id d = next_id (db f)
          ∨ ∃ d0, active_deliveries (self f) !! group_key g = Some d0
                  ∧ delivery_id d0 = delivery_id d).

(** Row [i] exists and no key tracks a delivery with that id. *)
Definition untracked_row (i : Z) (f : Frame) : Prop :=
  is_Some (deliveries (db f) !! i)
  ∧ ∀ k d, active_deliveries (self f) !! k = Some d → delivery_id d ≠ i.

(** Row [i] exists and only group [g] may track a delivery with that id. *)
Definition row_of_group (g i : Z) (f : Frame) : Prop :=
  is_Some (deliveries (db f) !! i)
  ∧ ∀ k d, active_deliveries (self f) !! k = Some d → delivery_id d = i →
           k = group_key g.

(** The log rows [create_manual_delivery_record] and
    [update_delivery_completion] write for group [g]. *)
Definition start_log (g : Z) (ct : string) : MaintenanceLog :=
  {| log_type := if bool_decide (ct = "purge") then "purge"
                 else "manual_delivery";
     log_group_number := Some g;
     message := "Manual " +:+ ct
                +:+ " delivery started via physical button on group "
                +:+ pretty g;
     resolved := None |}.

Definition completion_log (g : Z) (ct : string) : MaintenanceLog :=
  {| log_type := if bool_decide (ct = "purge") then "purge"
                 else "manual_delivery";
     log_group_number := Some g;
     message := "Manual " +:+ ct +:+ " delivery completed on group "
                +:+ pretty g;
     resolved := None |}.

(** The row of a manual delivery once completed at time [t']. *)
Definition completed_delivery (id : Z) (ct : string) (g t t' : Z)
  : CoffeeDelivery :=
  {| delivery_id := id; coffee_type := ct; group_number := g;
     status := "completed"; trigger_type := "manual";
     started_at := Some t; completed_at := Some t'; error_message := None |}.

(** Group 1 shows [s]; delivery rows are written, log rows for group 1
    are not. *)
Definition failing_log_cycle_showing (s : StatusDict) (t : Z) : CycleEnv :=
  {| machine := machine_showing s; now := t;
     delivery_write_fault := no_fault;
     log_write_fault :=
       λ g, if bool_decide (g = 1) then Some "database is locked" else None |}.

(** Two rows that agree on everything but status, completed_at and
    error_message. *)
Definition same_delivery (d d' : CoffeeDelivery) : Prop :=
  delivery_id d' = delivery_id d
  ∧ coffee_type d' = coffee_type d
  ∧ group_number d' = group_number d
  ∧ trigger_type d' = trigger_type d
  ∧ started_at d' = started_at d.

(** The driver calls a run of the task for row [d] may have made, in
    order: each call is made only after the one before it answered as
    needed. *)
Definition calls_in_order (env : TaskEnv) (d : CoffeeDelivery)
    (cs : list MachineCall) : Prop :=
  cs = []
  ∨ cs = [EnsureConnection]
  ∨ (ensure_connection (t_machine env) = Returned true
     ∧ cs = [EnsureConnection;
             DeliverCoffee (group_number d) (coffee_type d)])
  ∨ (ensure_connection (t_machine env) = Returned true
     ∧ (∃ res, deliver_coffee (t_machine env) (group_number d) (coffee_type d)
               = Returned res ∧ success res = true)
     ∧ cs = [EnsureConnection;
             DeliverCoffee (group_number d) (coffee_type d);
             WaitUntilGroupIsFree (group_number d) 120]).

(** What a part of the task may do to the world when the row of [id] is
    [d]: ids and logs stay, the other rows stay, the row of [id] stays the
    same delivery, and driver calls are only added. *)
Definition touches_only_row (id : Z) (d : CoffeeDelivery) (w w' : TaskWorld)
  : Prop :=
  next_id (t_db w') = next_id (t_db w)
  ∧ logs (t_db w') = logs (t_db w)
  ∧ (∀ j, j ≠ id → deliveries (t_db w') !! j = deliveries (t_db w) !! j)
  ∧ (∃ d', deliveries (t_db w') !! id = Some d' ∧ same_delivery d d').

(** A world without a row for id 7. *)
Definition world_without_rows : TaskWorld :=
  {| t_db := empty_repository; calls := [] |}.

(** The try block of the health check meets a failure. *)
Definition health_try_fails (env : HealthEnv) : Prop :=
  is_Some (h_get_coffee_machine_fault env)
  ∨ (∃ e, health_check env = Raised e)
  ∨ is_Some (health_log_fault env).

(** A healthy machine and a repository that cannot write log rows. *)
Definition health_env_failing_logs : HealthEnv :=
  {| h_get_coffee_machine_fault := None;
     health_check := Returned "healthy";
     health_log_fault := Some "database is locked";
     failure_log_fault := Some "database is locked" |}.

(** A degraded machine, logs written. *)
Definition health_env_degraded : HealthEnv :=
  {| h_get_coffee_machine_fault := None;
     health_check := Returned "degraded";
     health_log_fault := None;
     failure_log_fault := None |}.

(** The task reads the enable flag as true. *)
Definition monitoring_enabled (p : Process) : Prop :=
  truthy (cache_get (cache p) "button_monitoring_enabled" (CacheBool true))
  = true.

(** The cycle of this environment does not raise. *)
Definition cycle_returns (c : CycleEnv) : Prop :=
  ∀ e, ensure_connection (machine c) ≠ Raised e
       ∧ get_number_of_groups (machine c) ≠ Raised e.

(** The frame a task run starts its cycle from. *)
Definition task_frame (p : Process) : Frame :=
  {| self := monitor_in_use p; db := p_db p; activities := [] |}.

(** The log row the scheduled task writes when its cycle fails. *)
Definition task_failure_log (e : string) : MaintenanceLog :=
  {| log_type := "connection_issue"; log_group_number := None;
     message := "Button monitoring error: " +:+ e;
     resolved := Some false |}.

(** [ensure_connection] raises. *)
Definition machine_raising : Machine :=
  {| ensure_connection := Raised "serial port busy";
     get_number_of_groups := Raised "serial port busy";
     get_group_selection := λ _, Raised "serial port busy";
     deliver_coffee := λ _ _, Raised "serial port busy";
     wait_until_group_is_free := λ _ _, Raised "serial port busy" |}.

(** A process whose enable flag is stored as false. *)
Definition stopped_process : Process :=
  {| cache := {[ "button_monitoring_enabled" := (CacheBool false, None) ]};
     _monitor_instance := None; p_db := empty_repository |}.

(** Three groups; groups 1 and 2 show presses, group 3 is inactive. *)
Definition machine_two_pressed : Machine :=
  {| ensure_connection := Returned true;
     get_number_of_groups := Returned (Some 3);
     get_group_selection :=
       λ g, Returned (Some (if bool_decide (g = 1) then pressed_single_short
                            else if bool_decide (g = 2)
                                 then flags false false false false false true false
                                 else inactive));
     deliver_coffee := λ _ _, Returned {| success := true; result_message := "" |};
     wait_until_group_is_free := λ _ _, Returned true |}.

(** ** get_coffee_type_from_status, is_delivery_active, detect_button_press *)

Arguments is_delivery_active : simpl never.
Arguments get_coffee_type_from_status : simpl never.
Arguments group_key : simpl never.

Section Classification.

Implicit Types (s : StatusDict) (m : ButtonPressMonitor) (g : Z).

Lemma active_has_coffee_type s :
  is_delivery_active s = true → is_Some (get_coffee_type_from_status s).
Proof.
  destruct s as [[] [] [] [] [] [] []]; vm_compute; intros H;
    solve [ eexists; reflexivity | discriminate H ].
Qed.

Lemma inactive_no_coffee_type s :
  is_delivery_active s = false → get_coffee_type_from_status s = None.
Proof.
  destruct s as [[] [] [] [] [] [] []]; vm_compute; intros H;
    solve [ reflexivity | discriminate H ].
Qed.

Lemma coffee_type_follows_priority s :
  get_coffee_type_from_status s = first_true_in_priority_order s.
Proof. by destruct s as [[] [] [] [] [] [] []]. Qed.

Lemma detect_button_press_coffee_type m g s ct :
  detect_button_press m g s = Some ct →
  get_coffee_type_from_status s = Some ct.
Proof.
  unfold detect_button_press.
  destruct (negb _ && _); [|discriminate].
  by destruct (get_coffee_type_from_status s).
Qed.

Lemma detect_button_press_first m g s :
  previous_states m !! group_key g = None →
  detect_button_press m g s =
    if is_delivery_active s then get_coffee_type_from_status s else None.
Proof.
  intros Hprev. unfold detect_button_press. rewrite Hprev. cbn.
  destruct (is_delivery_active s); [|done].
  by destruct (get_coffee_type_from_status s).
Qed.

Lemma detect_button_press_edge m g s :
  match previous_states m !! group_key g with
  | Some p => is_delivery_active p = false
  | None => True
  end →
  is_delivery_active s = true →
  detect_button_press m g s = get_coffee_type_from_status s.
Proof.
  intros Hprev Hs. unfold detect_button_press. rewrite Hs.
  destruct (previous_states m !! group_key g) as [p|]; [rewrite Hprev|];
    cbn; by destruct (get_coffee_type_from_status s).
Qed.

Lemma detect_button_press_held m g s p :
  previous_states m !! group_key g = Some p →
  is_delivery_active p = true →
  detect_button_press m g s = None.
Proof.
  intros Hprev Hp. unfold detect_button_press. by rewrite Hprev, Hp.
Qed.

Lemma detect_button_press_inactive m g s :
  is_delivery_active s = false → detect_button_press m g s = None.
Proof.
  intros Hs. unfold detect_button_press. rewrite Hs.
  by rewrite andb_false_r.
Qed.

End Classification.

(** C9.  For every snapshot with at least one activity flag set, the coffee
    type that [get_coffee_type_from_status] resolves is the first true flag
    in the order single_short, single_medium, single_long, double_short,
    double_medium, double_long, purge; and whenever [detect_button_press]
    reports a start on that snapshot, it reports that coffee type. *)
Theorem coffee_type_is_first_in_priority (s : StatusDict) :
  is_delivery_active s = true →
  ∃ ct, first_true_in_priority_order s = Some ct
        ∧ get_coffee_type_from_status s = Some ct
        ∧ ∀ m g ct', detect_button_press m g s = Some ct' → ct' = ct.
Proof.
  intros Hs. destruct (active_has_coffee_type s Hs) as [ct Hct].
  exists ct. split; [by rewrite <- coffee_type_follows_priority|].
  split; [done|]. intros m g ct' Hd.
  apply detect_button_press_coffee_type in Hd. congruence.
Qed.

Lemma coffee_type_is_first_in_priority_witness :
  ∃ ct, first_true_in_priority_order
          (flags false true false true false false true) = Some ct
        ∧ get_coffee_type_from_status
            (flags false true false true false false true) = Some ct
        ∧ ∀ m g ct',
            detect_button_press m g
              (flags false true false true false false true) = Some ct' →
            ct' = ct.
Proof.
  apply (coffee_type_is_first_in_priority
           (flags false true false true false false true)).
  reflexivity.
Defined.

(** C2, as the specification states it, fails: with no previous snapshot
    stored for group 1, a current snapshot with single_short set is
    classified as a start. *)
Lemma first_observation_can_start :
  ¬ (∀ (m : ButtonPressMonitor) (g : Z) (s : StatusDict),
       previous_states m !! group_key g = None →
       detect_button_press m g s = None).
Proof.
  intros H. specialize (H new_monitor 1 pressed_single_short).
  rewrite detect_button_press_first in H by reflexivity.
  specialize (H eq_refl). discriminate H.
Qed.

(** C2, amended.  For a group with no previous snapshot stored, [was_active]
    is false: the current snapshot is classified as a start exactly when one
    of its activity flags is set, with the coffee type of its first set
    flag, and as nothing when none is set. *)
Theorem first_observation_classification
    (m : ButtonPressMonitor) (g : Z) (s : StatusDict) :
  previous_states m !! group_key g = None →
  detect_button_press m g s =
    (if is_delivery_active s then first_true_in_priority_order s else None)
  ∧ (is_delivery_active s = true ↔ is_Some (detect_button_press m g s)).
Proof.
  intros Hprev. rewrite detect_button_press_first by done.
  rewrite coffee_type_follows_priority. split; [done|].
  destruct (is_delivery_active s) eqn:Hs.
  - rewrite <- coffee_type_follows_priority.
    split; [intros _; by apply active_has_coffee_type | done].
  - split; [discriminate | intros [? ?]; discriminate].
Qed.

Lemma first_observation_classification_witness :
  detect_button_press new_monitor 1 pressed_single_short =
    (if is_delivery_active pressed_single_short
     then first_true_in_priority_order pressed_single_short else None)
  ∧ (is_delivery_active pressed_single_short = true
     ↔ is_Some (detect_button_press new_monitor 1 pressed_single_short)).
Proof.
  apply (first_observation_classification new_monitor 1 pressed_single_short).
  reflexivity.
Defined.

(** ** Per-group isolation of the monitoring cycle *)

Lemma group_key_inj (g g' : Z) : group_key g = group_key g' → g = g'.
Proof.
  unfold group_key. intros H. simplify_eq/=. by apply (inj pretty).
Qed.

Lemma group_key_ne (g g' : Z) : g ≠ g' → group_key g ≠ group_key g'.
Proof. intros Hne Heq. by apply Hne, group_key_inj. Qed.

Section Frame_rules.

Context {A B : Type} (g : Z).

Lemma same_for_refl f : same_for g f f.
Proof. by repeat split. Qed.

Lemma same_for_trans f1 f2 f3 :
  same_for g f1 f2 → same_for g f2 f3 → same_for g f1 f3.
Proof.
  intros (Hv & Ha & Hl) (Hv' & Ha' & Hl').
  repeat split; congruence.
Qed.

Lemma preserves_ret (a : A) : preserves g (ret a).
Proof. intros f r f' [= <- <-]. apply same_for_refl. Qed.

Lemma preserves_raise (e : string) : preserves g (raise (A := A) e).
Proof. intros f r f' [= <- <-]. apply same_for_refl. Qed.

Lemma preserves_call (o : outcome A) : preserves g (call o).
Proof. intros f r f' [= <- <-]. apply same_for_refl. Qed.

Lemma preserves_modify (F : Frame → Frame) :
  (∀ f, same_for g f (F f)) → preserves g (modify F).
Proof. intros HF f r f' [= <- <-]. apply HF. Qed.

Lemma preserves_update (F : Frame → A * Frame) :
  (∀ f, same_for g f (F f).2) → preserves g (update F).
Proof. intros HF f r f' [= <- <-]. apply HF. Qed.

Lemma preserves_bind (c : comp Frame A) (k : A → comp Frame B) :
  preserves g c → (∀ a, preserves g (k a)) → preserves g (bind c k).
Proof.
  intros Hc Hk f r f'. unfold bind.
  destruct (c f) as [[a|e] f1] eqn:Hcf.
  - intros Hka. eapply same_for_trans; [by eapply Hc | by eapply Hk].
  - intros [= <- <-]. by eapply Hc.
Qed.

Lemma preserves_try_except (c : comp Frame A) (h : string → comp Frame A) :
  preserves g c → (∀ e, preserves g (h e)) → preserves g (try_except c h).
Proof.
  intros Hc Hh f r f'. unfold try_except.
  destruct (c f) as [[a|e] f1] eqn:Hcf.
  - intros [= <- <-]. by eapply Hc.
  - intros Hhe. eapply same_for_trans; [by eapply Hc | by eapply Hh].
Qed.

End Frame_rules.

Lemma preserves_get_state (g : Z) : preserves g get_state.
Proof. intros f r f' [= <- <-]. apply same_for_refl. Qed.

Lemma preserves_guard_fault (g : Z) (fault : option string) :
  preserves g (guard_fault fault).
Proof. destruct fault; [apply preserves_raise | apply preserves_ret]. Qed.

Section Other_group.

(** The writes made for a group [g'] leave every other group [g] as it
    was. *)
Context (g g' : Z) (Hne : g' ≠ g).

Lemma same_for_track d f : same_for g f (track (group_key g') d f).
Proof.
  repeat split. unfold view; cbn.
  by rewrite lookup_insert_ne by by apply group_key_ne.
Qed.

Lemma same_for_untrack f : same_for g f (untrack (group_key g') f).
Proof.
  repeat split. unfold view; cbn.
  by rewrite lookup_delete_ne by by apply group_key_ne.
Qed.

Lemma same_for_remember s f : same_for g f (remember (group_key g') s f).
Proof.
  repeat split. unfold view; cbn.
  by rewrite lookup_insert_ne by by apply group_key_ne.
Qed.

Lemma same_for_append_activity a f :
  activity_group a = g' → same_for g f (append_activity a f).
Proof.
  intros Ha. repeat split. cbn. unfold activities_of.
  rewrite filter_app, filter_cons_False, filter_nil, app_nil_r; [done|].
  congruence.
Qed.

Lemma same_for_create_log l f :
  log_group_number l = Some g' →
  same_for g f (set_db (repo_create_log (db f) l) f).
Proof.
  intros Hl. repeat split. cbn. unfold logs_of; cbn.
  rewrite filter_app, filter_cons_False, filter_nil, app_nil_r; [done|].
  congruence.
Qed.

End Other_group.

Ltac frame_rule :=
  first
    [ apply preserves_bind; [|intros ?]
    | apply preserves_ret
    | apply preserves_call
    | apply preserves_get_state
    | apply preserves_guard_fault
    | apply preserves_modify; intros ?
    | apply preserves_update; intros ?
    | apply preserves_try_except; [|intros ?] ].

Lemma delivery_objects_create_preserves g fault ct g' st tr t :
  preserves g (delivery_objects_create fault ct g' st tr t).
Proof.
  unfold delivery_objects_create. repeat frame_rule. by repeat split.
Qed.

Lemma delivery_save_preserves g fault d :
  preserves g (delivery_save fault d).
Proof. unfold delivery_save. repeat frame_rule. by repeat split. Qed.

Lemma log_objects_create_preserves g g' fault l :
  g' ≠ g → log_group_number l = Some g' →
  preserves g (log_objects_create fault l).
Proof.
  intros Hne Hl. unfold log_objects_create. repeat frame_rule.
  by eapply same_for_create_log.
Qed.

Lemma create_manual_delivery_record_preserves env g g' ct :
  g' ≠ g → preserves g (create_manual_delivery_record env g' ct).
Proof.
  intros Hne. unfold create_manual_delivery_record.
  apply preserves_bind; [apply delivery_objects_create_preserves|].
  intros d. apply preserves_bind; [|intros ?; apply preserves_ret].
  by eapply log_objects_create_preserves.
Qed.

Lemma update_delivery_completion_preserves env g g' d :
  g' ≠ g → preserves g (update_delivery_completion env g' d).
Proof.
  intros Hne. unfold update_delivery_completion.
  apply preserves_bind.
  { apply preserves_modify. intros f. by apply same_for_track. }
  intros _. apply preserves_bind; [apply delivery_save_preserves|].
  intros _. apply preserves_bind; [|intros ?; apply preserves_ret].
  by eapply log_objects_create_preserves.
Qed.

Lemma monitor_group_preserves env g g' :
  g' ≠ g → preserves g (monitor_group env g').
Proof.
  intros Hne. unfold monitor_group, monitor_group_try.
  apply preserves_try_except; [|intros e].
  - apply preserves_bind; [apply preserves_call|].
    intros [s|]; [|apply preserves_ret].
    apply preserves_bind; [apply preserves_get_state|]. intros f0.
    apply preserves_bind.
    { destruct (detect_button_press _ _ _); [|apply preserves_ret].
      apply preserves_bind;
        [by apply create_manual_delivery_record_preserves|].
      intros d. repeat frame_rule.
      - by apply same_for_track.
      - by apply (same_for_append_activity g g'). }
    intros _. apply preserves_bind; [apply preserves_get_state|]. intros f1.
    apply preserves_bind.
    { destruct (active_deliveries _ !! _); [|apply preserves_ret].
      destruct (negb _); [|apply preserves_ret].
      apply preserves_bind;
        [by apply update_delivery_completion_preserves|].
      intros d. repeat frame_rule.
      - by apply same_for_untrack.
      - by apply (same_for_append_activity g g'). }
    intros _. apply preserves_modify. intros f2.
    by apply same_for_remember.
  - apply preserves_modify. intros f. by apply (same_for_append_activity g g').
Qed.

(** The loop body never raises: its handler catches every exception of
    the [try] block. *)
Lemma monitor_group_returns env g f :
  ∃ f', monitor_group env g f = (Returned tt, f').
Proof.
  unfold monitor_group, try_except.
  destruct (monitor_group_try env g f) as [[[]|e] f1]; eauto.
Qed.

Lemma for_each_returns env l f :
  ∃ f', for_each l (monitor_group env) f = (Returned tt, f').
Proof.
  revert f. induction l as [|g l IH]; intros f; cbn; [by eexists|].
  unfold bind. destruct (monitor_group_returns env g f) as [f1 ->].
  apply IH.
Qed.

Lemma for_each_app {S A} (l1 l2 : list A) (body : A → comp S unit) s :
  for_each (l1 ++ l2) body s =
    bind (for_each l1 body) (λ _, for_each l2 body) s.
Proof.
  revert s. induction l1 as [|x l1 IH]; intros s; cbn.
  - done.
  - unfold bind. destruct (body x s) as [[[]|e] s1]; [|done].
    rewrite IH. done.
Qed.

Lemma for_each_preserves env g l :
  g ∉ l → preserves g (for_each l (monitor_group env)).
Proof.
  induction l as [|g' l IH]; intros Hg; cbn.
  - apply preserves_ret.
  - apply not_elem_of_cons in Hg as [Hne Hg].
    apply preserves_bind; [|intros _; by apply IH].
    apply monitor_group_preserves. congruence.
Qed.

Lemma enumerated_split env g n :
  get_number_of_groups (machine env) = Returned n →
  1 ≤ g ≤ Z.min (or_3 n) 4 →
  ∃ l1 l2, range 1 (Z.min (or_3 n + 1) 5) = l1 ++ g :: l2
           ∧ (g ∉ l1) ∧ (g ∉ l2).
Proof.
  intros Hn Hg.
  assert (Hin : g ∈ range 1 (Z.min (or_3 n + 1) 5)).
  { unfold range. apply elem_of_seqZ. lia. }
  assert (Hnd : NoDup (range 1 (Z.min (or_3 n + 1) 5))) by apply NoDup_seqZ.
  apply list_elem_of_split in Hin as (l1 & l2 & Heq).
  exists l1, l2. split; [done|].
  rewrite Heq in Hnd. apply NoDup_app in Hnd as (_ & Hdisj & Hnd2).
  apply NoDup_cons in Hnd2 as [Hg2 _]. split; [|done].
  intros Hg1. apply (Hdisj g Hg1). by left.
Qed.

(** A connected cycle returns, and what it does for an enumerated group
    [g] is what the loop body of [g] does, run on a frame that agrees with
    the initial one on [g]: the iterations of the other groups, whatever
    happens in them, change nothing that concerns [g]. *)
Lemma cycle_isolates env g f :
  connected env → enumerated env g →
  ∃ r f' f1 f2,
    monitor_single_cycle env f = (Returned r, f')
    ∧ r_status r = "active"
    ∧ view g f1 = view g f
    ∧ activities_of g (activities f1) = []
    ∧ logs_of g (db f1) = logs_of g (db f)
    ∧ monitor_group env g f1 = (Returned tt, f2)
    ∧ view g f' = view g f2
    ∧ reported g (Returned r) = Some (activities_of g (activities f2))
    ∧ logs_of g (db f') = logs_of g (db f2).
Proof.
  intros Hc (n & Hn & Hg).
  destruct (enumerated_split env g n Hn Hg) as (l1 & l2 & Hl & Hg1 & Hg2).
  unfold monitor_single_cycle, bind at 1, call at 1. rewrite Hc. cbn [negb].
  unfold bind at 1, modify at 1. unfold bind at 1, call at 1. rewrite Hn.
  unfold bind at 1. rewrite Hl, for_each_app. unfold bind at 1.
  set (f0 := {| self := self f; db := db f; activities := [] |}).
  destruct (for_each_returns env l1 f0) as [f1 Hf1]. rewrite Hf1.
  cbn [for_each]. unfold bind at 1.
  destruct (monitor_group_returns env g f1) as [f2 Hf2]. rewrite Hf2.
  destruct (for_each_returns env l2 f2) as [f3 Hf3]. rewrite Hf3.
  cbn. eexists _, f3, f1, f2. split; [reflexivity|].
  destruct (for_each_preserves env g l1 Hg1 _ _ _ Hf1) as (Hv1 & Ha1 & Hl1).
  destruct (for_each_preserves env g l2 Hg2 _ _ _ Hf3) as (Hv3 & Ha3 & Hl3).
  repeat split; try done.
  cbn. by rewrite Ha3.
Qed.

(** ** What one loop iteration does for its own group *)

Ltac run_comp :=
  unfold monitor_group, try_except, monitor_group_try,
    create_manual_delivery_record, update_delivery_completion,
    delivery_objects_create, delivery_save, log_objects_create,
    bind, call, get_state, modify, update, guard_fault, ret, raise.

Section Own_group.

Context (env : CycleEnv) (g : Z).

Lemma group_fetch_raises e f :
  get_group_selection (machine env) g = Raised e →
  monitor_group env g f = (Returned tt, append_activity (error g e) f).
Proof. intros H. run_comp. by rewrite H. Qed.

Lemma group_fetch_none f :
  get_group_selection (machine env) g = Returned None →
  monitor_group env g f = (Returned tt, f).
Proof. intros H. run_comp. by rewrite H. Qed.

Lemma group_start s ct f :
  fetches env g s → writes_succeed env g →
  detect_button_press (self f) g s = Some ct →
  ∃ f2,
    monitor_group env g f = (Returned tt, f2)
    ∧ view g f2 =
        (Some s, Some (manual_delivery (next_id (db f)) ct g (now env)))
    ∧ activities f2 =
        activities f ++ [delivery_started g ct (next_id (db f))]
    ∧ deliveries (db f2) !! next_id (db f) =
        Some (manual_delivery (next_id (db f)) ct g (now env))
    ∧ ∃ l, logs (db f2) = logs (db f) ++ [l]
           ∧ log_group_number l = Some g.
Proof.
  intros Hs [Hd Hl] Hdet.
  assert (Hact : is_delivery_active s = true).
  { destruct (is_delivery_active s) eqn:E; [done|].
    by rewrite detect_button_press_inactive in Hdet. }
  run_comp. rewrite Hs, Hdet, Hd, Hl. cbn.
  rewrite lookup_insert_eq, Hact. cbn.
  eexists. split; [reflexivity|]. unfold view. cbn.
  rewrite !lookup_insert_eq.
  repeat split; try done. by eexists.
Qed.

Lemma group_complete s d f :
  fetches env g s → writes_succeed env g →
  is_delivery_active s = false →
  active_deliveries (self f) !! group_key g = Some d →
  ∃ f2,
    monitor_group env g f = (Returned tt, f2)
    ∧ view g f2 = (Some s, None)
    ∧ activities f2 =
        activities f ++ [delivery_completed g (coffee_type d) (delivery_id d)]
    ∧ deliveries (db f2) !! delivery_id d =
        Some (with_completed_at (with_status d "completed") (now env))
    ∧ ∃ l, logs (db f2) = logs (db f) ++ [l]
           ∧ log_group_number l = Some g.
Proof.
  intros Hs [Hd Hl] Hact Htr.
  run_comp. rewrite Hs, (detect_button_press_inactive _ _ _ Hact).
  rewrite Htr, Hact, Hd, Hl. cbn.
  eexists. split; [reflexivity|]. unfold view. cbn.
  rewrite ?lookup_insert_eq, ?lookup_delete_eq, ?lookup_insert_eq.
  repeat split; try done. by eexists.
Qed.

(** No edge: the snapshot is stored and nothing else happens. *)
Lemma group_quiet s f :
  fetches env g s →
  detect_button_press (self f) g s = None →
  (is_delivery_active s = true
   ∨ active_deliveries (self f) !! group_key g = None) →
  monitor_group env g f = (Returned tt, remember (group_key g) s f).
Proof.
  intros Hs Hdet Hq. run_comp. rewrite Hs, Hdet.
  destruct (active_deliveries (self f) !! group_key g) as [d|] eqn:Htr;
    [|done].
  destruct Hq as [-> | ?]; done.
Qed.

(** A start whose write fails: the exception becomes an error activity,
    the delivery is not tracked and the previous snapshot is not
    replaced. *)
Lemma group_start_write_fails s ct e f :
  fetches env g s →
  detect_button_press (self f) g s = Some ct →
  write_failure env g = Some e →
  ∃ f2,
    monitor_group env g f = (Returned tt, f2)
    ∧ self f2 = self f
    ∧ activities f2 = activities f ++ [error g e].
Proof.
  intros Hs Hdet Hw. unfold write_failure in Hw.
  run_comp. rewrite Hs, Hdet.
  destruct (delivery_write_fault env g) as [e'|]; simplify_eq/=.
  - by eexists.
  - rewrite Hw. by eexists.
Qed.

(** A completion whose write fails: the exception becomes an error
    activity and the delivery stays tracked. *)
Lemma group_complete_write_fails s d e f :
  fetches env g s →
  is_delivery_active s = false →
  active_deliveries (self f) !! group_key g = Some d →
  write_failure env g = Some e →
  ∃ f2,
    monitor_group env g f = (Returned tt, f2)
    ∧ previous_states (self f2) = previous_states (self f)
    ∧ is_Some (active_deliveries (self f2) !! group_key g)
    ∧ activities f2 = activities f ++ [error g e].
Proof.
  intros Hs Hact Htr Hw. unfold write_failure in Hw.
  run_comp. rewrite Hs, (detect_button_press_inactive _ _ _ Hact).
  rewrite Htr, Hact. cbn.
  destruct (delivery_write_fault env g) as [e'|]; simplify_eq/=.
  - eexists. split; [reflexivity|]. cbn.
    rewrite lookup_insert_eq. by repeat split.
  - rewrite Hw. eexists. split; [reflexivity|]. cbn.
    rewrite lookup_insert_eq. by repeat split.
Qed.

End Own_group.

(** ** One polled group across a cycle *)

Lemma activities_of_snoc g l a :
  activities_of g l = [] → activity_group a = g →
  activities_of g (l ++ [a]) = [a].
Proof.
  intros Hl Ha. unfold activities_of in *.
  by rewrite filter_app, Hl, filter_cons_True.
Qed.

Section Polled_group.

Context (env : CycleEnv) (g : Z) (s : StatusDict) (f : Frame).
Context (Hpolls : polls env g s).

Lemma cycle_start :
  not_active_before g f → is_delivery_active s = true →
  ∃ r f' ct id,
    monitor_single_cycle env f = (Returned r, f')
    ∧ get_coffee_type_from_status s = Some ct
    ∧ reported g (Returned r) = Some [delivery_started g ct id]
    ∧ view g f' = (Some s, Some (manual_delivery id ct g (now env))).
Proof.
  intros Hprev Hact. destruct Hpolls as (Hc & He & Hs & Hw).
  destruct (cycle_isolates env g f Hc He)
    as (r & f' & f1 & f2 & Hrun & _ & Hv1 & Ha1 & _ & Hg & Hv2 & Hr & _).
  destruct (active_has_coffee_type s Hact) as [ct Hct].
  assert (Hdet : detect_button_press (self f1) g s = Some ct).
  { rewrite detect_button_press_edge; [done| |done].
    unfold not_active_before in Hprev. rewrite <- Hv1 in Hprev.
    exact Hprev. }
  destruct (group_start env g s ct f1 Hs Hw Hdet)
    as (f2' & Hg' & Hv & Ha & _).
  rewrite Hg in Hg'. injection Hg' as <-.
  exists r, f', ct, (next_id (db f1)). repeat split; try done.
  - rewrite Hr, Ha. by rewrite activities_of_snoc.
  - by rewrite Hv2.
Qed.

Lemma cycle_hold p :
  (view g f).1 = Some p → is_delivery_active p = true →
  is_delivery_active s = true →
  ∃ r f',
    monitor_single_cycle env f = (Returned r, f')
    ∧ reported g (Returned r) = Some []
    ∧ view g f' = (Some s, (view g f).2).
Proof.
  intros Hprev Hp Hact. destruct Hpolls as (Hc & He & Hs & Hw).
  destruct (cycle_isolates env g f Hc He)
    as (r & f' & f1 & f2 & Hrun & _ & Hv1 & Ha1 & _ & Hg & Hv2 & Hr & _).
  assert (Hdet : detect_button_press (self f1) g s = None).
  { apply detect_button_press_held with p; [|done].
    rewrite <- Hv1 in Hprev. exact Hprev. }
  rewrite (group_quiet env g s f1 Hs Hdet) in Hg by by left.
  injection Hg as <-. exists r, f'. repeat split; try done.
  - by rewrite Hr, <- Ha1.
  - rewrite Hv2, <- Hv1. unfold view. cbn.
    by rewrite lookup_insert_eq.
Qed.

Lemma cycle_release d :
  (view g f).2 = Some d → is_delivery_active s = false →
  ∃ r f',
    monitor_single_cycle env f = (Returned r, f')
    ∧ reported g (Returned r) =
        Some [delivery_completed g (coffee_type d) (delivery_id d)]
    ∧ view g f' = (Some s, None).
Proof.
  intros Htr Hact. destruct Hpolls as (Hc & He & Hs & Hw).
  destruct (cycle_isolates env g f Hc He)
    as (r & f' & f1 & f2 & Hrun & _ & Hv1 & Ha1 & _ & Hg & Hv2 & Hr & _).
  rewrite <- Hv1 in Htr.
  destruct (group_complete env g s d f1 Hs Hw Hact Htr)
    as (f2' & Hg' & Hv & Ha & _).
  rewrite Hg in Hg'. injection Hg' as <-.
  exists r, f'. repeat split; try done.
  - rewrite Hr, Ha. by rewrite activities_of_snoc.
  - by rewrite Hv2.
Qed.

Lemma cycle_idle :
  (view g f).2 = None → is_delivery_active s = false →
  ∃ r f',
    monitor_single_cycle env f = (Returned r, f')
    ∧ reported g (Returned r) = Some []
    ∧ logs_of g (db f') = logs_of g (db f)
    ∧ view g f' = (Some s, None).
Proof.
  intros Htr Hact. destruct Hpolls as (Hc & He & Hs & Hw).
  destruct (cycle_isolates env g f Hc He)
    as (r & f' & f1 & f2 & Hrun & _ & Hv1 & Ha1 & Hl1 & Hg & Hv2 & Hr & Hl2).
  rewrite <- Hv1 in Htr.
  rewrite (group_quiet env g s f1 Hs) in Hg;
    [|by apply detect_button_press_inactive|by right].
  injection Hg as <-. exists r, f'. repeat split; try done.
  - by rewrite Hr, <- Ha1.
  - by rewrite Hl2, <- Hl1.
  - rewrite Hv2. unfold view. cbn. rewrite lookup_insert_eq.
    f_equal. exact Htr.
Qed.

End Polled_group.

(** ** A press across several cycles *)

Arguments monitor_single_cycle : simpl never.
Arguments view : simpl never.

Lemma run_cycles_app envs1 envs2 f :
  (run_cycles (envs1 ++ envs2) f).1 =
    (run_cycles envs1 f).1 ++ (run_cycles envs2 (run_cycles envs1 f).2).1.
Proof.
  revert f. induction envs1 as [|env envs1 IH]; intros f; cbn; [done|].
  destruct (monitor_single_cycle env f) as [r f1].
  specialize (IH f1).
  destruct (run_cycles (envs1 ++ envs2) f1) as [rs f2].
  destruct (run_cycles envs1 f1) as [rs1 f3]. cbn in *.
  by rewrite IH.
Qed.

(** While the press is held, nothing is reported and the delivery stays
    tracked. *)
Lemma held_press_reports_nothing g hold : ∀ f p d,
  view g f = (Some p, Some d) → is_delivery_active p = true →
  Forall (polls_active g) hold →
  reported g <$> (run_cycles hold f).1 = replicate (length hold) (Some [])
  ∧ ∃ p', view g (run_cycles hold f).2 = (Some p', Some d)
          ∧ is_delivery_active p' = true.
Proof.
  induction hold as [|env hold IH]; intros f p d Hv Hp Hall; cbn.
  - split; [done|]. by exists p.
  - apply Forall_cons in Hall as [(s & Hpolls & Hs) Hall].
    destruct (cycle_hold env g s f Hpolls p) as (r & f' & Hrun & Hr & Hv');
      [by rewrite Hv|done|done|].
    rewrite Hrun. rewrite Hv in Hv'. cbn in Hv'.
    destruct (IH f' s d Hv' Hs Hall) as [Hrs Hend].
    destruct (run_cycles hold f') as [rs f'']. cbn in *.
    split; [by rewrite Hr, Hrs | done].
Qed.

(** After the release, inactive polls report nothing. *)
Lemma idle_reports_nothing g idle : ∀ f,
  (view g f).2 = None →
  Forall (polls_inactive g) idle →
  reported g <$> (run_cycles idle f).1 = replicate (length idle) (Some []).
Proof.
  induction idle as [|env idle IH]; intros f Hv Hall; cbn; [done|].
  apply Forall_cons in Hall as [(s & Hpolls & Hs) Hall].
  destruct (cycle_idle env g s f Hpolls Hv Hs) as (r & f' & Hrun & Hr & _ & Hv').
  rewrite Hrun. specialize (IH f'). rewrite Hv' in IH.
  specialize (IH eq_refl Hall).
  destruct (run_cycles idle f') as [rs f'']. cbn in *.
  by rewrite Hr, IH.
Qed.

Lemma run_cycles_cons env envs f :
  (run_cycles (env :: envs) f).1 =
    (monitor_single_cycle env f).1
    :: (run_cycles envs (monitor_single_cycle env f).2).1.
Proof.
  cbn. destruct (monitor_single_cycle env f) as [r f1]. cbn.
  by destruct (run_cycles envs f1).
Qed.

(** The press of one group, from its first active poll to the polls after
    its release. *)
Lemma press_reports g f env1 s1 hold release idle :
  not_active_before g f →
  polls env1 g s1 → is_delivery_active s1 = true →
  Forall (polls_active g) hold →
  polls_inactive g release →
  Forall (polls_inactive g) idle →
  ∃ ct id,
    get_coffee_type_from_status s1 = Some ct
    ∧ reported g <$> (run_cycles (env1 :: hold ++ release :: idle) f).1 =
        Some [delivery_started g ct id]
        :: replicate (length hold) (Some [])
        ++ Some [delivery_completed g ct id]
        :: replicate (length idle) (Some []).
Proof.
  intros Hprev Hp1 Hs1 Hhold (s & Hprel & Hsrel) Hidle.
  destruct (cycle_start env1 g s1 f Hp1 Hprev Hs1)
    as (r & f1 & ct & id & Hrun & Hct & Hr & Hv1).
  exists ct, id. split; [done|].
  rewrite run_cycles_cons, Hrun. cbn [fst snd]. rewrite fmap_cons, Hr.
  f_equal. rewrite run_cycles_app, fmap_app.
  destruct (held_press_reports_nothing g hold f1 s1 _ Hv1 Hs1 Hhold)
    as (Hrs & p' & Hv2 & Hp').
  rewrite Hrs. f_equal.
  set (f2 := (run_cycles hold f1).2) in *.
  destruct (cycle_release release g s f2 Hprel _ ltac:(by rewrite Hv2) Hsrel)
    as (r3 & f3 & Hrun3 & Hr3 & Hv3).
  rewrite run_cycles_cons, Hrun3. cbn [fst snd]. rewrite fmap_cons, Hr3.
  cbn [manual_delivery coffee_type delivery_id]. f_equal.
  apply idle_reports_nothing; [by rewrite Hv3 | done].
Qed.

(** C1.  For every group, a sustained press - polls with some activity flag
    set, following an inactive or absent previous snapshot - is reported as
    exactly one delivery_started, at its first active poll; the first later
    poll with all flags false is reported as exactly one delivery_completed
    of the same delivery; the other polls of the press, and the inactive
    polls after it, report nothing for the group.  In particular the
    sequence inactive, single_short, single_short, inactive on group 1 of a
    new monitor reports nothing, started(single_short), nothing,
    completed, in that order.  The polls are those in which the group is
    read and written without a fault; the other groups are unconstrained. *)
Theorem sustained_press_once g f env1 s1 hold release idle :
  not_active_before g f →
  polls env1 g s1 → is_delivery_active s1 = true →
  Forall (polls_active g) hold →
  polls_inactive g release →
  Forall (polls_inactive g) idle →
  (∃ ct id,
     first_true_in_priority_order s1 = Some ct
     ∧ reported g <$> (run_cycles (env1 :: hold ++ release :: idle) f).1 =
         Some [delivery_started g ct id]
         :: replicate (length hold) (Some [])
         ++ Some [delivery_completed g ct id]
         :: replicate (length idle) (Some []))
  ∧ (∀ e1 e2 e3 e4 db0,
       polls e1 1 inactive →
       polls e2 1 pressed_single_short →
       polls e3 1 pressed_single_short →
       polls e4 1 inactive →
       ∃ id,
         reported 1 <$>
           (run_cycles [e1; e2; e3; e4]
              {| self := new_monitor; db := db0; activities := [] |}).1 =
         [ Some [];
           Some [delivery_started 1 "single_short" id];
           Some [];
           Some [delivery_completed 1 "single_short" id] ]).
Proof.
  intros Hprev Hp1 Hs1 Hhold Hrel Hidle. split.
  - destruct (press_reports g f env1 s1 hold release idle)
      as (ct & id & Hct & Hrs); try done.
    exists ct, id. by rewrite <- coffee_type_follows_priority.
  - intros e1 e2 e3 e4 db0 H1 H2 H3 H4.
    set (f0 := {| self := new_monitor; db := db0; activities := [] |}).
    destruct (cycle_idle e1 1 inactive f0 H1) as (r1 & f1 & Hrun1 & Hr1 & _ & Hv1);
      [done..|].
    destruct (press_reports 1 f1 e2 pressed_single_short [e3] e4 [])
      as (ct & id & Hct & Hrs); try done.
    + unfold not_active_before. by rewrite Hv1.
    + constructor; [|done]. by exists pressed_single_short.
    + by exists inactive.
    + exists id. rewrite run_cycles_cons, Hrun1. cbn [fst snd].
      rewrite fmap_cons, Hr1. f_equal.
      change ([e3] ++ [e4]) with [e3; e4] in Hrs. rewrite Hrs.
      by injection Hct as <-.
Qed.

Lemma cycle_showing_polls s t : polls (cycle_showing s t) 1 s.
Proof.
  repeat split.
  exists (Some 3). split; [reflexivity|]. by vm_compute.
Qed.

Lemma sustained_press_once_witness :
  (∃ ct id,
     first_true_in_priority_order pressed_single_short = Some ct
     ∧ reported 1 <$>
         (run_cycles
            (cycle_showing pressed_single_short 11
             :: [cycle_showing pressed_single_short 12]
             ++ cycle_showing inactive 13 :: [cycle_showing inactive 14])
            new_frame).1 =
         Some [delivery_started 1 ct id]
         :: replicate (length [cycle_showing pressed_single_short 12]) (Some [])
         ++ Some [delivery_completed 1 ct id]
         :: replicate (length [cycle_showing inactive 14]) (Some []))
  ∧ (∀ e1 e2 e3 e4 db0,
       polls e1 1 inactive →
       polls e2 1 pressed_single_short →
       polls e3 1 pressed_single_short →
       polls e4 1 inactive →
       ∃ id,
         reported 1 <$>
           (run_cycles [e1; e2; e3; e4]
              {| self := new_monitor; db := db0; activities := [] |}).1 =
         [ Some [];
           Some [delivery_started 1 "single_short" id];
           Some [];
           Some [delivery_completed 1 "single_short" id] ]).
Proof.
  apply (sustained_press_once 1 new_frame
           (cycle_showing pressed_single_short 11) pressed_single_short
           [cycle_showing pressed_single_short 12]
           (cycle_showing inactive 13) [cycle_showing inactive 14]).
  - exact I.
  - apply cycle_showing_polls.
  - reflexivity.
  - constructor; [|constructor].
    exists pressed_single_short. split; [apply cycle_showing_polls|reflexivity].
  - exists inactive. split; [apply cycle_showing_polls|reflexivity].
  - constructor; [|constructor].
    exists inactive. split; [apply cycle_showing_polls|reflexivity].
Defined.

(** The scenario run on a machine with three groups: the delivery gets
    id 1, and the repository ends with the row completed and two log rows. *)
Example press_scenario :
  let run := run_cycles [ cycle_showing inactive 10;
                          cycle_showing pressed_single_short 11;
                          cycle_showing pressed_single_short 12;
                          cycle_showing inactive 13 ] new_frame in
  (λ o, match o with Returned r => r_activities r | Raised _ => None end)
    <$> run.1 =
    [ Some [];
      Some [delivery_started 1 "single_short" 1];
      Some [];
      Some [delivery_completed 1 "single_short" 1] ]
  ∧ (status <$> deliveries (db run.2) !! 1) = Some "completed"
  ∧ (completed_at <$> deliveries (db run.2) !! 1) = Some (Some 13)
  ∧ length (logs (db run.2)) = 2%nat
  ∧ active_deliveries (self run.2) !! group_key 1 = None.
Proof. by vm_compute. Qed.

(** ** The cycle's boundary: disconnects, untracked completions, faults *)

Lemma cycle_result_unique env f r1 f1 r2 f2 :
  monitor_single_cycle env f = (Returned r1, f1) →
  monitor_single_cycle env f = (Returned r2, f2) →
  r1 = r2 ∧ f1 = f2.
Proof. intros H1 H2. rewrite H1 in H2. by injection H2. Qed.

Lemma cycle_disconnected env f :
  ensure_connection (machine env) = Returned false →
  monitor_single_cycle env f =
    (Returned {| r_status := "disconnected"; r_message := None;
                 r_timestamp := None; r_activities := Some [];
                 r_active_deliveries := None |}, f).
Proof.
  intros H. unfold monitor_single_cycle, bind, call. by rewrite H.
Qed.

(** C8.  When the machine cannot be reached, the cycle returns status
    disconnected with an empty activities list and leaves the monitor and
    the repository exactly as they were: every previous snapshot and every
    tracked delivery stays, an open in_progress delivery included.  A held
    press that is polled again after the disconnect is therefore not
    reported as a new start. *)
Theorem disconnected_cycle_changes_nothing env f :
  ensure_connection (machine env) = Returned false →
  ∃ r f',
    monitor_single_cycle env f = (Returned r, f')
    ∧ r_status r = "disconnected"
    ∧ r_activities r = Some []
    ∧ previous_states (self f') = previous_states (self f)
    ∧ active_deliveries (self f') = active_deliveries (self f)
    ∧ db f' = db f
    ∧ (∀ k d, active_deliveries (self f) !! k = Some d →
              status d = "in_progress" →
              active_deliveries (self f') !! k = Some d
              ∧ deliveries (db f') !! delivery_id d =
                  deliveries (db f) !! delivery_id d)
    ∧ (∀ env2 g s p,
          polls env2 g s → is_delivery_active s = true →
          (view g f).1 = Some p → is_delivery_active p = true →
          reported g (monitor_single_cycle env2 f').1 = Some []).
Proof.
  intros H. eexists _, f. split; [by apply cycle_disconnected|].
  repeat split; try done.
  intros env2 g s p Hpolls Hs Hv Hp.
  destruct (cycle_hold env2 g s f Hpolls p Hv Hp Hs) as (r & f' & -> & Hr & _).
  done.
Qed.

Lemma disconnected_cycle_changes_nothing_witness :
  ∃ r f',
    monitor_single_cycle (disconnected_cycle 12) frame_with_open_delivery
      = (Returned r, f')
    ∧ r_status r = "disconnected"
    ∧ r_activities r = Some []
    ∧ previous_states (self f') = previous_states (self frame_with_open_delivery)
    ∧ active_deliveries (self f') = active_deliveries (self frame_with_open_delivery)
    ∧ db f' = db frame_with_open_delivery
    ∧ (∀ k d, active_deliveries (self frame_with_open_delivery) !! k = Some d →
              status d = "in_progress" →
              active_deliveries (self f') !! k = Some d
              ∧ deliveries (db f') !! delivery_id d =
                  deliveries (db frame_with_open_delivery) !! delivery_id d)
    ∧ (∀ env2 g s p,
          polls env2 g s → is_delivery_active s = true →
          (view g frame_with_open_delivery).1 = Some p →
          is_delivery_active p = true →
          reported g (monitor_single_cycle env2 f').1 = Some []).
Proof.
  apply (disconnected_cycle_changes_nothing
           (disconnected_cycle 12) frame_with_open_delivery).
  reflexivity.
Defined.

(** A connected cycle in which the enumerated group [g] reads an inactive
    snapshot while it has no tracked delivery: nothing is reported or
    logged for [g]; only its previous snapshot is replaced. *)
Lemma cycle_quiet_untracked env g s f :
  connected env → enumerated env g → fetches env g s →
  (view g f).2 = None → is_delivery_active s = false →
  ∃ r f',
    monitor_single_cycle env f = (Returned r, f')
    ∧ r_status r = "active"
    ∧ reported g (Returned r) = Some []
    ∧ logs_of g (db f') = logs_of g (db f)
    ∧ view g f' = (Some s, None).
Proof.
  intros Hc He Hs Htr Hact.
  destruct (cycle_isolates env g f Hc He)
    as (r & f' & f1 & f2 & Hrun & Hst & Hv1 & Ha1 & Hl1 & Hg & Hv2 & Hr & Hl2).
  rewrite <- Hv1 in Htr.
  rewrite (group_quiet env g s f1 Hs) in Hg;
    [|by apply detect_button_press_inactive|by right].
  injection Hg as <-. exists r, f'. repeat split; try done.
  - by rewrite Hr, <- Ha1.
  - by rewrite Hl2, <- Hl1.
  - rewrite Hv2. unfold view. cbn. rewrite lookup_insert_eq.
    f_equal. exact Htr.
Qed.

(** ** Fetch failures *)

(** C6, as the specification states it, fails for the fetch that returns no
    snapshot: group 2 returns [None] and the cycle reports no error activity
    for it. *)
Lemma fetch_returning_none_reports_no_error :
  ¬ (∀ env g f,
       connected env → enumerated env g → fetch_fails env g →
       ∃ r f' acts e,
         monitor_single_cycle env f = (Returned r, f')
         ∧ r_activities r = Some acts
         ∧ error g e ∈ acts).
Proof.
  intros H.
  destruct (H (cycle_on machine_group2_none 30) 2 new_frame)
    as (r & f' & acts & e & Hrun & Hacts & Hin).
  - reflexivity.
  - exists (Some 3). split; [reflexivity|]. by vm_compute.
  - by left.
  - vm_compute in Hrun. injection Hrun as <- <-.
    cbn in Hacts. injection Hacts as <-. by apply elem_of_nil in Hin.
Qed.

(** C6, amended.  In a connected cycle, when the fetch of an enumerated
    group raises, the cycle reports one error activity for that group,
    carrying the exception's description; when the fetch returns no
    snapshot, the group is skipped and nothing is reported for it.  In both
    cases the cycle returns with status active, the group's previous
    snapshot and tracked delivery are unchanged, and the loop body of every
    enumerated group is still run, on a frame that agrees with the initial
    one on that group: the cycle does not stop at the failure. *)
Theorem fetch_failure_is_isolated env g f :
  connected env → enumerated env g → fetch_fails env g →
  ∃ r f',
    monitor_single_cycle env f = (Returned r, f')
    ∧ r_status r = "active"
    ∧ view g f' = view g f
    ∧ (∀ e, get_group_selection (machine env) g = Raised e →
            reported g (Returned r) = Some [error g e])
    ∧ (get_group_selection (machine env) g = Returned None →
         reported g (Returned r) = Some [])
    ∧ (∀ g2, enumerated env g2 →
         ∃ f1 f2,
           view g2 f1 = view g2 f
           ∧ activities_of g2 (activities f1) = []
           ∧ monitor_group env g2 f1 = (Returned tt, f2)
           ∧ view g2 f' = view g2 f2
           ∧ reported g2 (Returned r) = Some (activities_of g2 (activities f2))).
Proof.
  intros Hc He Hfail.
  destruct (cycle_isolates env g f Hc He)
    as (r & f' & f1 & f2 & Hrun & Hst & Hv1 & Ha1 & Hl1 & Hg & Hv2 & Hr & Hl2).
  exists r, f'. split; [done|]. split; [done|].
  assert (Hview : view g f2 = view g f1
                  ∧ (∀ e, get_group_selection (machine env) g = Raised e →
                          activities f2 = activities f1 ++ [error g e])
                  ∧ (get_group_selection (machine env) g = Returned None →
                       activities f2 = activities f1)).
  { destruct Hfail as [Hnone | [e Hraise]].
    - rewrite (group_fetch_none env g f1 Hnone) in Hg. injection Hg as <-.
      repeat split; try done. intros e He'. congruence.
    - rewrite (group_fetch_raises env g e f1 Hraise) in Hg. injection Hg as <-.
      repeat split; try done; [|intros Hn; congruence].
      intros e' He'. rewrite Hraise in He'. by injection He' as <-. }
  destruct Hview as (Hv & Hraise & Hnone).
  split; [by rewrite Hv2, Hv|]. split; [|split].
  - intros e He'. rewrite Hr, (Hraise e He'). by rewrite activities_of_snoc.
  - intros Hn. by rewrite Hr, (Hnone Hn), Ha1.
  - intros g2 He2.
    destruct (cycle_isolates env g2 f Hc He2)
      as (r' & f'' & f3 & f4 & Hrun' & _ & Hv3 & Ha3 & _ & Hg2 & Hv4 & Hr' & _).
    destruct (cycle_result_unique _ _ _ _ _ _ Hrun Hrun') as [<- <-].
    by exists f3, f4.
Qed.

Lemma fetch_failure_is_isolated_witness :
  ∃ r f',
    monitor_single_cycle (cycle_on machine_group2_raises 30) new_frame
      = (Returned r, f')
    ∧ r_status r = "active"
    ∧ view 2 f' = view 2 new_frame
    ∧ (∀ e, get_group_selection (machine (cycle_on machine_group2_raises 30)) 2
              = Raised e →
            reported 2 (Returned r) = Some [error 2 e])
    ∧ (get_group_selection (machine (cycle_on machine_group2_raises 30)) 2
         = Returned None →
         reported 2 (Returned r) = Some [])
    ∧ (∀ g2, enumerated (cycle_on machine_group2_raises 30) g2 →
         ∃ f1 f2,
           view g2 f1 = view g2 new_frame
           ∧ activities_of g2 (activities f1) = []
           ∧ monitor_group (cycle_on machine_group2_raises 30) g2 f1
               = (Returned tt, f2)
           ∧ view g2 f' = view g2 f2
           ∧ reported g2 (Returned r) = Some (activities_of g2 (activities f2))).
Proof.
  apply (fetch_failure_is_isolated
           (cycle_on machine_group2_raises 30) 2 new_frame).
  - reflexivity.
  - exists (Some 3). split; [reflexivity|]. by vm_compute.
  - right. exists "Modbus read failed". reflexivity.
Defined.

(** The cycle of [machine_group2_raises] in full: the failure of group 2 is
    reported and group 3, visited after it, has its press recorded. *)
Example fetch_failure_cycle :
  (monitor_single_cycle (cycle_on machine_group2_raises 30) new_frame).1 =
    Returned {| r_status := "active"; r_message := None;
                r_timestamp := Some 30;
                r_activities :=
                  Some [ error 2 "Modbus read failed";
                         delivery_started 3 "single_short" 1 ];
                r_active_deliveries := Some 1%nat |}.
Proof. by vm_compute. Qed.

(** ** deliver_coffee_async *)

Ltac run_task :=
  unfold deliver_coffee_async, deliver_coffee_try,
    deliver_coffee_except, try_except, objects_get, save, machine_call,
    bind, call, get_state, modify, update, guard_fault, ret, raise.

Section Task_outcomes.

Context (env : TaskEnv) (id : Z) (w : TaskWorld) (d : CoffeeDelivery).
Context (Hrow : deliveries (t_db w) !! id = Some d).
Context (Hok : no_unexpected_fault env).

Let g := group_number d.
Let ct := coffee_type d.

Lemma task_disconnected :
  ensure_connection (t_machine env) = Returned false →
  deliver_coffee_async env id w =
    (Returned false,
     saved w (with_error_message (with_status d "failed")
                "Failed to connect to machine")
       [EnsureConnection]).
Proof.
  destruct Hok as (Hg & Hm & Hs1 & Hs2 & Hs3). intros Hc.
  run_task. rewrite Hg. cbn. rewrite Hrow, Hm. cbn. rewrite Hc. cbn.
  by rewrite Hs1.
Qed.

Lemma task_rejected res :
  ensure_connection (t_machine env) = Returned true →
  deliver_coffee (t_machine env) g ct = Returned res →
  success res = false →
  deliver_coffee_async env id w =
    (Returned false,
     saved w (with_error_message (with_status d "failed") (result_message res))
       [EnsureConnection; DeliverCoffee g ct]).
Proof.
  destruct Hok as (Hg & Hm & Hs1 & Hs2 & Hs3). intros Hc Hd Hres.
  run_task. rewrite Hg. cbn. rewrite Hrow, Hm. cbn. rewrite Hc. cbn.
  fold g ct. rewrite Hd, Hres. cbn. rewrite Hs3. cbn.
  unfold saved. by rewrite <- app_assoc.
Qed.

Lemma task_accepted res free :
  ensure_connection (t_machine env) = Returned true →
  deliver_coffee (t_machine env) g ct = Returned res →
  success res = true →
  wait_until_group_is_free (t_machine env) g 120 = Returned free →
  deliver_coffee_async env id w =
    let in_progress := with_status d "in_progress" in
    let final :=
      if free
      then with_completed_at (with_status in_progress "completed") (t_now env)
      else with_error_message (with_status in_progress "failed")
             "Delivery timeout" in
    (Returned free,
     {| t_db := repo_save_delivery
                  (repo_save_delivery (t_db w) in_progress) final;
        calls := calls w ++ [EnsureConnection; DeliverCoffee g ct;
                             WaitUntilGroupIsFree g 120] |}).
Proof.
  destruct Hok as (Hg & Hm & Hs1 & Hs2 & Hs3). intros Hc Hd Hres Hwait.
  run_task. rewrite Hg. cbn. rewrite Hrow, Hm. cbn. rewrite Hc. cbn.
  fold g ct. rewrite Hd, Hres. cbn. rewrite Hs2. cbn.
  fold g. rewrite Hwait. cbn.
  destruct free; cbn; rewrite Hs3; cbn; by rewrite <- !app_assoc.
Qed.

End Task_outcomes.

(** C3.  For a delivery row stored under its id, and a run in which only
    the driver's answers vary, [deliver_coffee_async] ends as follows.
    Machine unreachable: status failed, message "Failed to connect to
    machine", no delivery command issued, result false.  Command rejected:
    status failed with the driver's message, result false.  Command
    accepted and the wait with timeout 120 answers false: status failed,
    message "Delivery timeout", result false.  Command accepted and the
    wait answers true: status completed with completed_at set, result true.
    Whenever the driver answers, the result is true exactly when the stored
    status is completed. *)
Theorem deliver_coffee_async_outcomes env id w d :
  deliveries (t_db w) !! id = Some d →
  delivery_id d = id →
  no_unexpected_fault env →
  (ensure_connection (t_machine env) = Returned false →
   ∃ w' d',
     deliver_coffee_async env id w = (Returned false, w')
     ∧ deliveries (t_db w') !! id = Some d'
     ∧ status d' = "failed"
     ∧ error_message d' = Some "Failed to connect to machine"
     ∧ calls w' = calls w ++ [EnsureConnection])
  ∧ (∀ res,
       ensure_connection (t_machine env) = Returned true →
       deliver_coffee (t_machine env) (group_number d) (coffee_type d)
         = Returned res →
       success res = false →
       ∃ w' d',
         deliver_coffee_async env id w = (Returned false, w')
         ∧ deliveries (t_db w') !! id = Some d'
         ∧ status d' = "failed"
         ∧ error_message d' = Some (result_message res))
  ∧ (∀ res,
       ensure_connection (t_machine env) = Returned true →
       deliver_coffee (t_machine env) (group_number d) (coffee_type d)
         = Returned res →
       success res = true →
       wait_until_group_is_free (t_machine env) (group_number d) 120
         = Returned false →
       ∃ w' d',
         deliver_coffee_async env id w = (Returned false, w')
         ∧ deliveries (t_db w') !! id = Some d'
         ∧ status d' = "failed"
         ∧ error_message d' = Some "Delivery timeout"
         ∧ WaitUntilGroupIsFree (group_number d) 120 ∈ calls w')
  ∧ (∀ res,
       ensure_connection (t_machine env) = Returned true →
       deliver_coffee (t_machine env) (group_number d) (coffee_type d)
         = Returned res →
       success res = true →
       wait_until_group_is_free (t_machine env) (group_number d) 120
         = Returned true →
       ∃ w' d',
         deliver_coffee_async env id w = (Returned true, w')
         ∧ deliveries (t_db w') !! id = Some d'
         ∧ status d' = "completed"
         ∧ completed_at d' = Some (t_now env)
         ∧ WaitUntilGroupIsFree (group_number d) 120 ∈ calls w')
  ∧ (∀ c res free,
       ensure_connection (t_machine env) = Returned c →
       deliver_coffee (t_machine env) (group_number d) (coffee_type d)
         = Returned res →
       wait_until_group_is_free (t_machine env) (group_number d) 120
         = Returned free →
       ∃ b w' d',
         deliver_coffee_async env id w = (Returned b, w')
         ∧ deliveries (t_db w') !! id = Some d'
         ∧ (b = true ↔ status d' = "completed")).
Proof.
  intros Hrow Hid Hok.
  pose proof (task_disconnected env id w d Hrow Hok) as Hdis.
  pose proof (task_rejected env id w d Hrow Hok) as Hrej.
  pose proof (task_accepted env id w d Hrow Hok) as Hacc.
  split; [|split; [|split; [|split]]].
  - intros Hc. eexists _, _. split; [by apply Hdis|].
    rewrite <- Hid. cbn. split; [apply lookup_insert_eq|done].
  - intros res Hc Hd Hres. eexists _, _. split; [by eapply Hrej|].
    rewrite <- Hid. cbn. split; [apply lookup_insert_eq|done].
  - intros res Hc Hd Hres Hwait. eexists _, _.
    split; [by eapply (Hacc res false)|].
    rewrite <- Hid. cbn. split; [apply lookup_insert_eq|].
    repeat split. set_solver.
  - intros res Hc Hd Hres Hwait. eexists _, _.
    split; [by eapply (Hacc res true)|].
    rewrite <- Hid. cbn. split; [apply lookup_insert_eq|].
    repeat split. set_solver.
  - intros c res free Hc Hd Hwait.
    destruct c; [destruct (success res) eqn:Hres; [destruct free|]|].
    + eexists _, _, _. split; [by eapply (Hacc res true)|].
      rewrite <- Hid. cbn. split; [apply lookup_insert_eq|done].
    + eexists _, _, _. split; [by eapply (Hacc res false)|].
      rewrite <- Hid. cbn. split; [apply lookup_insert_eq|].
      cbn. split; discriminate.
    + eexists _, _, _. split; [by eapply Hrej|].
      rewrite <- Hid. cbn. split; [apply lookup_insert_eq|].
      cbn. split; discriminate.
    + eexists _, _, _. split; [by apply Hdis|].
      rewrite <- Hid. cbn. split; [apply lookup_insert_eq|].
      cbn. split; discriminate.
Qed.

Lemma deliver_coffee_async_outcomes_witness :
  deliver_coffee_async (task_on (machine_showing inactive) 200) 7
    world_with_pending
  = (Returned true,
     {| t_db :=
          {| deliveries :=
               {[ 7 := {| delivery_id := 7; coffee_type := "double_long";
                          group_number := 2; status := "completed";
                          trigger_type := "automatic";
                          started_at := Some 100; completed_at := Some 200;
                          error_message := None |} ]};
             next_id := 8; logs := [] |};
        calls := [EnsureConnection; DeliverCoffee 2 "double_long";
                  WaitUntilGroupIsFree 2 120] |}).
Proof.
  assert (Hok : no_unexpected_fault (task_on (machine_showing inactive) 200))
    by (by repeat split).
  destruct (deliver_coffee_async_outcomes
              (task_on (machine_showing inactive) 200) 7
              world_with_pending pending_delivery eq_refl eq_refl Hok)
    as (_ & _ & _ & Hdone & _).
  destruct (Hdone {| success := true; result_message := "" |}
              eq_refl eq_refl eq_refl eq_refl)
    as (w' & d' & Hrun & _).
  rewrite Hrun. f_equal. vm_compute in Hrun.
  by injection Hrun as <-.
Defined.

(** The [except] block of the task: it returns false whatever happens in
    it, makes no driver call, and either records the failure on the row or
    leaves the repository as it was. *)
Lemma deliver_coffee_except_returns env id e w :
  ∃ w',
    deliver_coffee_except env id e w = (Returned false, w')
    ∧ calls w' = calls w
    ∧ (∀ d, get_fault env GetExcept = None →
            deliveries (t_db w) !! id = Some d →
            save_fault env SaveExcept = None →
            t_db w' = repo_save_delivery (t_db w)
                        (with_error_message (with_status d "failed") e))
    ∧ (get_fault env GetExcept ≠ None
       ∨ deliveries (t_db w) !! id = None
       ∨ save_fault env SaveExcept ≠ None →
       w' = w).
Proof.
  run_task.
  destruct (get_fault env GetExcept) as [e1|] eqn:Hget; cbn.
  { exists w. repeat split; intros; congruence. }
  destruct (deliveries (t_db w) !! id) as [d|] eqn:Hrow; cbn.
  2:{ exists w. repeat split; intros; congruence. }
  destruct (save_fault env SaveExcept) as [e2|] eqn:Hsave; cbn.
  { exists w. repeat split; intros; congruence. }
  eexists. split; [reflexivity|]. repeat split.
  - intros d' _ [= <-] _. done.
  - intros [H | [H | H]]; done.
Qed.

(** C7.  [deliver_coffee_async] never raises: every run returns a boolean.
    When the [try] block raises [e], the task returns false; the failure is
    then recorded on the delivery's row - status failed, error_message the
    description of [e] - when the row can be read and saved again, and when
    that recording itself fails the second failure is swallowed, the
    repository is left as the [try] block left it and the task still
    returns false. *)
Theorem deliver_coffee_async_never_raises env id w :
  ∃ b w',
    deliver_coffee_async env id w = (Returned b, w')
    ∧ (∀ e w1,
         deliver_coffee_try env id w = (Raised e, w1) →
         b = false
         ∧ calls w' = calls w1
         ∧ (∀ d, get_fault env GetExcept = None →
                 deliveries (t_db w1) !! id = Some d →
                 delivery_id d = id →
                 save_fault env SaveExcept = None →
                 ∃ d', deliveries (t_db w') !! id = Some d'
                       ∧ d' = with_error_message (with_status d "failed") e
                       ∧ status d' = "failed"
                       ∧ error_message d' = Some e)
         ∧ (get_fault env GetExcept ≠ None
            ∨ deliveries (t_db w1) !! id = None
            ∨ save_fault env SaveExcept ≠ None →
            w' = w1)).
Proof.
  unfold deliver_coffee_async, try_except.
  destruct (deliver_coffee_try env id w) as [[b|e] w1] eqn:Htry.
  - exists b, w1. split; [done|]. intros e w2 [=].
  - destruct (deliver_coffee_except_returns env id e w1)
      as (w' & Hrun & Hcalls & Hrec & Hswallow).
    exists false, w'. split; [done|].
    intros e' w2 [= <- <-]. repeat split; try done.
    intros d Hget Hrow Hid Hsave. eexists. split; [|done].
    rewrite (Hrec d Hget Hrow Hsave). cbn. rewrite <- Hid.
    apply lookup_insert_eq.
Qed.

Lemma deliver_coffee_async_never_raises_witness :
  ∃ b w',
    deliver_coffee_async (task_on machine_wait_raises 200) 7 world_with_pending
      = (Returned b, w')
    ∧ b = false
    ∧ deliveries (t_db w') !! 7 =
        Some {| delivery_id := 7; coffee_type := "double_long";
                group_number := 2; status := "failed";
                trigger_type := "automatic";
                started_at := Some 100; completed_at := None;
                error_message := Some "Modbus read failed" |}.
Proof.
  destruct (deliver_coffee_async_never_raises
              (task_on machine_wait_raises 200) 7 world_with_pending)
    as (b & w' & Hrun & Hfault).
  exists b, w'. split; [exact Hrun|].
  destruct (Hfault "Modbus read failed"
              {| t_db := repo_save_delivery (t_db world_with_pending)
                           (with_status pending_delivery "in_progress");
                 calls := [EnsureConnection; DeliverCoffee 2 "double_long";
                           WaitUntilGroupIsFree 2 120] |} eq_refl)
    as (Hb & _ & Hrec & _).
  split; [exact Hb|].
  destruct (Hrec (with_status pending_delivery "in_progress")
              eq_refl eq_refl eq_refl eq_refl)
    as (d' & Hrow & -> & _).
  exact Hrow.
Defined.

(** ** Repository write failures *)

(** C5, as the specification states it, fails in the cycle and in the
    task: a failing write of a started delivery does not make the cycle
    raise, and a failing save does not make the task raise. *)
Lemma write_failures_do_not_propagate :
  ¬ (∀ env g s ct e f,
       connected env → enumerated env g → fetches env g s →
       detect_button_press (self f) g s = Some ct →
       write_failure env g = Some e →
       ∃ f', monitor_single_cycle env f = (Raised e, f'))
  ∧ ¬ (∀ env id w d e,
         deliveries (t_db w) !! id = Some d →
         get_fault env GetTry = None →
         get_coffee_machine_fault env = None →
         ensure_connection (t_machine env) = Returned false →
         save_fault env SaveDisconnected = Some e →
         ∃ w', deliver_coffee_async env id w = (Raised e, w')).
Proof.
  split.
  - intros H.
    destruct (H (cycle_with_failing_write 40) 1 pressed_single_short
                "single_short" "database is locked" new_frame)
      as (f' & Hrun); try reflexivity.
    { exists (Some 3). split; [reflexivity|]. by vm_compute. }
    vm_compute in Hrun. discriminate Hrun.
  - intros H.
    destruct (H (task_with_failing_save 40) 7 world_with_pending
                pending_delivery "database is locked")
      as (w' & Hrun); try reflexivity.
    vm_compute in Hrun. discriminate Hrun.
Qed.

(** A failing save of the [try] block raises out of the block; what the
    block saved before stays saved, so the row is as it was read or is
    'in_progress'. *)
Lemma failing_save_raises env id w d e :
  deliveries (t_db w) !! id = Some d → delivery_id d = id →
  get_fault env GetTry = None → get_coffee_machine_fault env = None →
  failing_save env d = Some e →
  ∃ w1 d1,
    deliver_coffee_try env id w = (Raised e, w1)
    ∧ deliveries (t_db w1) !! id = Some d1
    ∧ (d1 = d ∨ d1 = with_status d "in_progress").
Proof.
  intros Hrow Hid Hg Hm Hf. unfold failing_save in Hf. cbn zeta in Hf.
  unfold deliver_coffee_try, objects_get, save, machine_call,
    bind, call, get_state, modify, guard_fault, ret, raise.
  rewrite Hg. cbn. rewrite Hrow, Hm. cbn.
  destruct (ensure_connection (t_machine env)) as [[]|e0]; [| |done]; cbn.
  - destruct (deliver_coffee (t_machine env) (group_number d) (coffee_type d))
      as [res|e0]; [|done]; cbn.
    destruct (success res); cbn.
    + destruct (save_fault env SaveInProgress) as [e1|]; cbn.
      * injection Hf as ->. eexists _, d. split; [reflexivity|]. by split; [|left].
      * destruct (wait_until_group_is_free (t_machine env) (group_number d) 120)
          as [free|e0]; [|done]; cbn.
        eexists _, (with_status d "in_progress").
        destruct free; cbn; rewrite Hf; cbn;
          (split; [reflexivity|]);
          (split; [rewrite <- Hid; apply lookup_insert_eq | by right]).
    + rewrite Hf. cbn. eexists _, d. split; [reflexivity|]. by split; [|left].
  - rewrite Hf. cbn. eexists _, d. split; [reflexivity|]. by split; [|left].
Qed.

(** C5, amended.  A repository write that fails while the cycle records a
    start or a completion for an enumerated group does not leave the cycle:
    it is caught in that group's iteration and reported as one error
    activity for the group, carrying the failure's description; the cycle
    returns with status active and the group's previous snapshot is not
    replaced.  In the task, a [delivery.save()] of the [try] block that
    fails - the save of the connection failure, of 'in_progress' or the
    last save - raises out of the block and is caught: the task returns
    false and makes no further driver call.  The [except] block then reads
    the row again and stores it with status failed and the failure's
    description as error_message; when that read or save fails as well,
    the failure is swallowed and the row stays as it was read or
    'in_progress'. *)
Theorem write_failure_is_contained env g s e f :
  connected env → enumerated env g → fetches env g s →
  write_failure env g = Some e →
  (not_active_before g f ∧ is_delivery_active s = true)
  ∨ (is_Some (view g f).2 ∧ is_delivery_active s = false) →
  (∃ r f',
     monitor_single_cycle env f = (Returned r, f')
     ∧ r_status r = "active"
     ∧ reported g (Returned r) = Some [error g e]
     ∧ (view g f').1 = (view g f).1)
  ∧ (∀ tenv id w d e',
       deliveries (t_db w) !! id = Some d → delivery_id d = id →
       get_fault tenv GetTry = None → get_coffee_machine_fault tenv = None →
       failing_save tenv d = Some e' →
       ∃ w1 w',
         deliver_coffee_try tenv id w = (Raised e', w1)
         ∧ deliver_coffee_async tenv id w = (Returned false, w')
         ∧ calls w' = calls w1
         ∧ (get_fault tenv GetExcept = None →
            save_fault tenv SaveExcept = None →
            deliveries (t_db w') !! id =
              Some (with_error_message (with_status d "failed") e'))
         ∧ (get_fault tenv GetExcept ≠ None
            ∨ save_fault tenv SaveExcept ≠ None →
            w' = w1
            ∧ ∃ d1, deliveries (t_db w') !! id = Some d1
                    ∧ (d1 = d ∨ d1 = with_status d "in_progress"))).
Proof.
  intros Hc He Hs Hw Hedge. split.
  - destruct (cycle_isolates env g f Hc He)
      as (r & f' & f1 & f2 & Hrun & Hst & Hv1 & Ha1 & _ & Hg & Hv2 & Hr & _).
    exists r, f'. split; [done|]. split; [done|].
    assert (Hf2 : activities f2 = activities f1 ++ [error g e]
                  ∧ (view g f2).1 = (view g f1).1).
    { destruct Hedge as [[Hprev Hact] | [[d Htr] Hact]].
      - destruct (active_has_coffee_type s Hact) as [ct Hct].
        assert (Hdet : detect_button_press (self f1) g s = Some ct).
        { rewrite detect_button_press_edge; [done| |done].
          unfold not_active_before in Hprev. rewrite <- Hv1 in Hprev.
          exact Hprev. }
        destruct (group_start_write_fails env g s ct e f1 Hs Hdet Hw)
          as (f2' & Hg' & Hself & Ha).
        rewrite Hg in Hg'. injection Hg' as <-.
        split; [done|]. unfold view. by rewrite Hself.
      - rewrite <- Hv1 in Htr.
        destruct (group_complete_write_fails env g s d e f1 Hs Hact Htr Hw)
          as (f2' & Hg' & Hprev & _ & Ha).
        rewrite Hg in Hg'. injection Hg' as <-.
        split; [done|]. unfold view. cbn. by rewrite Hprev. }
    destruct Hf2 as [Ha Hv]. split.
    + rewrite Hr, Ha. by rewrite activities_of_snoc.
    + by rewrite Hv2, Hv, Hv1.
  - intros tenv id w d e' Hrow Hid Hget Hm Hsave.
    destruct (failing_save_raises tenv id w d e' Hrow Hid Hget Hm Hsave)
      as (w1 & d1 & Htry & Hrow1 & Hd1).
    destruct (deliver_coffee_except_returns tenv id e' w1)
      as (w' & Hrun & Hcalls & Hrec & Hswallow).
    exists w1, w'. split; [done|]. split.
    { unfold deliver_coffee_async, try_except. by rewrite Htry. }
    split; [done|]. split.
    + intros Hget2 Hsave2. rewrite (Hrec d1 Hget2 Hrow1 Hsave2). cbn.
      assert (Hid1 : delivery_id d1 = id) by (by destruct Hd1 as [-> | ->]).
      rewrite <- Hid1 at 1. rewrite lookup_insert_eq.
      by destruct Hd1 as [-> | ->].
    + intros Hfail.
      assert (Hsame : w' = w1).
      { apply Hswallow. destruct Hfail as [? | ?]; [by left | by right; right]. }
      split; [done|]. exists d1. by rewrite Hsame.
Qed.

Lemma write_failure_is_contained_witness :
  (∃ r f',
     monitor_single_cycle (cycle_with_failing_write 40) new_frame
       = (Returned r, f')
     ∧ r_status r = "active"
     ∧ reported 1 (Returned r) = Some [error 1 "database is locked"]
     ∧ (view 1 f').1 = (view 1 new_frame).1)
  ∧ ∃ w',
      deliver_coffee_async (task_with_failing_last_save 40) 7
        world_with_pending = (Returned false, w')
      ∧ calls w' = [EnsureConnection; DeliverCoffee 2 "double_long";
                    WaitUntilGroupIsFree 2 120]
      ∧ deliveries (t_db w') !! 7 =
          Some (with_error_message (with_status pending_delivery "failed")
                  "database is locked").
Proof.
  assert (He : enumerated (cycle_with_failing_write 40) 1).
  { exists (Some 3). split; [reflexivity|]. by vm_compute. }
  destruct (write_failure_is_contained (cycle_with_failing_write 40) 1
              pressed_single_short "database is locked" new_frame
              eq_refl He eq_refl eq_refl (or_introl (conj I eq_refl)))
    as [Hcycle Htask].
  split; [exact Hcycle|].
  destruct (Htask (task_with_failing_last_save 40) 7 world_with_pending
              pending_delivery "database is locked"
              eq_refl eq_refl eq_refl eq_refl eq_refl)
    as (w1 & w' & Htry & Hrun & Hcalls & Hrec & _).
  exists w'. split; [exact Hrun|]. split; [|exact (Hrec eq_refl eq_refl)].
  rewrite Hcalls. vm_compute in Htry. by injection Htry as <-.
Defined.

(** The task of [task_with_failing_save] in full: the save of the
    connection failure raises, the [except] block records the failure
    instead, and the task returns false. *)
Example failing_save_task :
  ∃ w',
    deliver_coffee_async (task_with_failing_save 40) 7 world_with_pending
      = (Returned false, w')
    ∧ deliveries (t_db w') !! 7 =
        Some (with_error_message (with_status pending_delivery "failed")
                "database is locked").
Proof. eexists. split; by vm_compute. Qed.

(** ** monitor_button_presses *)

Lemma cycle_status env f r f' :
  monitor_single_cycle env f = (Returned r, f') →
  r_status r = "disconnected" ∨ r_status r = "active".
Proof.
  unfold monitor_single_cycle, bind at 1, call at 1.
  destruct (ensure_connection (machine env)) as [[]|e]; cbn [negb].
  - unfold bind at 1, modify at 1. unfold bind at 1, call at 1.
    destruct (get_number_of_groups (machine env)) as [n|e]; [|discriminate].
    unfold bind at 1.
    destruct (for_each_returns env (range 1 (Z.min (or_3 n + 1) 5))
                {| self := self f; db := db f; activities := [] |})
      as [f1 ->].
    cbn. intros [= <- <-]. by right.
  - intros [= <- <-]. by left.
  - discriminate.
Qed.

(** C10.  When the cache holds no 'button_monitoring_enabled' entry, the
    lookup yields its default, true: [monitor_button_presses] does not
    return the disabled status but runs a monitoring cycle on the
    singleton monitor, returns that cycle's result and notes the time of
    the check in the cache. *)
Theorem monitoring_enabled_by_default env p :
  cache p !! "button_monitoring_enabled" = None →
  truthy (cache_get (cache p) "button_monitoring_enabled" (CacheBool true))
    = true
  ∧ (∀ r f',
       monitor_available env p →
       monitor_single_cycle (cycle_env env)
         {| self := monitor_in_use p; db := p_db p; activities := [] |}
         = (Returned r, f') →
       monitor_button_presses env p = (Returned r, after_check env p f'))
  ∧ (∀ r p',
       monitor_button_presses env p = (Returned r, p') →
       r_status r ≠ "disabled").
Proof.
  intros Hflag.
  assert (Hget : truthy (cache_get (cache p) "button_monitoring_enabled"
                           (CacheBool true)) = true).
  { unfold cache_get. by rewrite Hflag. }
  split; [done|]. split.
  - intros r f' Havail Hcycle.
    unfold monitor_button_presses, try_except, monitor_button_presses_try.
    unfold bind at 1, get_state at 1. rewrite Hget. cbn [negb].
    unfold bind at 1, get_button_monitor, bind at 1, get_state at 1.
    unfold monitor_in_use in Hcycle.
    destruct (_monitor_instance p) as [m|] eqn:Hm.
    + unfold ret at 1. unfold bind at 1, on_monitor. rewrite Hcycle.
      unfold bind, modify, ret. cbn. done.
    + destruct Havail as [[m Hsome] | Hbuild]; [congruence|].
      rewrite Hbuild. cbn. unfold on_monitor, bind. cbn.
      unfold new_monitor in Hcycle. rewrite Hcycle. done.
  - intros r p'.
    unfold monitor_button_presses, try_except.
    destruct (monitor_button_presses_try env p) as [[r0|e] p0] eqn:Htry.
    + intros [= <- <-]. revert Htry. unfold monitor_button_presses_try.
      unfold bind at 1, get_state at 1. rewrite Hget. cbn [negb].
      unfold bind at 1.
      destruct (get_button_monitor env p) as [[m|e] p1]; [|discriminate].
      unfold bind at 1, on_monitor.
      destruct (monitor_single_cycle (cycle_env env)
                  {| self := m; db := p_db p1; activities := [] |})
        as [[r1|e] f1] eqn:Hcycle; [|discriminate].
      unfold bind, modify, ret. intros [= <- _].
      destruct (cycle_status _ _ _ _ Hcycle) as [-> | ->]; discriminate.
    + unfold bind, guard_fault.
      destruct (task_log_fault env); cbn; [discriminate|].
      intros [= <- _]. discriminate.
Qed.

Lemma monitoring_enabled_by_default_witness :
  (monitor_button_presses
     (task_cycle (cycle_showing pressed_single_short 50)) new_process).1
  = Returned {| r_status := "active"; r_message := None;
                r_timestamp := Some 50;
                r_activities := Some [delivery_started 1 "single_short" 1];
                r_active_deliveries := Some 1%nat |}.
Proof.
  destruct (monitoring_enabled_by_default
              (task_cycle (cycle_showing pressed_single_short 50))
              new_process eq_refl)
    as (_ & Hrun & _).
  rewrite (Hrun _
             (monitor_single_cycle (cycle_showing pressed_single_short 50)
                new_frame).2
             (or_intror eq_refl) eq_refl).
  reflexivity.
Defined.

(** For contrast: with the flag stored as false the task returns the
    disabled status and changes nothing. *)
Lemma monitoring_disabled_is_a_noop env p t :
  cache p !! "button_monitoring_enabled" = Some (CacheBool false, t) →
  monitor_button_presses env p = (Returned disabled_result, p).
Proof.
  intros Hflag.
  unfold monitor_button_presses, try_except, monitor_button_presses_try.
  unfold bind, get_state, cache_get. by rewrite Hflag.
Qed.

(** ** Tracked deliveries and previous snapshots stay in step *)

Lemma new_monitor_consistent : tracking_consistent new_monitor.
Proof.
  intros k. unfold new_monitor. cbn. rewrite !lookup_empty. split.
  - intros [? ?]. discriminate.
  - intros (? & ? & _). discriminate.
Qed.

Ltac consistent_at k k' HI :=
  intros k'; specialize (HI k'); cbn;
  destruct (decide (k' = k)) as [->|?];
  [ rewrite ?lookup_insert_eq, ?lookup_delete_eq
  | rewrite ?lookup_insert_ne, ?lookup_delete_ne, ?lookup_insert_ne by done ].

Lemma monitor_group_consistent env g f f' :
  tracking_consistent (self f) →
  monitor_group env g f = (Returned tt, f') →
  tracking_consistent (self f').
Proof.
  intros HI. run_comp.
  destruct (get_group_selection (machine env) g) as [[s|]|e];
    [|by intros [= <-]..].
  destruct (detect_button_press (self f) g s) as [ct|] eqn:Hdet.
  - assert (Hact : is_delivery_active s = true).
    { destruct (is_delivery_active s) eqn:E; [done|].
      by rewrite detect_button_press_inactive in Hdet. }
    destruct (delivery_write_fault env g); [by intros [= <-]|].
    destruct (log_write_fault env g); [by intros [= <-]|].
    cbn. rewrite lookup_insert_eq, Hact. cbn. intros [= <-].
    consistent_at (group_key g) k HI; [|done].
    split; [intros _; by exists s | by eexists].
  - destruct (active_deliveries (self f) !! group_key g) as [d|] eqn:Htr.
    + destruct (is_delivery_active s) eqn:Hact; cbn.
      * intros [= <-]. consistent_at (group_key g) k HI; [|done].
        rewrite Htr. split; [intros _; by exists s | by eexists].
      * destruct (delivery_write_fault env g);
          [|destruct (log_write_fault env g)]; cbn; intros [= <-].
        -- consistent_at (group_key g) k HI; [|done].
           rewrite Htr in HI. split; [intros _; by apply HI | by eexists].
        -- consistent_at (group_key g) k HI; [|done].
           rewrite Htr in HI. split; [intros _; by apply HI | by eexists].
        -- consistent_at (group_key g) k HI; [|done].
           split; [intros [? ?]; discriminate|].
           intros (p & [= <-] & Hp). congruence.
    + assert (Hact : is_delivery_active s = false).
      { destruct (is_delivery_active s) eqn:E; [|done].
        rewrite detect_button_press_edge in Hdet; [|..|done].
        - destruct (active_has_coffee_type s E). congruence.
        - destruct (previous_states (self f) !! group_key g) as [p|] eqn:Hp;
            [|done].
          destruct (is_delivery_active p) eqn:Ep; [|done].
          destruct (proj2 (HI (group_key g))) as [d Hd]; [by exists p|].
          congruence. }
      cbn. intros [= <-]. consistent_at (group_key g) k HI; [|done].
      rewrite Htr. split; [intros [? ?]; discriminate|].
      intros (p & [= <-] & Hp). congruence.
Qed.

Lemma for_each_consistent env l : ∀ f f',
  tracking_consistent (self f) →
  for_each l (monitor_group env) f = (Returned tt, f') →
  tracking_consistent (self f').
Proof.
  induction l as [|g l IH]; intros f f' HI; cbn.
  - by intros [= <-].
  - unfold bind. destruct (monitor_group_returns env g f) as [f1 Hg].
    rewrite Hg. apply IH. by eapply monitor_group_consistent.
Qed.

Lemma cycle_consistent env f :
  tracking_consistent (self f) →
  tracking_consistent (self (monitor_single_cycle env f).2).
Proof.
  intros HI. unfold monitor_single_cycle, bind at 1, call at 1.
  destruct (ensure_connection (machine env)) as [[]|e]; cbn [negb]; [|done..].
  unfold bind at 1, modify at 1. unfold bind at 1, call at 1.
  destruct (get_number_of_groups (machine env)) as [n|e]; [|done].
  unfold bind at 1.
  destruct (for_each_returns env (range 1 (Z.min (or_3 n + 1) 5))
              {| self := self f; db := db f; activities := [] |})
    as [f1 Hf1].
  rewrite Hf1. cbn. eapply for_each_consistent; [|exact Hf1]. exact HI.
Qed.

Lemma run_cycles_consistent envs : ∀ f,
  tracking_consistent (self f) →
  tracking_consistent (self (run_cycles envs f).2).
Proof.
  induction envs as [|env envs IH]; intros f HI; cbn; [done|].
  pose proof (cycle_consistent env f HI) as HI1.
  destruct (monitor_single_cycle env f) as [r f1].
  specialize (IH f1 HI1). by destruct (run_cycles envs f1).
Qed.

(** Cycles alone, whatever the environments do, never bring a new monitor
    to hold an active previous snapshot for a group without tracking a
    delivery for it. *)
Lemma untracked_press_not_reached envs db0 g p :
  view g (run_cycles envs
            {| self := new_monitor; db := db0; activities := [] |}).2
    = (Some p, None) →
  is_delivery_active p = false.
Proof.
  intros Hv.
  pose proof (run_cycles_consistent envs
                {| self := new_monitor; db := db0; activities := [] |}
                new_monitor_consistent (group_key g)) as HI.
  unfold view in Hv. injection Hv as Hp Htr.
  destruct (is_delivery_active p) eqn:E; [|done].
  destruct (proj2 HI) as [d Hd]; [by exists p|]. congruence.
Qed.

(** ** The enable flag after the stop and start services *)

(** Once the stop service has run, the scheduled task returns the disabled
    status and changes nothing, until the start service runs again. *)
Lemma stopped_service_disables_monitoring fault env p :
  let p1 := (stop_button_monitoring_service fault p).2 in
  monitor_button_presses env p1 = (Returned disabled_result, p1)
  ∧ truthy (cache_get (cache (start_button_monitoring_service fault p1).2)
              "button_monitoring_enabled" (CacheBool true)) = true.
Proof.
  cbn zeta. split.
  - eapply monitoring_disabled_is_a_noop with (t := None).
    unfold stop_button_monitoring_service, set_monitoring_enabled,
      try_except, bind, modify, guard_fault, ret, raise, cache_set.
    destruct fault; cbn; apply lookup_insert_eq.
  - unfold start_button_monitoring_service, set_monitoring_enabled,
      try_except, bind, modify, guard_fault, ret, raise, cache_set, cache_get.
    destruct fault; cbn; by rewrite lookup_insert_eq.
Qed.

(** ** Further properties of the monitoring cycle *)

(** The four ways a cycle can go. *)
Lemma cycle_cases env f :
  let f0 := {| self := self f; db := db f; activities := [] |} in
  (∃ e, ensure_connection (machine env) = Raised e
        ∧ monitor_single_cycle env f = (Raised e, f))
  ∨ (ensure_connection (machine env) = Returned false
     ∧ ∃ r, monitor_single_cycle env f = (Returned r, f)
            ∧ r_status r = "disconnected" ∧ r_activities r = Some [])
  ∨ (ensure_connection (machine env) = Returned true
     ∧ ∃ e, get_number_of_groups (machine env) = Raised e
            ∧ monitor_single_cycle env f = (Raised e, f0))
  ∨ (ensure_connection (machine env) = Returned true
     ∧ ∃ n f1 r,
         get_number_of_groups (machine env) = Returned n
         ∧ for_each (range 1 (Z.min (or_3 n + 1) 5)) (monitor_group env) f0
             = (Returned tt, f1)
         ∧ monitor_single_cycle env f = (Returned r, f1)
         ∧ r_status r = "active"
         ∧ r_timestamp r = Some (now env)
         ∧ r_activities r = Some (activities f1)
         ∧ r_active_deliveries r = Some (size (active_deliveries (self f1)))).
Proof.
  cbn zeta. destruct (monitor_single_cycle env f) as [o f'] eqn:Hrun.
  revert Hrun. unfold monitor_single_cycle, bind at 1, call at 1.
  destruct (ensure_connection (machine env)) as [[]|e1]; cbn [negb].
  - unfold bind at 1, modify at 1. unfold bind at 1, call at 1.
    destruct (get_number_of_groups (machine env)) as [n|e2].
    + unfold bind at 1.
      destruct (for_each_returns env (range 1 (Z.min (or_3 n + 1) 5))
                  {| self := self f; db := db f; activities := [] |})
        as [f1 Hf1].
      rewrite Hf1. cbn. intros [= <- <-]. right; right; right.
      split; [done|]. by eexists n, f1, _.
    + intros [= <- <-]. right; right; left. split; [done|]. by exists e2.
  - intros [= <- <-]. right; left. split; [done|]. by eexists.
  - intros [= <- <-]. left. by exists e1.
Qed.

(** X1.  Whatever group count the machine reports, a cycle reports
    activities for groups 1 to 4 only, and for no group above the count it
    used (the reported one, or 3 when that is 0 or None); what the monitor
    holds for any other group number is not touched. *)
Theorem activities_stay_within_four_groups env f :
  Forall (λ a, 1 ≤ activity_group a ≤ 4
               ∧ ∀ n, get_number_of_groups (machine env) = Returned n →
                      activity_group a ≤ or_3 n)
    (all_activities (monitor_single_cycle env f).1)
  ∧ ∀ g, ¬ (1 ≤ g ≤ 4) →
         view g (monitor_single_cycle env f).2 = view g f.
Proof.
  destruct (cycle_cases env f)
    as [(e & _ & ->) | [(_ & r & -> & _ & Hr) | [(_ & e & _ & ->)
        | (_ & n & f1 & r & Hn & Hf1 & -> & _ & _ & Hr & _)]]]; cbn.
  - by split; [constructor|].
  - rewrite Hr. by split; [constructor|].
  - by split; [constructor|].
  - rewrite Hr. cbn.
    set (l := range 1 (Z.min (or_3 n + 1) 5)) in *. split.
    + apply Forall_forall. intros a Ha.
      destruct (decide (activity_group a ∈ l)) as [Hin | Hout].
      * apply elem_of_seqZ in Hin. split; [lia|].
        intros n' Hn'. rewrite Hn in Hn'. injection Hn' as <-. lia.
      * destruct (for_each_preserves env _ l Hout _ _ _ Hf1)
          as (_ & Hacts & _).
        assert (Hmem : a ∈ activities_of (activity_group a) (activities f1)).
        { unfold activities_of. by apply list_elem_of_filter. }
        rewrite Hacts in Hmem. by apply elem_of_nil in Hmem.
    + intros g Hg.
      assert (Hout : g ∉ l).
      { intros Hin. apply elem_of_seqZ in Hin. lia. }
      by destruct (for_each_preserves env g l Hout _ _ _ Hf1) as (-> & _).
Qed.

Lemma cycle_raises_before_loop_frame env f e :
  (monitor_single_cycle env f).1 = Raised e →
  self (monitor_single_cycle env f).2 = self f
  ∧ db (monitor_single_cycle env f).2 = db f.
Proof.
  destruct (cycle_cases env f)
    as [(e1 & _ & ->) | [(_ & r & -> & _) | [(_ & e2 & _ & ->)
        | (_ & n & f1 & r & _ & _ & -> & _)]]]; cbn; by try discriminate.
Qed.

(** X2.  A cycle raises only before its loop: exactly when
    [ensure_connection] raises, or the machine is reachable and
    [get_number_of_groups] raises; nothing that happens inside a group's
    iteration makes it raise.  A cycle that raises has changed neither the
    monitor nor the repository. *)
Theorem cycle_raises_only_before_the_loop env f e :
  ((monitor_single_cycle env f).1 = Raised e
   ↔ ensure_connection (machine env) = Raised e
     ∨ (ensure_connection (machine env) = Returned true
        ∧ get_number_of_groups (machine env) = Raised e))
  ∧ ((monitor_single_cycle env f).1 = Raised e →
     self (monitor_single_cycle env f).2 = self f
     ∧ db (monitor_single_cycle env f).2 = db f).
Proof.
  destruct (cycle_cases env f)
    as [(e1 & Hc & ->) | [(Hc & r & -> & _) | [(Hc & e2 & Hn & ->)
        | (Hc & n & f1 & r & Hn & _ & -> & _)]]]; cbn; rewrite Hc.
  - split; [|done]. split.
    + intros [= ->]. by left.
    + intros [[= ->] | [? _]]; [done|discriminate].
  - split; [|discriminate]. split; [discriminate|].
    intros [? | [? _]]; discriminate.
  - rewrite Hn. split; [|done]. split.
    + intros [= ->]. by right.
    + intros [? | [_ [= ->]]]; [discriminate|done].
  - rewrite Hn. split; [|discriminate]. split; [discriminate|].
    intros [? | [_ ?]]; discriminate.
Qed.

(** X3.  In a cycle that polls snapshot [s] for a group without a fault,
    the snapshot becomes the group's previous snapshot, and exactly one of
    three things happens for the group: a start is reported and a new
    delivery tracked (the previous snapshot was absent or inactive and [s]
    is active); a completion of the tracked delivery is reported and the
    group is no longer tracked ([s] is inactive and a delivery is
    tracked); or nothing is reported and the tracked delivery, if any,
    stays as it is.  A cycle never reports both edges for one group. *)
Theorem poll_reports_one_edge env g s f :
  polls env g s →
  ∃ r f',
    monitor_single_cycle env f = (Returned r, f')
    ∧ (view g f').1 = Some s
    ∧ ((not_active_before g f ∧ is_delivery_active s = true
        ∧ ∃ ct id,
            get_coffee_type_from_status s = Some ct
            ∧ reported g (Returned r) = Some [delivery_started g ct id]
            ∧ (view g f').2 = Some (manual_delivery id ct g (now env)))
       ∨ (is_delivery_active s = false
          ∧ ∃ d,
              (view g f).2 = Some d
              ∧ reported g (Returned r) =
                  Some [delivery_completed g (coffee_type d) (delivery_id d)]
              ∧ (view g f').2 = None)
       ∨ (¬ (not_active_before g f ∧ is_delivery_active s = true)
          ∧ ¬ (is_delivery_active s = false ∧ is_Some (view g f).2)
          ∧ reported g (Returned r) = Some []
          ∧ (view g f').2 = (view g f).2)).
Proof.
  intros Hpolls.
  destruct (is_delivery_active s) eqn:Hs.
  - destruct ((view g f).1) as [p|] eqn:Hprev;
      [destruct (is_delivery_active p) eqn:Hp|].
    + destruct (cycle_hold env g s f Hpolls p Hprev Hp Hs)
        as (r & f' & Hrun & Hr & Hv).
      exists r, f'. split; [done|]. split; [by rewrite Hv|].
      right; right. repeat split; try done.
      * intros [Hna _]. unfold not_active_before in Hna.
        rewrite Hprev in Hna. congruence.
      * intros [? _]. discriminate.
      * by rewrite Hv.
    + destruct (cycle_start env g s f Hpolls) as (r & f' & ct & id & Hrun & Hct & Hr & Hv);
        [unfold not_active_before; by rewrite Hprev | done |].
      exists r, f'. split; [done|]. split; [by rewrite Hv|].
      left. split; [unfold not_active_before; by rewrite Hprev|].
      split; [done|]. exists ct, id. by rewrite Hv.
    + destruct (cycle_start env g s f Hpolls) as (r & f' & ct & id & Hrun & Hct & Hr & Hv);
        [unfold not_active_before; by rewrite Hprev | done |].
      exists r, f'. split; [done|]. split; [by rewrite Hv|].
      left. split; [unfold not_active_before; by rewrite Hprev|].
      split; [done|]. exists ct, id. by rewrite Hv.
  - destruct ((view g f).2) as [d|] eqn:Htr.
    + destruct (cycle_release env g s f Hpolls d Htr Hs)
        as (r & f' & Hrun & Hr & Hv).
      exists r, f'. split; [done|]. split; [by rewrite Hv|].
      right; left. split; [done|]. exists d. by rewrite Hv.
    + destruct (cycle_idle env g s f Hpolls Htr Hs)
        as (r & f' & Hrun & Hr & _ & Hv).
      exists r, f'. split; [done|]. split; [by rewrite Hv|].
      right; right. repeat split; try done.
      * intros [_ ?]. discriminate.
      * intros [_ [? ?]]. discriminate.
      * by rewrite Hv.
Qed.

Lemma poll_reports_one_edge_witness :
  ∃ r f',
    monitor_single_cycle (cycle_showing inactive 13) frame_with_open_delivery
      = (Returned r, f')
    ∧ reported 1 (Returned r) = Some [delivery_completed 1 "single_short" 1]
    ∧ view 1 f' = (Some inactive, None).
Proof.
  destruct (poll_reports_one_edge (cycle_showing inactive 13) 1 inactive
              frame_with_open_delivery (cycle_showing_polls inactive 13))
    as (r & f' & Hrun & Hprev & Hedge).
  exists r, f'. split; [exact Hrun|].
  destruct Hedge as [(_ & Hs & _) | [(_ & d & Hd & Hr & Htr) | (_ & Hn & _)]].
  - discriminate Hs.
  - injection Hd as <-. split; [exact Hr|].
    destruct (view 1 f') as [p t]. cbn in *. by subst.
  - exfalso. apply Hn. split; [reflexivity|]. by eexists.
Defined.

(** X7.  Starting from a new monitor, after any number of cycles in any
    environments - disconnects, failing fetches and failing writes
    included - a key has a tracked delivery exactly when the previous
    snapshot stored under it is active. *)
Theorem tracked_exactly_when_active envs db0 k :
  let f := (run_cycles envs
              {| self := new_monitor; db := db0; activities := [] |}).2 in
  is_Some (active_deliveries (self f) !! k)
  ↔ ∃ p, previous_states (self f) !! k = Some p
         ∧ is_delivery_active p = true.
Proof.
  cbn zeta.
  apply (run_cycles_consistent envs
           {| self := new_monitor; db := db0; activities := [] |}
           new_monitor_consistent k).
Qed.

(** ** Failed writes are tried again *)

Lemma group_complete_write_fails_view env g s d e f :
  fetches env g s →
  is_delivery_active s = false →
  active_deliveries (self f) !! group_key g = Some d →
  write_failure env g = Some e →
  ∃ f2,
    monitor_group env g f = (Returned tt, f2)
    ∧ view g f2 =
        ((view g f).1,
         Some (with_completed_at (with_status d "completed") (now env)))
    ∧ activities f2 = activities f ++ [error g e].
Proof.
  intros Hs Hact Htr Hw. unfold write_failure in Hw.
  run_comp. rewrite Hs, (detect_button_press_inactive _ _ _ Hact).
  rewrite Htr, Hact. cbn.
  destruct (delivery_write_fault env g) as [e'|]; simplify_eq/=.
  - eexists. split; [reflexivity|]. unfold view. cbn.
    by rewrite lookup_insert_eq.
  - rewrite Hw. eexists. split; [reflexivity|]. unfold view. cbn.
    by rewrite lookup_insert_eq.
Qed.

Lemma cycle_start_write_fails env g s e f :
  connected env → enumerated env g → fetches env g s →
  not_active_before g f → is_delivery_active s = true →
  write_failure env g = Some e →
  ∃ r f',
    monitor_single_cycle env f = (Returned r, f')
    ∧ reported g (Returned r) = Some [error g e]
    ∧ view g f' = view g f.
Proof.
  intros Hc He Hs Hprev Hact Hw.
  destruct (cycle_isolates env g f Hc He)
    as (r & f' & f1 & f2 & Hrun & _ & Hv1 & Ha1 & _ & Hg & Hv2 & Hr & _).
  destruct (active_has_coffee_type s Hact) as [ct Hct].
  assert (Hdet : detect_button_press (self f1) g s = Some ct).
  { rewrite detect_button_press_edge; [done| |done].
    unfold not_active_before in Hprev. rewrite <- Hv1 in Hprev.
    exact Hprev. }
  destruct (group_start_write_fails env g s ct e f1 Hs Hdet Hw)
    as (f2' & Hg' & Hself & Ha).
  rewrite Hg in Hg'. injection Hg' as <-.
  exists r, f'. split; [done|]. split.
  - rewrite Hr, Ha. by rewrite activities_of_snoc.
  - rewrite Hv2, <- Hv1. unfold view. by rewrite Hself.
Qed.

Lemma cycle_complete_write_fails env g s d e f :
  connected env → enumerated env g → fetches env g s →
  (view g f).2 = Some d → is_delivery_active s = false →
  write_failure env g = Some e →
  ∃ r f',
    monitor_single_cycle env f = (Returned r, f')
    ∧ reported g (Returned r) = Some [error g e]
    ∧ view g f' =
        ((view g f).1,
         Some (with_completed_at (with_status d "completed") (now env))).
Proof.
  intros Hc He Hs Htr Hact Hw.
  destruct (cycle_isolates env g f Hc He)
    as (r & f' & f1 & f2 & Hrun & _ & Hv1 & Ha1 & _ & Hg & Hv2 & Hr & _).
  rewrite <- Hv1 in Htr.
  destruct (group_complete_write_fails_view env g s d e f1 Hs Hact Htr Hw)
    as (f2' & Hg' & Hv & Ha).
  rewrite Hg in Hg'. injection Hg' as <-.
  exists r, f'. split; [done|]. split.
  - rewrite Hr, Ha. by rewrite activities_of_snoc.
  - by rewrite Hv2, Hv, Hv1.
Qed.

(** X4.  A press whose start cannot be written is not lost: the cycle
    reports an error for the group and keeps the group's previous snapshot,
    so the next cycle that polls the group still active, with its writes
    succeeding, reports the start - with the coffee type read in that later
    cycle. *)
Theorem failed_start_is_retried env1 env2 g s1 s2 e f :
  not_active_before g f →
  connected env1 → enumerated env1 g → fetches env1 g s1 →
  is_delivery_active s1 = true →
  write_failure env1 g = Some e →
  polls env2 g s2 → is_delivery_active s2 = true →
  ∃ ct id,
    get_coffee_type_from_status s2 = Some ct
    ∧ reported g <$> (run_cycles [env1; env2] f).1 =
        [Some [error g e]; Some [delivery_started g ct id]].
Proof.
  intros Hprev Hc He Hs Hact Hw Hpolls Hact2.
  destruct (cycle_start_write_fails env1 g s1 e f Hc He Hs Hprev Hact Hw)
    as (r1 & f1 & Hrun1 & Hr1 & Hv1).
  destruct (cycle_start env2 g s2 f1 Hpolls)
    as (r2 & f2 & ct & id & Hrun2 & Hct & Hr2 & _); [|done|].
  { unfold not_active_before. by rewrite Hv1. }
  exists ct, id. split; [done|].
  rewrite run_cycles_cons, Hrun1. cbn [fst snd].
  rewrite run_cycles_cons, Hrun2. cbn [fst snd run_cycles].
  by rewrite !fmap_cons, Hr1, Hr2.
Qed.

Lemma failed_start_is_retried_witness :
  ∃ ct id,
    get_coffee_type_from_status pressed_single_short = Some ct
    ∧ reported 1 <$>
        (run_cycles [ failing_cycle_showing pressed_single_short 40;
                      cycle_showing pressed_single_short 41 ] new_frame).1 =
        [ Some [error 1 "database is locked"];
          Some [delivery_started 1 ct id] ].
Proof.
  apply (failed_start_is_retried
           (failing_cycle_showing pressed_single_short 40)
           (cycle_showing pressed_single_short 41)
           1 pressed_single_short pressed_single_short
           "database is locked" new_frame).
  - exact I.
  - reflexivity.
  - exists (Some 3). split; [reflexivity|]. by vm_compute.
  - reflexivity.
  - reflexivity.
  - reflexivity.
  - apply cycle_showing_polls.
  - reflexivity.
Defined.

(** X5.  A completion that cannot be written is not lost either: the
    cycle reports an error for the group, the delivery stays tracked and
    the previous snapshot is kept, so the next cycle that polls the group
    inactive, with its writes succeeding, reports the completion of that
    same delivery. *)
Theorem failed_completion_is_retried env1 env2 g s1 s2 d e f :
  (view g f).2 = Some d →
  connected env1 → enumerated env1 g → fetches env1 g s1 →
  is_delivery_active s1 = false →
  write_failure env1 g = Some e →
  polls env2 g s2 → is_delivery_active s2 = false →
  reported g <$> (run_cycles [env1; env2] f).1 =
    [ Some [error g e];
      Some [delivery_completed g (coffee_type d) (delivery_id d)] ]
  ∧ (view g (run_cycles [env1; env2] f).2).2 = None.
Proof.
  intros Htr Hc He Hs Hact Hw Hpolls Hact2.
  destruct (cycle_complete_write_fails env1 g s1 d e f Hc He Hs Htr Hact Hw)
    as (r1 & f1 & Hrun1 & Hr1 & Hv1).
  destruct (cycle_release env2 g s2 f1 Hpolls
              (with_completed_at (with_status d "completed") (now env1)))
    as (r2 & f2 & Hrun2 & Hr2 & Hv2); [by rewrite Hv1|done|].
  split.
  - rewrite run_cycles_cons, Hrun1. cbn [fst snd].
    rewrite run_cycles_cons, Hrun2. cbn [fst snd run_cycles].
    by rewrite !fmap_cons, Hr1, Hr2.
  - cbn. rewrite Hrun1, Hrun2. cbn. by rewrite Hv2.
Qed.

Lemma failed_completion_is_retried_witness :
  reported 1 <$>
    (run_cycles [ failing_cycle_showing inactive 40;
                  cycle_showing inactive 41 ] frame_with_open_delivery).1 =
    [ Some [error 1 "database is locked"];
      Some [delivery_completed 1 "single_short" 1] ]
  ∧ (view 1 (run_cycles [ failing_cycle_showing inactive 40;
                          cycle_showing inactive 41 ]
               frame_with_open_delivery).2).2 = None.
Proof.
  apply (failed_completion_is_retried
           (failing_cycle_showing inactive 40) (cycle_showing inactive 41)
           1 inactive inactive
           (manual_delivery 1 "single_short" 1 11)
           "database is locked" frame_with_open_delivery).
  - reflexivity.
  - reflexivity.
  - exists (Some 3). split; [reflexivity|]. by vm_compute.
  - reflexivity.
  - reflexivity.
  - reflexivity.
  - apply cycle_showing_polls.
  - reflexivity.
Defined.

(** ** A release whose start was never recorded *)

(** In a frame whose tracked deliveries and previous snapshots are in
    step, a cycle that reads an active snapshot for a group leaves the
    group without a tracked delivery only when the start could not be
    written: the cycle then reported the failure as an error for the group
    and kept what it held for it. *)
Lemma active_poll_untracked env g s f :
  tracking_consistent (self f) →
  connected env → enumerated env g → fetches env g s →
  is_delivery_active s = true →
  (view g (monitor_single_cycle env f).2).2 = None →
  ∃ e, write_failure env g = Some e
       ∧ reported g (monitor_single_cycle env f).1 = Some [error g e]
       ∧ view g (monitor_single_cycle env f).2 = view g f.
Proof.
  intros HI Hc He Hs Hact Hun.
  destruct (active_deliveries (self f) !! group_key g) as [d|] eqn:Htr.
  - exfalso.
    destruct (proj1 (HI (group_key g))) as (p & Hp & Hpa); [by eexists|].
    destruct (cycle_isolates env g f Hc He)
      as (r & f' & f1 & f2 & Hrun & _ & Hv1 & _ & _ & Hg & Hv2 & _).
    unfold view in Hv1. injection Hv1 as Hp1 Htr1.
    assert (Hdet : detect_button_press (self f1) g s = None).
    { apply detect_button_press_held with p; [|done]. by rewrite Hp1. }
    rewrite (group_quiet env g s f1 Hs Hdet) in Hg by by left.
    injection Hg as <-. rewrite Hrun in Hun. cbn [snd] in Hun.
    rewrite Hv2 in Hun. unfold view in Hun. cbn in Hun. congruence.
  - assert (Hprev : not_active_before g f).
    { unfold not_active_before, view. cbn.
      destruct (previous_states (self f) !! group_key g) as [p|] eqn:Hp;
        [|done].
      destruct (is_delivery_active p) eqn:E; [|done].
      destruct (proj2 (HI (group_key g))) as [d Hd]; [by exists p|].
      congruence. }
    destruct (write_failure env g) as [e|] eqn:Hw.
    + destruct (cycle_start_write_fails env g s e f Hc He Hs Hprev Hact Hw)
        as (r & f' & Hrun & Hr & Hv).
      exists e. by rewrite Hrun.
    + exfalso.
      assert (Hws : writes_succeed env g).
      { unfold write_failure in Hw. unfold writes_succeed.
        by destruct (delivery_write_fault env g). }
      destruct (cycle_start env g s f (conj Hc (conj He (conj Hs Hws)))
                  Hprev Hact)
        as (r & f' & ct & id & Hrun & _ & _ & Hv).
      rewrite Hrun in Hun. cbn [snd] in Hun. by rewrite Hv in Hun.
Qed.

(** C4, as the specification states it, fails, in a run from a new
    monitor: group 1 is pressed and the row of the start cannot be written
    (the cycle reports the failed write), so no delivery is tracked; in the
    next cycle the group is inactive, and that cycle returns with no
    activity at all and without writing a log row. *)
Lemma untracked_completion_is_silent :
  ¬ (∀ envs db0 env0 env g s0 s f0 f,
       (run_cycles envs
          {| self := new_monitor; db := db0; activities := [] |}).2 = f0 →
       connected env0 → enumerated env0 g → fetches env0 g s0 →
       is_delivery_active s0 = true →
       (monitor_single_cycle env0 f0).2 = f →
       (view g f).2 = None →
       polls env g s → is_delivery_active s = false →
       ∃ r f',
         monitor_single_cycle env f = (Returned r, f')
         ∧ (r_activities r ≠ Some [] ∨ logs (db f') ≠ logs (db f))).
Proof.
  intros H.
  assert (He0 : enumerated (cycle_with_failing_write 19) 1).
  { exists (Some 3). split; [reflexivity|]. by vm_compute. }
  destruct (H [] empty_repository
              (cycle_with_failing_write 19) (cycle_showing inactive 20)
              1 pressed_single_short inactive new_frame
              (monitor_single_cycle (cycle_with_failing_write 19) new_frame).2
              eq_refl eq_refl He0 eq_refl eq_refl eq_refl eq_refl
              (cycle_showing_polls inactive 20) eq_refl)
    as (r & f' & Hrun & Hrec).
  vm_compute in Hrun. injection Hrun as <- <-.
  destruct Hrec as [Hrec | Hrec]; by apply Hrec.
Qed.

(** C4, amended.  Take any run of cycles from a new monitor, and a group
    whose snapshot was read active in one cycle and is read inactive in
    the next while the group has no tracked open delivery.  The group is
    without a tracked delivery because the start could not be written: the
    first cycle reported that failure as an error activity for the group.
    The second cycle returns normally with status active, reports no
    activity for the group and writes no log row for it: the release is
    passed over, and only the group's previous snapshot is replaced. *)
Theorem untracked_completion_passes_unrecorded
    envs db0 env0 env g s0 s f0 f :
  (run_cycles envs
     {| self := new_monitor; db := db0; activities := [] |}).2 = f0 →
  connected env0 → enumerated env0 g → fetches env0 g s0 →
  is_delivery_active s0 = true →
  (monitor_single_cycle env0 f0).2 = f →
  (view g f).2 = None →
  connected env → enumerated env g → fetches env g s →
  is_delivery_active s = false →
  (∃ e, write_failure env0 g = Some e
        ∧ reported g (monitor_single_cycle env0 f0).1 = Some [error g e])
  ∧ ∃ r f',
      monitor_single_cycle env f = (Returned r, f')
      ∧ r_status r = "active"
      ∧ reported g (Returned r) = Some []
      ∧ logs_of g (db f') = logs_of g (db f)
      ∧ view g f' = (Some s, None).
Proof.
  intros Hf0 Hc0 He0 Hs0 Hact0 Hf Hun Hc He Hs Hact. split.
  - assert (HI : tracking_consistent (self f0)).
    { rewrite <- Hf0. apply run_cycles_consistent, new_monitor_consistent. }
    rewrite <- Hf in Hun.
    destruct (active_poll_untracked env0 g s0 f0 HI Hc0 He0 Hs0 Hact0 Hun)
      as (e & Hw & Hr & _).
    by exists e.
  - by apply cycle_quiet_untracked.
Qed.

Lemma untracked_completion_passes_unrecorded_witness :
  (∃ e, write_failure (cycle_with_failing_write 19) 1 = Some e
        ∧ reported 1 (monitor_single_cycle (cycle_with_failing_write 19)
                        new_frame).1 = Some [error 1 e])
  ∧ ∃ r f',
      monitor_single_cycle (cycle_showing inactive 20)
        (monitor_single_cycle (cycle_with_failing_write 19) new_frame).2
        = (Returned r, f')
      ∧ r_status r = "active"
      ∧ reported 1 (Returned r) = Some []
      ∧ logs_of 1 (db f') =
          logs_of 1 (db (monitor_single_cycle
                           (cycle_with_failing_write 19) new_frame).2)
      ∧ view 1 f' = (Some inactive, None).
Proof.
  assert (He0 : enumerated (cycle_with_failing_write 19) 1).
  { exists (Some 3). split; [reflexivity|]. by vm_compute. }
  assert (He : enumerated (cycle_showing inactive 20) 1).
  { exists (Some 3). split; [reflexivity|]. by vm_compute. }
  exact (untracked_completion_passes_unrecorded
           [] empty_repository
           (cycle_with_failing_write 19) (cycle_showing inactive 20)
           1 pressed_single_short inactive new_frame
           (monitor_single_cycle (cycle_with_failing_write 19) new_frame).2
           eq_refl eq_refl He0 eq_refl eq_refl eq_refl eq_refl
           eq_refl He eq_refl eq_refl).
Defined.

(** ** Delivery ids and rows *)

Lemma empty_repository_rows : rows_under_own_id empty_repository.
Proof. intros i d H. cbn in H. by rewrite lookup_empty in H. Qed.

Lemma new_monitor_ids_well_formed db0 :
  rows_under_own_id db0 →
  ids_well_formed {| self := new_monitor; db := db0; activities := [] |}.
Proof.
  intros Hrows. split; [done|]. split.
  - intros k d H. cbn in H. by rewrite lookup_empty in H.
  - intros k1 k2 d1 d2 H. cbn in H. by rewrite lookup_empty in H.
Qed.

Section Group_rows.

Context (env : CycleEnv) (g : Z) (f : Frame) (Hwf : ids_well_formed f).

Let key := group_key g.
Let nid := next_id (db f).

Lemma tracked_below_next_id k d :
  active_deliveries (self f) !! k = Some d → delivery_id d < nid.
Proof.
  intros Htr. destruct Hwf as (Hrows & Hex & _).
  destruct (Hex k d Htr) as [d' Hd']. by destruct (Hrows _ _ Hd').
Qed.

Lemma existing_row_below_next_id i :
  is_Some (deliveries (db f) !! i) → i < nid.
Proof.
  intros [d Hd]. destruct Hwf as (Hrows & _). by destruct (Hrows _ _ Hd).
Qed.

(** The frame after a start whose two writes succeeded. *)
Lemma started_rows s ct l f' :
  f' = remember key s
         (append_activity (delivery_started g ct nid)
            (track key (manual_delivery nid ct g (now env))
               (set_db (repo_create_log
                          (repo_create_delivery (db f) ct g "in_progress"
                             "manual" (now env)).2 l) f))) →
  ids_well_formed f' ∧ writes_own_rows g f f'.
Proof.
  intros ->. destruct Hwf as (Hrows & Hex & Hinj). split; [split; [|split]|].
  - intros i d. cbn. intros Hd.
    destruct (decide (i = next_id (db f))) as [->|Hne].
    + rewrite lookup_insert_eq in Hd. injection Hd as <-. cbn. lia.
    + rewrite lookup_insert_ne in Hd by done.
      destruct (Hrows _ _ Hd). lia.
  - intros k d. cbn. intros Hd.
    destruct (decide (k = key)) as [->|Hne].
    + rewrite lookup_insert_eq in Hd. injection Hd as <-. cbn.
      rewrite lookup_insert_eq. by eexists.
    + rewrite lookup_insert_ne in Hd by done.
      rewrite lookup_insert_ne; [by eapply Hex|].
      pose proof (tracked_below_next_id k d Hd). unfold nid in *. lia.
  - intros k1 k2 d1 d2. cbn. intros H1 H2 Hid.
    destruct (decide (k1 = key)) as [->|Hne1];
      destruct (decide (k2 = key)) as [->|Hne2]; [done|..].
    + rewrite lookup_insert_eq in H1. injection H1 as <-.
      rewrite lookup_insert_ne in H2 by done.
      pose proof (tracked_below_next_id k2 d2 H2). cbn in Hid.
      unfold nid in *. lia.
    + rewrite lookup_insert_eq in H2. injection H2 as <-.
      rewrite lookup_insert_ne in H1 by done.
      pose proof (tracked_below_next_id k1 d1 H1). cbn in Hid.
      unfold nid in *. lia.
    + rewrite lookup_insert_ne in H1, H2 by done. by eapply Hinj.
  - split; [cbn; lia|]. split; [|split].
    + intros i Hi _. cbn.
      pose proof (existing_row_below_next_id i Hi).
      rewrite lookup_insert_ne; [done|]. unfold nid in *. lia.
    + intros k Hk. cbn. by rewrite lookup_insert_ne.
    + intros d. cbn. rewrite lookup_insert_eq. intros [= <-]. by left.
Qed.

(** The frame after a start whose delivery row was created and whose log
    write failed. *)
Lemma orphaned_rows ct e f' :
  f' = append_activity (error g e)
         (set_db (repo_create_delivery (db f) ct g "in_progress"
                    "manual" (now env)).2 f) →
  ids_well_formed f' ∧ writes_own_rows g f f'.
Proof.
  intros ->. destruct Hwf as (Hrows & Hex & Hinj). split; [split; [|split]|].
  - intros i d. cbn. intros Hd.
    destruct (decide (i = next_id (db f))) as [->|Hne].
    + rewrite lookup_insert_eq in Hd. injection Hd as <-. cbn. lia.
    + rewrite lookup_insert_ne in Hd by done.
      destruct (Hrows _ _ Hd). lia.
  - intros k d. cbn. intros Hd.
    rewrite lookup_insert_ne; [by eapply Hex|].
    pose proof (tracked_below_next_id k d Hd). unfold nid in *. lia.
  - done.
  - split; [cbn; lia|]. split; [|split].
    + intros i Hi _. cbn.
      pose proof (existing_row_below_next_id i Hi).
      rewrite lookup_insert_ne; [done|]. unfold nid in *. lia.
    + done.
    + intros d Hd. right. by exists d.
Qed.

(** The frames of a completion: the tracked delivery [d] is marked
    completed in place ([saved] tells whether its row was written,
    [untracked] whether the completion went through). *)
Lemma completed_rows d (saved untracked : bool) f' :
  active_deliveries (self f) !! key = Some d →
  let d' := with_completed_at (with_status d "completed") (now env) in
  let tracked := track key d' f in
  let written :=
    if saved then set_db (repo_save_delivery (db tracked) d') tracked
    else tracked in
  active_deliveries (self f')
  = active_deliveries
      (self (if untracked then untrack key written else written)) →
  deliveries (db f') = deliveries (db written) →
  next_id (db f') = next_id (db f) →
  ids_well_formed f' ∧ writes_own_rows g f f'.
Proof.
  intros Htr d' tracked written Hself Hrows' Hnext.
  destruct Hwf as (Hrows & Hex & Hinj).
  assert (Hrow : is_Some (deliveries (db f) !! delivery_id d))
    by by eapply Hex.
  assert (Hlook : ∀ i, i ≠ delivery_id d →
            deliveries (db f') !! i = deliveries (db f) !! i).
  { intros i Hi. rewrite Hrows'. unfold written, tracked.
    destruct saved; cbn; [by rewrite lookup_insert_ne|done]. }
  assert (Hsome : ∀ i, is_Some (deliveries (db f) !! i) →
            is_Some (deliveries (db f') !! i)).
  { intros i Hi. rewrite Hrows'. unfold written, tracked.
    destruct saved; cbn; [|done].
    destruct (decide (i = delivery_id d)) as [->|Hne];
      [rewrite lookup_insert_eq; by eexists | by rewrite lookup_insert_ne]. }
  assert (Hact : ∀ k, k ≠ key →
            active_deliveries (self f') !! k
            = active_deliveries (self f) !! k).
  { intros k Hk. rewrite Hself. unfold written, tracked.
    destruct untracked, saved; cbn;
      rewrite ?lookup_delete_ne, ?lookup_insert_ne by done; done. }
  assert (Hown : ∀ d1, active_deliveries (self f') !! key = Some d1 →
            delivery_id d1 = delivery_id d).
  { intros d1. rewrite Hself. unfold written, tracked.
    destruct untracked, saved; cbn;
      rewrite ?lookup_delete_eq, ?lookup_insert_eq; by intros [= <-]. }
  split; [split; [|split]|].
  - intros i d1 Hd1. rewrite Hnext.
    destruct (decide (i = delivery_id d)) as [->|Hne].
    + destruct Hrow as [d0 Hd0]. destruct (Hrows _ _ Hd0) as [_ Hlt].
      split; [|done]. revert Hd1. rewrite Hrows'. unfold written, tracked.
      destruct saved; cbn.
      * rewrite lookup_insert_eq. by intros [= <-].
      * intros Hd1. rewrite Hd0 in Hd1. injection Hd1 as <-.
        by destruct (Hrows _ _ Hd0).
    + rewrite Hlook in Hd1 by done. by apply Hrows.
  - intros k d1 Hd1. destruct (decide (k = key)) as [->|Hne].
    + rewrite (Hown d1 Hd1). by apply Hsome.
    + rewrite Hact in Hd1 by done. apply Hsome. by eapply Hex.
  - intros k1 k2 d1 d2 H1 H2 Hid.
    destruct (decide (k1 = key)) as [->|Hne1];
      destruct (decide (k2 = key)) as [->|Hne2]; [done|..].
    + rewrite Hact in H2 by done. apply Hown in H1.
      symmetry. eapply Hinj; [exact H2 | exact Htr | congruence].
    + rewrite Hact in H1 by done. apply Hown in H2.
      eapply Hinj; [exact H1 | exact Htr | congruence].
    + rewrite Hact in H1, H2 by done. by eapply Hinj.
  - split; [lia|]. split; [|split].
    + intros i Hi Hnot. apply Hlook. intros ->. by apply (Hnot d).
    + exact Hact.
    + intros d1 Hd1. right. exists d. split; [done|]. symmetry. by apply Hown.
Qed.

(** A frame that differs only in previous snapshots and activities. *)
Lemma unchanged_rows f' :
  active_deliveries (self f') = active_deliveries (self f) →
  db f' = db f →
  ids_well_formed f' ∧ writes_own_rows g f f'.
Proof.
  intros Hact Hdb. split.
  - unfold ids_well_formed. by rewrite Hact, Hdb.
  - unfold writes_own_rows. rewrite Hact, Hdb.
    split; [lia|]. split; [done|]. split; [done|].
    intros d Hd. right. by exists d.
Qed.

End Group_rows.

(** One loop iteration keeps the ids well formed and writes only its own
    group's rows. *)
Lemma monitor_group_rows env g f f' :
  ids_well_formed f →
  monitor_group env g f = (Returned tt, f') →
  ids_well_formed f' ∧ writes_own_rows g f f'.
Proof.
  intros Hwf. run_comp.
  destruct (get_group_selection (machine env) g) as [[s|]|e];
    [|intros [= <-]; by apply unchanged_rows..].
  destruct (detect_button_press (self f) g s) as [ct|] eqn:Hdet.
  - assert (Hact : is_delivery_active s = true).
    { destruct (is_delivery_active s) eqn:E; [done|].
      by rewrite detect_button_press_inactive in Hdet. }
    destruct (delivery_write_fault env g);
      [intros [= <-]; by apply unchanged_rows|].
    destruct (log_write_fault env g) as [e|].
    + intros [= <-]. by eapply (orphaned_rows env g f Hwf ct e).
    + cbn. rewrite lookup_insert_eq, Hact. cbn. intros [= <-].
      by eapply (started_rows env g f Hwf s ct).
  - destruct (active_deliveries (self f) !! group_key g) as [d|] eqn:Htr.
    + destruct (is_delivery_active s) eqn:Hact; cbn.
      { intros [= <-]. by apply unchanged_rows. }
      destruct (delivery_write_fault env g);
        [|destruct (log_write_fault env g)]; cbn; intros [= <-].
      * by eapply (completed_rows env g f Hwf d false false).
      * by eapply (completed_rows env g f Hwf d true false).
      * by eapply (completed_rows env g f Hwf d true true).
    + cbn. intros [= <-]. by apply unchanged_rows.
Qed.

Lemma writes_own_rows_keeps_untracked g i f f' :
  ids_well_formed f → ids_well_formed f' → writes_own_rows g f f' →
  untracked_row i f →
  untracked_row i f' ∧ deliveries (db f') !! i = deliveries (db f) !! i.
Proof.
  intros Hwf Hwf' (Hnext & Hrow & Hother & Hown) [Hex Hun].
  assert (Hkept : deliveries (db f') !! i = deliveries (db f) !! i).
  { apply Hrow; [done|]. intros d Hd. by eapply Hun. }
  split; [|done]. split; [by rewrite Hkept|].
  intros k d Hd. destruct (decide (k = group_key g)) as [->|Hne].
  - destruct (Hown d Hd) as [Hnew | (d0 & Hd0 & Hid)].
    + pose proof (existing_row_below_next_id f Hwf i Hex). lia.
    + rewrite <- Hid. by eapply Hun.
  - rewrite Hother in Hd by done. by eapply Hun.
Qed.

Lemma writes_own_rows_keeps_other g g' i f f' :
  g' ≠ g →
  ids_well_formed f → ids_well_formed f' → writes_own_rows g' f f' →
  row_of_group g i f →
  row_of_group g i f' ∧ deliveries (db f') !! i = deliveries (db f) !! i.
Proof.
  intros Hne Hwf Hwf' (Hnext & Hrow & Hother & Hown) [Hex Hun].
  assert (Hkey : group_key g' ≠ group_key g) by by apply group_key_ne.
  assert (Hkept : deliveries (db f') !! i = deliveries (db f) !! i).
  { apply Hrow; [done|]. intros d Hd Hid. by apply Hkey, (Hun _ d). }
  split; [|done]. split; [by rewrite Hkept|].
  intros k d Hd Hid. destruct (decide (k = group_key g')) as [->|Hk].
  - destruct (Hown d Hd) as [Hnew | (d0 & Hd0 & Hid0)].
    + pose proof (existing_row_below_next_id f Hwf i Hex). lia.
    + exfalso. apply Hkey, (Hun _ d0); [done | congruence].
  - rewrite Hother in Hd by done. by eapply Hun.
Qed.

Lemma for_each_rows env l : ∀ f f',
  ids_well_formed f →
  for_each l (monitor_group env) f = (Returned tt, f') →
  ids_well_formed f'
  ∧ next_id (db f) ≤ next_id (db f')
  ∧ (∀ i, untracked_row i f →
          untracked_row i f'
          ∧ deliveries (db f') !! i = deliveries (db f) !! i)
  ∧ (∀ g i, g ∉ l → row_of_group g i f →
            row_of_group g i f'
            ∧ deliveries (db f') !! i = deliveries (db f) !! i).
Proof.
  induction l as [|g' l IH]; intros f f' Hwf; cbn.
  - intros [= <-]. split; [done|]. split; [lia|].
    split; [by intros; split | by intros; split].
  - unfold bind. destruct (monitor_group_returns env g' f) as [f1 Hg].
    rewrite Hg. intros Hrest.
    destruct (monitor_group_rows env g' f f1 Hwf Hg) as [Hwf1 Hown].
    destruct (IH f1 f' Hwf1 Hrest) as (Hwf' & Hnext & Hun & Hrow).
    split; [done|]. split; [destruct Hown; lia|]. split.
    + intros i Hi.
      destruct (writes_own_rows_keeps_untracked g' i f f1 Hwf Hwf1 Hown Hi)
        as [Hi1 Heq1].
      destruct (Hun i Hi1) as [Hi' Heq']. split; [done|]. congruence.
    + intros g i Hg' Hi. apply not_elem_of_cons in Hg' as [Hne Hg'].
      destruct (writes_own_rows_keeps_other g g' i f f1) as [Hi1 Heq1];
        try done.
      destruct (Hrow g i Hg' Hi1) as [Hi' Heq']. split; [done|]. congruence.
Qed.

Lemma cycle_rows env f :
  ids_well_formed f →
  let f' := (monitor_single_cycle env f).2 in
  ids_well_formed f'
  ∧ next_id (db f) ≤ next_id (db f')
  ∧ (∀ i, untracked_row i f →
          untracked_row i f'
          ∧ deliveries (db f') !! i = deliveries (db f) !! i).
Proof.
  intros Hwf. cbn zeta.
  destruct (cycle_cases env f)
    as [(e & _ & ->) | [(_ & r & -> & _) | [(_ & e & _ & ->)
        | (_ & n & f1 & r & _ & Hf1 & -> & _)]]]; cbn.
  - split; [done|]. split; [lia|]. by intros; split.
  - split; [done|]. split; [lia|]. by intros; split.
  - split; [done|]. split; [lia|]. by intros; split.
  - assert (Hwf0 : ids_well_formed
                     {| self := self f; db := db f; activities := [] |})
      by exact Hwf.
    destruct (for_each_rows env _ _ _ Hwf0 Hf1) as (? & ? & ? & _).
    done.
Qed.

Lemma run_cycles_rows envs : ∀ f,
  ids_well_formed f →
  let f' := (run_cycles envs f).2 in
  ids_well_formed f'
  ∧ (∀ i, untracked_row i f →
          untracked_row i f'
          ∧ deliveries (db f') !! i = deliveries (db f) !! i).
Proof.
  induction envs as [|env envs IH]; intros f Hwf; cbn.
  - by split.
  - destruct (cycle_rows env f Hwf) as (Hwf1 & _ & Hun1).
    destruct (monitor_single_cycle env f) as [r f1]. cbn in *.
    destruct (IH f1 Hwf1) as [Hwf' Hun'].
    destruct (run_cycles envs f1) as [rs f2]. cbn in *.
    split; [done|]. intros i Hi.
    destruct (Hun1 i Hi) as [Hi1 Heq1].
    destruct (Hun' i Hi1) as [Hi' Heq']. split; [done|]. congruence.
Qed.

(** X8.  Delivery ids are never reused or shared: starting from a new
    monitor and a repository whose rows are stored under their own ids
    below [next_id], after any number of cycles in any environments the
    rows are still under their own ids below [next_id], every tracked
    delivery has its row, and no two groups track deliveries with the same
    id. *)
Theorem delivery_ids_stay_unique envs db0 :
  rows_under_own_id db0 →
  let f := (run_cycles envs
              {| self := new_monitor; db := db0; activities := [] |}).2 in
  rows_under_own_id (db f)
  ∧ (∀ k d, active_deliveries (self f) !! k = Some d →
            ∃ row, deliveries (db f) !! delivery_id d = Some row)
  ∧ (∀ k1 k2 d1 d2,
       active_deliveries (self f) !! k1 = Some d1 →
       active_deliveries (self f) !! k2 = Some d2 →
       delivery_id d1 = delivery_id d2 → k1 = k2).
Proof.
  intros Hrows. cbn zeta.
  destruct (run_cycles_rows envs _ (new_monitor_ids_well_formed db0 Hrows))
    as [(H1 & H2 & H3) _].
  done.
Qed.

Lemma delivery_ids_stay_unique_witness :
  let f := (run_cycles [ cycle_showing pressed_single_short 11;
                         cycle_on machine_group2_raises 12 ]
              {| self := new_monitor; db := empty_repository;
                 activities := [] |}).2 in
  rows_under_own_id (db f)
  ∧ (∀ k d, active_deliveries (self f) !! k = Some d →
            ∃ row, deliveries (db f) !! delivery_id d = Some row)
  ∧ (∀ k1 k2 d1 d2,
       active_deliveries (self f) !! k1 = Some d1 →
       active_deliveries (self f) !! k2 = Some d2 →
       delivery_id d1 = delivery_id d2 → k1 = k2).
Proof.
  apply (delivery_ids_stay_unique
           [ cycle_showing pressed_single_short 11;
             cycle_on machine_group2_raises 12 ] empty_repository).
  intros i d H. cbn in H. rewrite lookup_empty in H. discriminate H.
Defined.

(** ** What a press leaves in the repository *)

Lemma manual_log_type_purge ct :
  manual_log_type ct
  = if bool_decide (ct = "purge") then "purge" else "manual_delivery".
Proof.
  unfold manual_log_type. destruct (decide (ct = "purge")) as [->|Hne].
  - done.
  - by rewrite bool_decide_true, bool_decide_false.
Qed.

Lemma cycle_split env g f :
  connected env → enumerated env g →
  ∃ l1 l2 f1 f2 f' r,
    (g ∉ l1) ∧ (g ∉ l2)
    ∧ for_each l1 (monitor_group env)
        {| self := self f; db := db f; activities := [] |}
        = (Returned tt, f1)
    ∧ monitor_group env g f1 = (Returned tt, f2)
    ∧ for_each l2 (monitor_group env) f2 = (Returned tt, f')
    ∧ monitor_single_cycle env f = (Returned r, f')
    ∧ r_activities r = Some (activities f').
Proof.
  intros Hc (n & Hn & Hg).
  destruct (cycle_cases env f)
    as [(e & Hc' & _) | [(Hc' & _) | [(_ & e & Hn' & _)
        | (_ & n' & f' & r & Hn' & Hloop & Hrun & _ & _ & Hr & _)]]];
    try (unfold connected in Hc; congruence).
  rewrite Hn in Hn'. injection Hn' as <-.
  destruct (enumerated_split env g n Hn Hg) as (l1 & l2 & Hl & Hg1 & Hg2).
  rewrite Hl, for_each_app in Hloop. unfold bind in Hloop.
  destruct (for_each_returns env l1
              {| self := self f; db := db f; activities := [] |})
    as [f1 Hf1].
  rewrite Hf1 in Hloop. cbn [for_each] in Hloop. unfold bind in Hloop.
  destruct (monitor_group_returns env g f1) as [f2 Hf2].
  rewrite Hf2 in Hloop.
  by exists l1, l2, f1, f2, f', r.
Qed.

Lemma tracked_row_of_group g d f :
  ids_well_formed f →
  active_deliveries (self f) !! group_key g = Some d →
  row_of_group g (delivery_id d) f.
Proof.
  intros (_ & Hex & Hinj) Htr. split; [by eapply Hex|].
  intros k d1 Hd1 Hid. by eapply Hinj.
Qed.

Lemma group_start_frame env g s ct f :
  fetches env g s → writes_succeed env g →
  detect_button_press (self f) g s = Some ct →
  monitor_group env g f =
    (Returned tt,
     remember (group_key g) s
       (append_activity (delivery_started g ct (next_id (db f)))
          (track (group_key g)
             (manual_delivery (next_id (db f)) ct g (now env))
             (set_db (repo_create_log
                        (repo_create_delivery (db f) ct g "in_progress"
                           "manual" (now env)).2 (start_log g ct)) f)))).
Proof.
  intros Hs [Hd Hl] Hdet.
  assert (Hact : is_delivery_active s = true).
  { destruct (is_delivery_active s) eqn:E; [done|].
    by rewrite detect_button_press_inactive in Hdet. }
  run_comp. rewrite Hs, Hdet, Hd, Hl. cbn.
  rewrite lookup_insert_eq, Hact. cbn.
  unfold start_log. by rewrite manual_log_type_purge.
Qed.

Lemma group_complete_frame env g s d f :
  fetches env g s → writes_succeed env g →
  is_delivery_active s = false →
  active_deliveries (self f) !! group_key g = Some d →
  let d' := with_completed_at (with_status d "completed") (now env) in
  monitor_group env g f =
    (Returned tt,
     remember (group_key g) s
       (append_activity
          (delivery_completed g (coffee_type d) (delivery_id d))
          (untrack (group_key g)
             (set_db (repo_create_log
                        (repo_save_delivery (db f) d')
                        (completion_log g (coffee_type d)))
                (track (group_key g) d' f))))).
Proof.
  intros Hs [Hd Hl] Hact Htr. cbn zeta.
  run_comp. rewrite Hs, (detect_button_press_inactive _ _ _ Hact).
  rewrite Htr, Hact, Hd, Hl. cbn.
  unfold completion_log. by rewrite manual_log_type_purge.
Qed.

Lemma group_orphan_frame env g s ct e f :
  fetches env g s →
  delivery_write_fault env g = None → log_write_fault env g = Some e →
  detect_button_press (self f) g s = Some ct →
  monitor_group env g f =
    (Returned tt,
     append_activity (error g e)
       (set_db (repo_create_delivery (db f) ct g "in_progress"
                  "manual" (now env)).2 f)).
Proof.
  intros Hs Hd Hl Hdet. run_comp. by rewrite Hs, Hdet, Hd, Hl.
Qed.

Lemma logs_of_snoc g r l :
  log_group_number l = Some g →
  logs_of g (repo_create_log r l) = logs_of g r ++ [l].
Proof.
  intros Hl. unfold logs_of. cbn. by rewrite filter_app, filter_cons_True.
Qed.

Arguments activities_of : simpl never.
Arguments logs_of : simpl never.

Lemma new_row_is_absent f f1 :
  ids_well_formed f → next_id (db f) ≤ next_id (db f1) →
  deliveries (db f) !! next_id (db f1) = None.
Proof.
  intros (Hrows & _) Hle.
  destruct (deliveries (db f) !! next_id (db f1)) as [d|] eqn:Hd; [|done].
  destruct (Hrows _ _ Hd). lia.
Qed.

Section Recorded_poll.

Context (env : CycleEnv) (g : Z) (s : StatusDict) (f : Frame).
Context (Hpolls : polls env g s) (Hwf : ids_well_formed f).

Lemma cycle_start_repo :
  not_active_before g f → is_delivery_active s = true →
  ∃ r f' ct id,
    monitor_single_cycle env f = (Returned r, f')
    ∧ get_coffee_type_from_status s = Some ct
    ∧ reported g (Returned r) = Some [delivery_started g ct id]
    ∧ view g f' = (Some s, Some (manual_delivery id ct g (now env)))
    ∧ deliveries (db f) !! id = None
    ∧ deliveries (db f') !! id = Some (manual_delivery id ct g (now env))
    ∧ logs_of g (db f') = logs_of g (db f) ++ [start_log g ct]
    ∧ ids_well_formed f'.
Proof.
  intros Hprev Hact. destruct Hpolls as (Hc & He & Hs & Hw).
  destruct (cycle_split env g f Hc He)
    as (l1 & l2 & f1 & f2 & f' & r & Hg1 & Hg2 & Hf1 & Hf2 & Hf' & Hrun & Hr).
  destruct (for_each_preserves env g l1 Hg1 _ _ _ Hf1) as (Hv1 & Ha1 & Hl1).
  destruct (for_each_preserves env g l2 Hg2 _ _ _ Hf') as (Hv3 & Ha3 & Hl3).
  destruct (for_each_rows env l1 _ _ (Hwf : ids_well_formed {| self := self f; db := db f; activities := [] |}) Hf1) as (Hwf1 & Hn1 & _ & _).
  destruct (active_has_coffee_type s Hact) as [ct Hct].
  assert (Hdet : detect_button_press (self f1) g s = Some ct).
  { rewrite detect_button_press_edge; [done| |done].
    unfold not_active_before in Hprev.
    change (view g {| self := self f; db := db f; activities := [] |})
      with (view g f) in Hv1.
    rewrite <- Hv1 in Hprev. exact Hprev. }
  pose proof (group_start_frame env g s ct f1 Hs Hw Hdet) as Hframe.
  rewrite Hf2 in Hframe. injection Hframe as Hframe.
  destruct (monitor_group_rows env g f1 f2 Hwf1 Hf2) as [Hwf2 _].
  assert (Htr2 : active_deliveries (self f2) !! group_key g
                 = Some (manual_delivery (next_id (db f1)) ct g (now env))).
  { rewrite Hframe. cbn. apply lookup_insert_eq. }
  destruct (for_each_rows env l2 _ _ Hwf2 Hf') as (Hwf' & _ & _ & Hrow).
  destruct (Hrow g (next_id (db f1)) Hg2) as [_ Hkept].
  { by apply (tracked_row_of_group g _ f2 Hwf2 Htr2). }
  exists r, f', ct, (next_id (db f1)). split_and!; try done.
  - cbn. rewrite Hr. cbn. rewrite Ha3, Hframe. cbn.
    by rewrite activities_of_snoc.
  - rewrite Hv3. unfold view. rewrite Htr2, Hframe. cbn.
    by rewrite lookup_insert_eq.
  - by apply new_row_is_absent.
  - rewrite Hkept, Hframe. cbn. apply lookup_insert_eq.
  - rewrite Hl3, Hframe. cbn. rewrite logs_of_snoc by done.
    cbn in Hl1. rewrite <- Hl1. reflexivity.
Qed.

Lemma cycle_hold_repo p d :
  view g f = (Some p, Some d) → is_delivery_active p = true →
  is_delivery_active s = true →
  ∃ r f',
    monitor_single_cycle env f = (Returned r, f')
    ∧ reported g (Returned r) = Some []
    ∧ view g f' = (Some s, Some d)
    ∧ deliveries (db f') !! delivery_id d
      = deliveries (db f) !! delivery_id d
    ∧ logs_of g (db f') = logs_of g (db f)
    ∧ ids_well_formed f'.
Proof.
  intros Hv Hp Hact. destruct Hpolls as (Hc & He & Hs & Hw).
  destruct (cycle_split env g f Hc He)
    as (l1 & l2 & f1 & f2 & f' & r & Hg1 & Hg2 & Hf1 & Hf2 & Hf' & Hrun & Hr).
  destruct (for_each_preserves env g l1 Hg1 _ _ _ Hf1) as (Hv1 & Ha1 & Hl1).
  destruct (for_each_preserves env g l2 Hg2 _ _ _ Hf') as (Hv3 & Ha3 & Hl3).
  change (view g {| self := self f; db := db f; activities := [] |})
    with (view g f) in Hv1.
  rewrite Hv in Hv1. injection Hv1 as Hprev1 Htr1.
  destruct (for_each_rows env l1 _ _ (Hwf : ids_well_formed {| self := self f; db := db f; activities := [] |}) Hf1) as (Hwf1 & _ & _ & Hrow1).
  destruct (Hrow1 g (delivery_id d) Hg1) as [_ Hkept1].
  { apply (tracked_row_of_group g d _ Hwf). injection Hv as _ Htr. exact Htr. }
  assert (Hdet : detect_button_press (self f1) g s = None)
    by by apply detect_button_press_held with p.
  pose proof (group_quiet env g s f1 Hs Hdet (or_introl Hact)) as Hframe.
  rewrite Hf2 in Hframe. injection Hframe as Hframe.
  destruct (monitor_group_rows env g f1 f2 Hwf1 Hf2) as [Hwf2 _].
  assert (Htr2 : active_deliveries (self f2) !! group_key g = Some d)
    by by rewrite Hframe.
  destruct (for_each_rows env l2 _ _ Hwf2 Hf') as (Hwf' & _ & _ & Hrow2).
  destruct (Hrow2 g (delivery_id d) Hg2) as [_ Hkept2].
  { by apply (tracked_row_of_group g d f2 Hwf2 Htr2). }
  exists r, f'. split_and!; try done.
  - cbn. rewrite Hr. cbn. rewrite Ha3, Hframe. cbn. by rewrite Ha1.
  - rewrite Hv3. unfold view. rewrite Htr2, Hframe. cbn.
    by rewrite lookup_insert_eq.
  - rewrite Hkept2, Hframe. cbn. exact Hkept1.
  - rewrite Hl3, Hframe. cbn. exact Hl1.
Qed.

Lemma cycle_release_repo d :
  (view g f).2 = Some d → is_delivery_active s = false →
  ∃ r f',
    monitor_single_cycle env f = (Returned r, f')
    ∧ reported g (Returned r) =
        Some [delivery_completed g (coffee_type d) (delivery_id d)]
    ∧ view g f' = (Some s, None)
    ∧ deliveries (db f') !! delivery_id d =
        Some (with_completed_at (with_status d "completed") (now env))
    ∧ logs_of g (db f') =
        logs_of g (db f) ++ [completion_log g (coffee_type d)]
    ∧ untracked_row (delivery_id d) f'
    ∧ ids_well_formed f'.
Proof.
  intros Htr Hact. destruct Hpolls as (Hc & He & Hs & Hw).
  destruct (cycle_split env g f Hc He)
    as (l1 & l2 & f1 & f2 & f' & r & Hg1 & Hg2 & Hf1 & Hf2 & Hf' & Hrun & Hr).
  destruct (for_each_preserves env g l1 Hg1 _ _ _ Hf1) as (Hv1 & Ha1 & Hl1).
  destruct (for_each_preserves env g l2 Hg2 _ _ _ Hf') as (Hv3 & Ha3 & Hl3).
  change (view g {| self := self f; db := db f; activities := [] |})
    with (view g f) in Hv1.
  assert (Htr1 : active_deliveries (self f1) !! group_key g = Some d).
  { rewrite <- Hv1 in Htr. exact Htr. }
  destruct (for_each_rows env l1 _ _ (Hwf : ids_well_formed {| self := self f; db := db f; activities := [] |}) Hf1) as (Hwf1 & _ & _ & _).
  pose proof (group_complete_frame env g s d f1 Hs Hw Hact Htr1) as Hframe.
  cbn zeta in Hframe. rewrite Hf2 in Hframe. injection Hframe as Hframe.
  destruct (monitor_group_rows env g f1 f2 Hwf1 Hf2) as [Hwf2 _].
  assert (Hun2 : untracked_row (delivery_id d) f2).
  { split.
    - rewrite Hframe. cbn. rewrite lookup_insert_eq. by eexists.
    - intros k d1. rewrite Hframe. cbn. intros Hd1 Hid.
      destruct (decide (k = group_key g)) as [->|Hne].
      + by rewrite lookup_delete_eq in Hd1.
      + rewrite lookup_delete_ne, lookup_insert_ne in Hd1 by done.
        destruct Hwf1 as (_ & _ & Hinj).
        by apply Hne, (Hinj _ _ _ _ Hd1 Htr1). }
  destruct (for_each_rows env l2 _ _ Hwf2 Hf') as (Hwf' & _ & Hun & _).
  destruct (Hun _ Hun2) as [Hun' Hkept].
  exists r, f'. split_and!; try done.
  - cbn. rewrite Hr. cbn. rewrite Ha3, Hframe. cbn.
    by rewrite activities_of_snoc.
  - rewrite Hv3. unfold view. rewrite Hframe. cbn.
    by rewrite lookup_insert_eq, lookup_delete_eq.
  - rewrite Hkept, Hframe. cbn. apply lookup_insert_eq.
  - rewrite Hl3, Hframe. cbn. rewrite logs_of_snoc by done.
    cbn in Hl1. rewrite <- Hl1. reflexivity.
Qed.

End Recorded_poll.

Lemma run_cycles_cons_frame env envs f :
  (run_cycles (env :: envs) f).2
  = (run_cycles envs (monitor_single_cycle env f).2).2.
Proof.
  cbn. destruct (monitor_single_cycle env f) as [r f1]. cbn.
  by destruct (run_cycles envs f1).
Qed.

Lemma run_cycles_app_frame envs1 envs2 f :
  (run_cycles (envs1 ++ envs2) f).2
  = (run_cycles envs2 (run_cycles envs1 f).2).2.
Proof.
  revert f. induction envs1 as [|env envs1 IH]; intros f; [done|].
  rewrite <- app_comm_cons, !run_cycles_cons_frame. apply IH.
Qed.

Lemma held_press_keeps_row g hold : ∀ f p d,
  ids_well_formed f →
  view g f = (Some p, Some d) → is_delivery_active p = true →
  Forall (polls_active g) hold →
  let f' := (run_cycles hold f).2 in
  ids_well_formed f'
  ∧ (∃ p', view g f' = (Some p', Some d) ∧ is_delivery_active p' = true)
  ∧ deliveries (db f') !! delivery_id d = deliveries (db f) !! delivery_id d
  ∧ logs_of g (db f') = logs_of g (db f).
Proof.
  induction hold as [|env hold IH]; intros f p d Hwf Hv Hp Hall; cbn zeta.
  - split_and!; try done. by exists p.
  - apply Forall_cons in Hall as [(s & Hpolls & Hs) Hall].
    destruct (cycle_hold_repo env g s f Hpolls Hwf p d Hv Hp Hs)
      as (r & f1 & Hrun & _ & Hv1 & Hrow1 & Hlogs1 & Hwf1).
    rewrite run_cycles_cons_frame, Hrun. cbn [snd].
    destruct (IH f1 s d Hwf1 Hv1 Hs Hall) as (Hwf' & Hv' & Hrow' & Hlogs').
    split_and!; try done; congruence.
Qed.

(** X9.  What a press leaves in the repository.  Starting from well-formed
    ids, a press of group [g] that is polled without a fault from its first
    active poll to its first inactive poll creates one new delivery row and
    leaves it completed: coffee type of the first active snapshot, the
    group, trigger manual, started_at the time of the first active poll,
    completed_at the time of the first inactive poll, no error message.
    Exactly two log rows are written for the group, one for the start and
    one for the completion, of type purge for a purge and manual_delivery
    otherwise.  Whatever the other groups do meanwhile does not touch the
    row, and no later cycle, in any environment, changes it again. *)
Theorem press_is_recorded g f env1 s1 hold release srel later :
  ids_well_formed f → not_active_before g f →
  polls env1 g s1 → is_delivery_active s1 = true →
  Forall (polls_active g) hold →
  polls release g srel → is_delivery_active srel = false →
  ∃ ct id,
    get_coffee_type_from_status s1 = Some ct
    ∧ deliveries (db f) !! id = None
    ∧ let f' := (run_cycles (env1 :: hold ++ [release]) f).2 in
      deliveries (db f') !! id =
        Some (completed_delivery id ct g (now env1) (now release))
      ∧ logs_of g (db f') =
          logs_of g (db f) ++ [start_log g ct; completion_log g ct]
      ∧ deliveries (db (run_cycles later f').2) !! id =
          Some (completed_delivery id ct g (now env1) (now release)).
Proof.
  intros Hwf Hprev Hp1 Hs1 Hhold Hprel Hsrel.
  destruct (cycle_start_repo env1 g s1 f Hp1 Hwf Hprev Hs1)
    as (r1 & f1 & ct & id & Hrun1 & Hct & _ & Hv1 & Hnew & Hrow1 & Hlogs1 & Hwf1).
  exists ct, id. split; [done|]. split; [done|]. cbn zeta.
  rewrite run_cycles_cons_frame, Hrun1. cbn [snd].
  rewrite run_cycles_app_frame.
  destruct (held_press_keeps_row g hold f1 s1 _ Hwf1 Hv1 Hs1 Hhold)
    as (Hwf2 & (p' & Hv2 & Hp') & Hrow2 & Hlogs2).
  set (f2 := (run_cycles hold f1).2) in *.
  destruct (cycle_release_repo release g srel f2 Hprel Hwf2
              (manual_delivery id ct g (now env1)))
    as (r3 & f3 & Hrun3 & _ & Hv3 & Hrow3 & Hlogs3 & Hun3 & Hwf3);
    [by rewrite Hv2 | done |].
  rewrite run_cycles_cons_frame, Hrun3. cbn [snd run_cycles].
  split_and!.
  - exact Hrow3.
  - rewrite Hlogs3, Hlogs2, Hlogs1. by rewrite <- app_assoc.
  - destruct (run_cycles_rows later f3 Hwf3) as [_ Hkeep].
    destruct (Hkeep _ Hun3) as [_ Hk].
    cbn [manual_delivery delivery_id] in Hk. rewrite Hk. exact Hrow3.
Qed.

Lemma press_is_recorded_witness :
  ∃ ct id,
    get_coffee_type_from_status pressed_single_short = Some ct
    ∧ deliveries (db new_frame) !! id = None
    ∧ let f' := (run_cycles
                   (cycle_showing pressed_single_short 11
                    :: [cycle_showing pressed_single_short 12]
                    ++ [cycle_showing inactive 13]) new_frame).2 in
      deliveries (db f') !! id =
        Some (completed_delivery id ct 1 11 13)
      ∧ logs_of 1 (db f') =
          logs_of 1 (db new_frame) ++ [start_log 1 ct; completion_log 1 ct]
      ∧ deliveries
          (db (run_cycles [cycle_showing pressed_single_short 14] f').2) !! id
        = Some (completed_delivery id ct 1 11 13).
Proof.
  apply (press_is_recorded 1 new_frame
           (cycle_showing pressed_single_short 11) pressed_single_short
           [cycle_showing pressed_single_short 12]
           (cycle_showing inactive 13) inactive
           [cycle_showing pressed_single_short 14]).
  - apply (new_monitor_ids_well_formed empty_repository).
    apply empty_repository_rows.
  - exact I.
  - apply cycle_showing_polls.
  - reflexivity.
  - constructor; [|constructor].
    exists pressed_single_short. split; [apply cycle_showing_polls|reflexivity].
  - apply cycle_showing_polls.
  - reflexivity.
Defined.

(** X6.  A start whose delivery row is created but whose log row cannot be
    written leaves an orphan: the cycle reports an error for the group and
    keeps the group's previous snapshot, the new row stays in the
    repository with status in_progress, no group tracks it, and no later
    cycle, in any environment, completes or changes it - the press, if
    still active at the next poll, is recorded as another delivery. *)
Theorem failed_start_log_leaves_orphan env g s e f later :
  ids_well_formed f → not_active_before g f →
  connected env → enumerated env g → fetches env g s →
  is_delivery_active s = true →
  delivery_write_fault env g = None → log_write_fault env g = Some e →
  ∃ r f' ct id,
    monitor_single_cycle env f = (Returned r, f')
    ∧ get_coffee_type_from_status s = Some ct
    ∧ reported g (Returned r) = Some [error g e]
    ∧ view g f' = view g f
    ∧ deliveries (db f) !! id = None
    ∧ deliveries (db f') !! id = Some (manual_delivery id ct g (now env))
    ∧ (∀ k d, active_deliveries (self f') !! k = Some d → delivery_id d ≠ id)
    ∧ deliveries (db (run_cycles later f').2) !! id
      = Some (manual_delivery id ct g (now env)).
Proof.
  intros Hwf Hprev Hc He Hs Hact Hd Hl.
  destruct (cycle_split env g f Hc He)
    as (l1 & l2 & f1 & f2 & f' & r & Hg1 & Hg2 & Hf1 & Hf2 & Hf' & Hrun & Hr).
  destruct (for_each_preserves env g l1 Hg1 _ _ _ Hf1) as (Hv1 & Ha1 & Hl1).
  destruct (for_each_preserves env g l2 Hg2 _ _ _ Hf') as (Hv3 & Ha3 & Hl3).
  change (view g {| self := self f; db := db f; activities := [] |})
    with (view g f) in Hv1.
  destruct (for_each_rows env l1 _ _
              (Hwf : ids_well_formed
                       {| self := self f; db := db f; activities := [] |}) Hf1)
    as (Hwf1 & Hn1 & _ & _).
  destruct (active_has_coffee_type s Hact) as [ct Hct].
  assert (Hdet : detect_button_press (self f1) g s = Some ct).
  { rewrite detect_button_press_edge; [done| |done].
    unfold not_active_before in Hprev. rewrite <- Hv1 in Hprev.
    exact Hprev. }
  pose proof (group_orphan_frame env g s ct e f1 Hs Hd Hl Hdet) as Hframe.
  rewrite Hf2 in Hframe. injection Hframe as Hframe.
  destruct (monitor_group_rows env g f1 f2 Hwf1 Hf2) as [Hwf2 _].
  assert (Hun2 : untracked_row (next_id (db f1)) f2).
  { split.
    - rewrite Hframe. cbn. rewrite lookup_insert_eq. by eexists.
    - intros k d. rewrite Hframe. cbn. intros Hk.
      pose proof (tracked_below_next_id f1 Hwf1 k d Hk). lia. }
  destruct (for_each_rows env l2 _ _ Hwf2 Hf') as (Hwf' & _ & Hun & _).
  destruct (Hun _ Hun2) as [Hun' Hkept].
  assert (Hrow' : deliveries (db f') !! next_id (db f1)
                  = Some (manual_delivery (next_id (db f1)) ct g (now env))).
  { rewrite Hkept, Hframe. cbn. apply lookup_insert_eq. }
  exists r, f', ct, (next_id (db f1)). split_and!; try done.
  - cbn. rewrite Hr. cbn. rewrite Ha3, Hframe. cbn.
    by rewrite activities_of_snoc.
  - rewrite Hv3, <- Hv1. unfold view. by rewrite Hframe.
  - by apply new_row_is_absent.
  - by destruct Hun'.
  - destruct (run_cycles_rows later f' Hwf') as [_ Hkeep].
    destruct (Hkeep _ Hun') as [_ ->]. exact Hrow'.
Qed.

Lemma failed_start_log_leaves_orphan_witness :
  ∃ r f' ct id,
    monitor_single_cycle (failing_log_cycle_showing pressed_single_short 40)
      new_frame = (Returned r, f')
    ∧ get_coffee_type_from_status pressed_single_short = Some ct
    ∧ reported 1 (Returned r) = Some [error 1 "database is locked"]
    ∧ view 1 f' = view 1 new_frame
    ∧ deliveries (db new_frame) !! id = None
    ∧ deliveries (db f') !! id = Some (manual_delivery id ct 1 40)
    ∧ (∀ k d, active_deliveries (self f') !! k = Some d → delivery_id d ≠ id)
    ∧ deliveries
        (db (run_cycles [ cycle_showing pressed_single_short 41;
                          cycle_showing inactive 42 ] f').2) !! id
      = Some (manual_delivery id ct 1 40).
Proof.
  apply (failed_start_log_leaves_orphan
           (failing_log_cycle_showing pressed_single_short 40) 1
           pressed_single_short "database is locked" new_frame
           [ cycle_showing pressed_single_short 41;
             cycle_showing inactive 42 ]).
  - apply (new_monitor_ids_well_formed empty_repository).
    apply empty_repository_rows.
  - exact I.
  - reflexivity.
  - exists (Some 3). split; [reflexivity|]. by vm_compute.
  - reflexivity.
  - reflexivity.
  - reflexivity.
  - reflexivity.
Defined.

(** ** Further properties of deliver_coffee_async *)

Lemma same_delivery_refl d : same_delivery d d.
Proof. by repeat split. Qed.

Ltac task_leaf Hown :=
  cbn; rewrite ?Hown, ?lookup_insert_eq;
  try (rewrite ?lookup_insert_ne by congruence);
  try done.

(** The [try] block, run on an existing row stored under its id. *)
Lemma deliver_coffee_try_shape env id w d o w1 :
  deliveries (t_db w) !! id = Some d → delivery_id d = id →
  deliver_coffee_try env id w = (o, w1) →
  touches_only_row id d w w1
  ∧ (∃ cs, calls w1 = calls w ++ cs ∧ calls_in_order env d cs)
  ∧ (o = Returned true →
     ensure_connection (t_machine env) = Returned true
     ∧ (∃ res, deliver_coffee (t_machine env) (group_number d) (coffee_type d)
               = Returned res ∧ success res = true)
     ∧ wait_until_group_is_free (t_machine env) (group_number d) 120
       = Returned true
     ∧ deliveries (t_db w1) !! id =
         Some (with_completed_at
                 (with_status (with_status d "in_progress") "completed")
                 (t_now env))
     ∧ calls w1 = calls w ++ [EnsureConnection;
                              DeliverCoffee (group_number d) (coffee_type d);
                              WaitUntilGroupIsFree (group_number d) 120]).
Proof.
  intros Hrow Hown.
  unfold deliver_coffee_try, objects_get, save, machine_call,
    bind, call, get_state, modify, guard_fault, ret, raise.
  destruct (get_fault env GetTry); cbn.
  { intros [= <- <-]. split_and!; try done.
    - split_and!; try done. exists d. by split; [|apply same_delivery_refl].
    - exists []. split; [by rewrite app_nil_r | by left]. }
  rewrite Hrow.
  destruct (get_coffee_machine_fault env); cbn.
  { intros [= <- <-]. split_and!; try done.
    - split_and!; try done. exists d. by split; [|apply same_delivery_refl].
    - exists []. split; [by rewrite app_nil_r | by left]. }
  destruct (ensure_connection (t_machine env)) as [[]|e] eqn:Hc; cbn.
  3:{ intros [= <- <-]. split_and!; try done.
      - split_and!; try done. exists d. by split; [|apply same_delivery_refl].
      - exists [EnsureConnection]. split; [done | by right; left]. }
  2:{ destruct (save_fault env SaveDisconnected); cbn; intros [= <- <-].
      - split_and!; try done.
        + split_and!; try done.
          exists d. by split; [|apply same_delivery_refl].
        + exists [EnsureConnection]. split; [done | by right; left].
      - split_and!; try done.
        + split_and!; try done.
          * intros j Hj. task_leaf Hown.
          * eexists. split; [task_leaf Hown|]. by repeat split.
        + exists [EnsureConnection]. split; [done | by right; left]. }
  destruct (deliver_coffee (t_machine env) (group_number d) (coffee_type d))
    as [res|e] eqn:Hd; cbn.
  2:{ intros [= <- <-]. split_and!; try done.
      - split_and!; try done. exists d. by split; [|apply same_delivery_refl].
      - eexists. split; [by rewrite <- app_assoc|]. right; right; left. done. }
  destruct (success res) eqn:Hres; cbn.
  2:{ destruct (save_fault env SaveFinal); cbn; intros [= <- <-].
      - split_and!; try done.
        + split_and!; try done.
          exists d. by split; [|apply same_delivery_refl].
        + eexists. split; [by rewrite <- app_assoc|]. right; right; left. done.
      - split_and!; try done.
        + split_and!; try done.
          * intros j Hj. task_leaf Hown.
          * eexists. split; [task_leaf Hown|]. by repeat split.
        + eexists. split; [by rewrite <- app_assoc|]. right; right; left. done. }
  destruct (save_fault env SaveInProgress); cbn.
  { intros [= <- <-]. split_and!; try done.
    - split_and!; try done. exists d. by split; [|apply same_delivery_refl].
    - eexists. split; [by rewrite <- app_assoc|]. right; right; left. done. }
  assert (Horder : calls_in_order env d
            [EnsureConnection;
             DeliverCoffee (group_number d) (coffee_type d);
             WaitUntilGroupIsFree (group_number d) 120]).
  { right; right; right. split; [done|]. split; [by exists res | done]. }
  destruct (wait_until_group_is_free (t_machine env) (group_number d) 120)
    as [[]|e] eqn:Hwait; cbn.
  3:{ intros [= <- <-]. split_and!; try done.
      - split_and!; try done.
        + intros j Hj. task_leaf Hown.
        + eexists. split; [task_leaf Hown|]. by repeat split.
      - eexists. split; [by rewrite <- !app_assoc | done]. }
  - destruct (save_fault env SaveFinal); cbn; intros [= <- <-].
    + split_and!; try done.
      * split_and!; try done.
        -- intros j Hj. task_leaf Hown.
        -- eexists. split; [task_leaf Hown|]. by repeat split.
      * eexists. split; [by rewrite <- !app_assoc | done].
    + split_and!.
      * split_and!; try done.
        -- intros j Hj. task_leaf Hown.
        -- eexists. split; [task_leaf Hown|]. by repeat split.
      * eexists. split; [by rewrite <- !app_assoc | done].
      * intros _. split_and!; try done.
        -- by exists res.
        -- task_leaf Hown.
        -- by rewrite <- !app_assoc.
  - destruct (save_fault env SaveFinal); cbn; intros [= <- <-].
    + split_and!; try done.
      * split_and!; try done.
        -- intros j Hj. task_leaf Hown.
        -- eexists. split; [task_leaf Hown|]. by repeat split.
      * eexists. split; [by rewrite <- !app_assoc | done].
    + split_and!; try done.
      * split_and!; try done.
        -- intros j Hj. task_leaf Hown.
        -- eexists. split; [task_leaf Hown|]. by repeat split.
      * eexists. split; [by rewrite <- !app_assoc | done].
Qed.

(** X10.  A delivery id with no row: the task returns false, makes no
    driver call and leaves the repository as it is, in every
    environment. *)
Theorem missing_delivery_changes_nothing env id w :
  deliveries (t_db w) !! id = None →
  deliver_coffee_async env id w = (Returned false, w).
Proof.
  intros Hrow. run_task.
  destruct (get_fault env GetTry); cbn; rewrite ?Hrow; cbn;
    destruct (get_fault env GetExcept); cbn; by rewrite ?Hrow.
Qed.

Lemma missing_delivery_changes_nothing_witness :
  deliver_coffee_async (task_on (machine_showing inactive) 200) 7
    world_without_rows
  = (Returned false, world_without_rows).
Proof.
  apply (missing_delivery_changes_nothing
           (task_on (machine_showing inactive) 200) 7 world_without_rows).
  reflexivity.
Defined.

(** The whole task, run on an existing row stored under its id. *)
Lemma deliver_coffee_async_shape env id w d :
  deliveries (t_db w) !! id = Some d → delivery_id d = id →
  ∃ b w' o w1,
    deliver_coffee_try env id w = (o, w1)
    ∧ deliver_coffee_async env id w = (Returned b, w')
    ∧ touches_only_row id d w w'
    ∧ calls w' = calls w1
    ∧ (b = true → o = Returned true ∧ w' = w1).
Proof.
  intros Hrow Hown.
  destruct (deliver_coffee_try env id w) as [o w1] eqn:Htry.
  destruct (deliver_coffee_try_shape env id w d o w1 Hrow Hown Htry)
    as (Htouch & _ & _).
  unfold deliver_coffee_async, try_except. rewrite Htry.
  destruct o as [b|e].
  { exists b, w1, (Returned b), w1. split_and!; try done. by intros ->. }
  destruct Htouch as (Hnext & Hlogs & Hother & d1 & Hrow1 & Hsame).
  destruct (deliver_coffee_except_returns env id e w1)
    as (w' & Hrun & Hcalls & Hrec & Hswallow).
  exists false, w', (Raised e), w1. split_and!; try done.
  destruct (get_fault env GetExcept) as [e1|] eqn:Hget;
    [|destruct (save_fault env SaveExcept) as [e2|] eqn:Hsave].
  - rewrite Hswallow by (left; congruence).
    split_and!; try done. by exists d1.
  - rewrite Hswallow by (right; right; congruence).
    split_and!; try done. by exists d1.
  - specialize (Hrec d1 eq_refl Hrow1 eq_refl).
    destruct Hsame as (Hid & Hrest).
    split_and!; rewrite Hrec; cbn; try done.
    + intros j Hj. rewrite lookup_insert_ne by congruence. by apply Hother.
    + eexists. split; [rewrite Hid, Hown; apply lookup_insert_eq|].
      by split.
Qed.

(** X11.  The task touches only the row it is given.  For a row stored
    under its id, whatever the driver answers and whichever reads or saves
    fail, after the task the repository has the same next id and the same
    log rows, every other delivery row is as it was, and the row itself is
    still there as the same delivery: its id, coffee type, group, trigger
    type and started_at are unchanged. *)
Theorem task_touches_only_its_row env id w d :
  deliveries (t_db w) !! id = Some d → delivery_id d = id →
  let w' := (deliver_coffee_async env id w).2 in
  next_id (t_db w') = next_id (t_db w)
  ∧ logs (t_db w') = logs (t_db w)
  ∧ (∀ j, j ≠ id → deliveries (t_db w') !! j = deliveries (t_db w) !! j)
  ∧ (∃ d', deliveries (t_db w') !! id = Some d'
           ∧ delivery_id d' = id
           ∧ coffee_type d' = coffee_type d
           ∧ group_number d' = group_number d
           ∧ trigger_type d' = trigger_type d
           ∧ started_at d' = started_at d).
Proof.
  intros Hrow Hown. cbn zeta.
  destruct (deliver_coffee_async_shape env id w d Hrow Hown)
    as (b & w' & o & w1 & _ & -> & (Hnext & Hlogs & Hother & d' & Hd' & Hsame) & _).
  cbn. split_and!; try done.
  exists d'. destruct Hsame as (Hid & ? & ? & ? & ?).
  split_and!; try done. congruence.
Qed.

Lemma task_touches_only_its_row_witness :
  let w' := (deliver_coffee_async (task_on machine_wait_raises 200) 7
               world_with_pending).2 in
  next_id (t_db w') = next_id (t_db world_with_pending)
  ∧ logs (t_db w') = logs (t_db world_with_pending)
  ∧ (∀ j, j ≠ 7 →
          deliveries (t_db w') !! j
          = deliveries (t_db world_with_pending) !! j)
  ∧ (∃ d', deliveries (t_db w') !! 7 = Some d'
           ∧ delivery_id d' = 7
           ∧ coffee_type d' = coffee_type pending_delivery
           ∧ group_number d' = group_number pending_delivery
           ∧ trigger_type d' = trigger_type pending_delivery
           ∧ started_at d' = started_at pending_delivery).
Proof.
  apply (task_touches_only_its_row (task_on machine_wait_raises 200) 7
           world_with_pending pending_delivery).
  - reflexivity.
  - reflexivity.
Defined.

(** X12.  The driver is called in a fixed order.  The calls one run of the
    task adds are a prefix of: ensure_connection, deliver_coffee for the
    row's group and coffee type, wait_until_group_is_free for that group
    with timeout 120.  The deliver command is issued only after
    ensure_connection answered true, and the wait only after the command
    was accepted; the [except] block calls the driver never. *)
Theorem driver_calls_in_order env id w d :
  deliveries (t_db w) !! id = Some d → delivery_id d = id →
  ∃ cs,
    calls (deliver_coffee_async env id w).2 = calls w ++ cs
    ∧ calls_in_order env d cs.
Proof.
  intros Hrow Hown.
  destruct (deliver_coffee_async_shape env id w d Hrow Hown)
    as (b & w' & o & w1 & Htry & -> & _ & Hcalls & _).
  destruct (deliver_coffee_try_shape env id w d o w1 Hrow Hown Htry)
    as (_ & (cs & Hcs & Horder) & _).
  exists cs. cbn. by rewrite Hcalls.
Qed.

Lemma driver_calls_in_order_witness :
  ∃ cs,
    calls (deliver_coffee_async (task_on unreachable_machine 200) 7
             world_with_pending).2
    = calls world_with_pending ++ cs
    ∧ calls_in_order (task_on unreachable_machine 200) pending_delivery cs.
Proof.
  apply (driver_calls_in_order (task_on unreachable_machine 200) 7
           world_with_pending pending_delivery).
  - reflexivity.
  - reflexivity.
Defined.

(** X13.  The task returns true only for a delivery that went through, in
    every environment: the row existed, the machine was reachable, the
    command was accepted, the wait with timeout 120 answered true, and the
    row is stored with status completed and completed_at set to the time
    of the run; all three driver calls were made. *)
Theorem true_means_completed env id w w' :
  (∀ d, deliveries (t_db w) !! id = Some d → delivery_id d = id) →
  deliver_coffee_async env id w = (Returned true, w') →
  ∃ d d',
    deliveries (t_db w) !! id = Some d
    ∧ ensure_connection (t_machine env) = Returned true
    ∧ (∃ res, deliver_coffee (t_machine env) (group_number d) (coffee_type d)
              = Returned res ∧ success res = true)
    ∧ wait_until_group_is_free (t_machine env) (group_number d) 120
      = Returned true
    ∧ deliveries (t_db w') !! id = Some d'
    ∧ status d' = "completed"
    ∧ completed_at d' = Some (t_now env)
    ∧ calls w' = calls w ++ [EnsureConnection;
                             DeliverCoffee (group_number d) (coffee_type d);
                             WaitUntilGroupIsFree (group_number d) 120].
Proof.
  intros Hown Hrun.
  destruct (deliveries (t_db w) !! id) as [d|] eqn:Hrow.
  2:{ revert Hrun. run_task.
      destruct (get_fault env GetTry); cbn; rewrite ?Hrow; cbn;
        destruct (get_fault env GetExcept); cbn; rewrite ?Hrow;
        discriminate. }
  specialize (Hown d eq_refl).
  destruct (deliver_coffee_async_shape env id w d Hrow Hown)
    as (b & w2 & o & w1 & Htry & Hrun' & _ & _ & Htrue).
  rewrite Hrun in Hrun'. injection Hrun' as <- <-.
  destruct (Htrue eq_refl) as [-> <-].
  destruct (deliver_coffee_try_shape env id w d _ w' Hrow Hown Htry)
    as (_ & _ & Hdone).
  destruct (Hdone eq_refl) as (Hc & Hd & Hwait & Hrow' & Hcalls).
  exists d. eexists. by split_and!.
Qed.

Lemma true_means_completed_witness :
  ∃ d d',
    deliveries (t_db world_with_pending) !! 7 = Some d
    ∧ ensure_connection (t_machine (task_on (machine_showing inactive) 200))
      = Returned true
    ∧ (∃ res, deliver_coffee (t_machine (task_on (machine_showing inactive) 200))
                (group_number d) (coffee_type d)
              = Returned res ∧ success res = true)
    ∧ wait_until_group_is_free
        (t_machine (task_on (machine_showing inactive) 200))
        (group_number d) 120
      = Returned true
    ∧ deliveries
        (t_db (deliver_coffee_async (task_on (machine_showing inactive) 200) 7
                 world_with_pending).2) !! 7 = Some d'
    ∧ status d' = "completed"
    ∧ completed_at d' = Some (t_now (task_on (machine_showing inactive) 200))
    ∧ calls (deliver_coffee_async (task_on (machine_showing inactive) 200) 7
               world_with_pending).2
      = calls world_with_pending
        ++ [EnsureConnection;
            DeliverCoffee (group_number d) (coffee_type d);
            WaitUntilGroupIsFree (group_number d) 120].
Proof.
  apply (true_means_completed (task_on (machine_showing inactive) 200) 7
           world_with_pending).
  - intros d Hd. vm_compute in Hd. by injection Hd as <-.
  - reflexivity.
Defined.

(** ** health_check_task *)

(** X14.  Whenever the health check returns, it has appended exactly one
    log row, of type health_check and with resolved equal to the returned
    boolean, and changed nothing else; and it returns true exactly when
    the driver object was obtained, the machine reported 'healthy' and the
    log row of the check was written. *)
Theorem health_check_logs_once env r b r' :
  health_check_task env r = (Returned b, r') →
  (∃ l, r' = repo_create_log r l
        ∧ log_type l = "health_check"
        ∧ log_group_number l = None
        ∧ resolved l = Some b)
  ∧ (b = true
     ↔ h_get_coffee_machine_fault env = None
       ∧ health_check env = Returned "healthy"
       ∧ health_log_fault env = None).
Proof.
  unfold health_check_task, try_except, bind, call, modify, guard_fault,
    ret, raise.
  destruct (h_get_coffee_machine_fault env) as [e1|]; cbn.
  { destruct (failure_log_fault env); cbn; [discriminate|].
    intros [= <- <-]. split; [by eexists|]. split; [discriminate|].
    intros (? & _). discriminate. }
  destruct (health_check env) as [st|e2]; cbn.
  2:{ destruct (failure_log_fault env); cbn; [discriminate|].
      intros [= <- <-]. split; [by eexists|]. split; [discriminate|].
      intros (_ & ? & _). discriminate. }
  destruct (health_log_fault env) as [e3|]; cbn.
  { destruct (failure_log_fault env); cbn; [discriminate|].
    intros [= <- <-]. split; [by eexists|]. split; [discriminate|].
    intros (_ & _ & ?). discriminate. }
  intros [= <- <-]. split; [by eexists|].
  destruct (decide (st = "healthy")) as [->|Hne].
  - by rewrite bool_decide_true.
  - rewrite bool_decide_false by done. split; [discriminate|].
    intros (_ & [= ?] & _). done.
Qed.

Lemma health_check_logs_once_witness :
  (∃ l, (health_check_task health_env_degraded empty_repository).2
        = repo_create_log empty_repository l
        ∧ log_type l = "health_check"
        ∧ log_group_number l = None
        ∧ resolved l = Some false)
  ∧ (false = true
     ↔ h_get_coffee_machine_fault health_env_degraded = None
       ∧ health_check health_env_degraded = Returned "healthy"
       ∧ health_log_fault health_env_degraded = None).
Proof.
  apply (health_check_logs_once health_env_degraded empty_repository false
           (health_check_task health_env_degraded empty_repository).2).
  reflexivity.
Defined.

(** X15.  Unlike the delivery task, the health check can raise: it raises
    exactly when its try block fails and the write of the failure's log
    row fails too, with the error of that second write; the repository is
    then unchanged, so the failed check leaves no log row at all. *)
Theorem health_check_raises_when_logging_fails env r e :
  ((health_check_task env r).1 = Raised e
   ↔ health_try_fails env ∧ failure_log_fault env = Some e)
  ∧ ((health_check_task env r).1 = Raised e →
     (health_check_task env r).2 = r).
Proof.
  unfold health_try_fails, health_check_task, try_except, bind, call, modify,
    guard_fault, ret, raise.
  destruct (h_get_coffee_machine_fault env) as [e1|]; cbn.
  { destruct (failure_log_fault env); cbn.
    - split; [|done]. split; [intros [= ->]; split; [left; by eexists|done]|].
      by intros [_ [= ->]].
    - split; [|discriminate]. split; [discriminate|]. by intros [_ ?]. }
  destruct (health_check env) as [st|e2]; cbn.
  2:{ destruct (failure_log_fault env); cbn.
      - split; [|done].
        split; [intros [= ->]; split; [right; left; by eexists|done]|].
        by intros [_ [= ->]].
      - split; [|discriminate]. split; [discriminate|]. by intros [_ ?]. }
  destruct (health_log_fault env) as [e3|]; cbn.
  { destruct (failure_log_fault env); cbn.
    - split; [|done].
      split; [intros [= ->]; split; [right; right; by eexists|done]|].
      by intros [_ [= ->]].
    - split; [|discriminate]. split; [discriminate|]. by intros [_ ?]. }
  split; [|discriminate]. split; [discriminate|].
  intros [[[? ?] | [[? ?] | [? ?]]] _]; discriminate.
Qed.

(** ** Further properties of monitor_button_presses and the services *)

Lemma cycle_agrees env f1 f2 :
  self f1 = self f2 → db f1 = db f2 →
  (monitor_single_cycle env f1).1 = (monitor_single_cycle env f2).1
  ∧ self (monitor_single_cycle env f1).2 = self (monitor_single_cycle env f2).2
  ∧ db (monitor_single_cycle env f1).2 = db (monitor_single_cycle env f2).2.
Proof.
  intros Hself Hdb. unfold monitor_single_cycle, bind at 1 3 5 7 9 11, call.
  destruct (ensure_connection (machine env)) as [[]|e]; cbn [negb];
    [|done..].
  unfold bind, modify. cbn. by rewrite Hself, Hdb.
Qed.

(** An enabled run of the task whose monitor can be obtained. *)
Lemma task_enabled_run env p :
  monitoring_enabled p → monitor_available env p →
  monitor_button_presses_try env p =
    bind (on_monitor (monitor_in_use p)
            (monitor_single_cycle (cycle_env env)))
      (λ result,
         modify (λ p, {| cache := cache_set "last_button_monitor_check"
                                    (CacheTime (now (cycle_env env)))
                                    (Some 60) (cache p);
                         _monitor_instance := _monitor_instance p;
                         p_db := p_db p |}) ;;;
         ret result)
      {| cache := cache p; _monitor_instance := Some (monitor_in_use p);
         p_db := p_db p |}.
Proof.
  intros Hen Havail. unfold monitor_button_presses_try.
  unfold bind at 1, get_state at 1. rewrite Hen. cbn [negb].
  unfold bind at 1, get_button_monitor, bind at 1, get_state at 1.
  unfold monitor_in_use.
  destruct (_monitor_instance p) as [m|] eqn:Hm.
  - unfold ret at 1. unfold bind at 1 4, on_monitor. by destruct p; cbn in *; subst.
  - destruct Havail as [[m Hsome] | Hbuild]; [congruence|].
    rewrite Hbuild. cbn. unfold on_monitor, bind. by cbn.
Qed.

(** X16.  When the enable flag is stored with a false value, the scheduled
    task returns the disabled status and does nothing else: no cycle is
    run, the singleton monitor is not even built, nothing is written to
    the repository or the cache, and it does not matter what the machine
    would answer. *)
Theorem disabled_task_does_nothing env p v t :
  cache p !! "button_monitoring_enabled" = Some (v, t) →
  truthy v = false →
  monitor_button_presses env p = (Returned disabled_result, p).
Proof.
  intros Hflag Hv.
  unfold monitor_button_presses, try_except, monitor_button_presses_try.
  unfold bind, get_state, cache_get. by rewrite Hflag, Hv.
Qed.

Lemma disabled_task_does_nothing_witness :
  monitor_button_presses (task_cycle (cycle_on machine_raising 60))
    stopped_process
  = (Returned disabled_result, stopped_process).
Proof.
  apply (disabled_task_does_nothing
           (task_cycle (cycle_on machine_raising 60)) stopped_process
           (CacheBool false) None).
  - reflexivity.
  - reflexivity.
Defined.

(** X17.  When the cycle of an enabled task run raises [e], the task does
    not: it returns status error with message [e] and appends one
    connection_issue log row, unresolved, carrying [e]; the monitor and
    the delivery rows are as before and the time of the last check is not
    noted.  Only when that log row cannot be written does the task itself
    raise, with the error of the failed write. *)
Theorem failed_cycle_is_logged env p e :
  monitoring_enabled p → monitor_available env p →
  (monitor_single_cycle (cycle_env env) (task_frame p)).1 = Raised e →
  (task_log_fault env = None →
   ∃ r p',
     monitor_button_presses env p = (Returned r, p')
     ∧ r_status r = "error" ∧ r_message r = Some e
     ∧ p_db p' = repo_create_log (p_db p) (task_failure_log e)
     ∧ _monitor_instance p' = Some (monitor_in_use p)
     ∧ cache p' = cache p)
  ∧ (∀ e', task_log_fault env = Some e' →
           (monitor_button_presses env p).1 = Raised e').
Proof.
  intros Hen Havail Hraise.
  destruct (cycle_raises_before_loop_frame (cycle_env env) (task_frame p) e Hraise)
    as [Hself Hdb].
  unfold monitor_button_presses, try_except.
  rewrite (task_enabled_run env p Hen Havail).
  unfold task_frame in *.
  destruct (monitor_single_cycle (cycle_env env)
              {| self := monitor_in_use p; db := p_db p; activities := [] |})
    as [o f'] eqn:Hrun.
  cbn in Hraise, Hself, Hdb. subst o.
  unfold bind, on_monitor. cbn. rewrite Hrun.
  unfold bind, guard_fault, modify, ret, raise. split.
  - intros ->. cbn. eexists _, _. split; [reflexivity|]. cbn.
    rewrite Hself, Hdb. by split_and!.
  - intros e' ->. done.
Qed.

Lemma failed_cycle_is_logged_witness :
  ∃ r p',
    monitor_button_presses (task_cycle (cycle_on machine_raising 60))
      new_process = (Returned r, p')
    ∧ r_status r = "error" ∧ r_message r = Some "serial port busy"
    ∧ p_db p' = repo_create_log (p_db new_process)
                  (task_failure_log "serial port busy")
    ∧ _monitor_instance p' = Some (monitor_in_use new_process)
    ∧ cache p' = cache new_process.
Proof.
  destruct (failed_cycle_is_logged
              (task_cycle (cycle_on machine_raising 60)) new_process
              "serial port busy")
    as [Hlogged _].
  - reflexivity.
  - right. reflexivity.
  - reflexivity.
  - apply Hlogged. reflexivity.
Defined.

Lemma cycle_returns_result c f :
  cycle_returns c →
  ∃ r f', monitor_single_cycle c f = (Returned r, f').
Proof.
  intros Hret.
  destruct (cycle_cases c f)
    as [(e & Hc & _) | [(_ & r & -> & _) | [(_ & e & Hn & _)
        | (_ & n & f1 & r & _ & _ & -> & _)]]]; eauto.
  - by destruct (Hret e).
  - by destruct (Hret e).
Qed.

Lemma enabled_after_check env p f' :
  monitoring_enabled p → monitoring_enabled (after_check env p f').
Proof.
  unfold monitoring_enabled, after_check, cache_get, cache_set. cbn.
  by rewrite lookup_insert_ne.
Qed.

(** One enabled run of the task whose cycle returns. *)
Lemma task_runs_cycle env p r f' :
  monitoring_enabled p → monitor_available env p →
  monitor_single_cycle (cycle_env env) (task_frame p) = (Returned r, f') →
  monitor_button_presses env p = (Returned r, after_check env p f').
Proof.
  intros Hen Havail Hrun.
  unfold monitor_button_presses, try_except.
  rewrite (task_enabled_run env p Hen Havail).
  unfold task_frame in Hrun. unfold bind, on_monitor. cbn. rewrite Hrun.
  by unfold modify, ret.
Qed.

Lemma run_tasks_follow_cycles envs : ∀ p f,
  self f = monitor_in_use p → db f = p_db p →
  monitoring_enabled p →
  Forall (λ env, monitor_available env p) envs →
  Forall (λ env, cycle_returns (cycle_env env)) envs →
  (run_tasks envs p).1 = (run_cycles (cycle_env <$> envs) f).1
  ∧ monitor_in_use (run_tasks envs p).2
    = self (run_cycles (cycle_env <$> envs) f).2
  ∧ p_db (run_tasks envs p).2 = db (run_cycles (cycle_env <$> envs) f).2
  ∧ monitoring_enabled (run_tasks envs p).2.
Proof.
  induction envs as [|env envs IH]; intros p f Hself Hdb Hen Havail Hret.
  - cbn. by split_and!.
  - apply Forall_cons in Havail as [Havail _].
    apply Forall_cons in Hret as [Hret Hrets].
    destruct (cycle_returns_result (cycle_env env) (task_frame p) Hret)
      as (r & f1 & Hrun).
    destruct (cycle_agrees (cycle_env env) f (task_frame p) Hself Hdb)
      as (Hres & Hself1 & Hdb1).
    rewrite Hrun in Hres, Hself1, Hdb1. cbn [fst snd] in Hres, Hself1, Hdb1.
    cbn [run_tasks fmap list_fmap run_cycles].
    rewrite (task_runs_cycle env p r f1 Hen Havail Hrun).
    destruct (monitor_single_cycle (cycle_env env) f) as [o f2].
    cbn [fst snd] in Hres, Hself1, Hdb1. subst o.
    destruct (IH (after_check env p f1) f2) as (Hrs & Hm & Hd & Hen').
    + by rewrite Hself1.
    + by rewrite Hdb1.
    + by apply enabled_after_check.
    + apply Forall_forall. intros env' _. left. by eexists.
    + done.
    + destruct (run_tasks envs (after_check env p f1)) as [rs p'].
      change (list_fmap _ _ cycle_env envs) with (cycle_env <$> envs).
      destruct (run_cycles (cycle_env <$> envs) f2) as [rs' f'].
      cbn in *. split_and!; try done. by rewrite Hrs.
Qed.

(** X18.  Scheduled runs of the task are cycles of one monitor.  While the
    enable flag reads true, the singleton monitor can be obtained and no
    cycle raises, a sequence of task runs returns exactly the results of
    [monitor_single_cycle] run in sequence on one monitor and one
    repository: the monitor's previous snapshots and tracked deliveries
    carry over from one run to the next, whatever the time between the
    runs, and the flag stays as it was. *)
Theorem scheduled_runs_are_cycles envs p :
  monitoring_enabled p →
  Forall (λ env, monitor_available env p) envs →
  Forall (λ env, cycle_returns (cycle_env env)) envs →
  (run_tasks envs p).1
  = (run_cycles (cycle_env <$> envs) (task_frame p)).1
  ∧ monitor_in_use (run_tasks envs p).2
    = self (run_cycles (cycle_env <$> envs) (task_frame p)).2
  ∧ p_db (run_tasks envs p).2
    = db (run_cycles (cycle_env <$> envs) (task_frame p)).2
  ∧ monitoring_enabled (run_tasks envs p).2.
Proof.
  intros Hen Havail Hret. by apply run_tasks_follow_cycles.
Qed.

Lemma cycle_showing_returns s t : cycle_returns (cycle_showing s t).
Proof. intros e. by split. Qed.

Lemma scheduled_runs_are_cycles_witness :
  (λ o, match o with Returned r => r_activities r | Raised _ => None end)
    <$> (run_tasks [ task_cycle (cycle_showing pressed_single_short 11);
                     task_cycle (cycle_showing pressed_single_short 12);
                     task_cycle (cycle_showing inactive 13) ]
           new_process).1
  = [ Some [delivery_started 1 "single_short" 1];
      Some [];
      Some [delivery_completed 1 "single_short" 1] ].
Proof.
  destruct (scheduled_runs_are_cycles
              [ task_cycle (cycle_showing pressed_single_short 11);
                task_cycle (cycle_showing pressed_single_short 12);
                task_cycle (cycle_showing inactive 13) ] new_process)
    as (Hrs & _).
  - reflexivity.
  - repeat constructor; by right.
  - repeat constructor; apply cycle_showing_returns.
  - rewrite Hrs. reflexivity.
Defined.

(** X19.  The services set the flag first.  Neither service raises; each
    stores the flag, without expiry, before it writes its log row, so when
    that write fails the service returns status error although the flag
    has already been changed and no log row records it; when the write
    succeeds the service returns started, or stopped, and has appended one
    resolved health_check row. *)
Theorem services_set_flag_before_logging fault p (enabled : bool) :
  let service := if enabled then start_button_monitoring_service
                 else stop_button_monitoring_service in
  ∃ r p',
    service fault p = (Returned r, p')
    ∧ cache p' !! "button_monitoring_enabled" = Some (CacheBool enabled, None)
    ∧ _monitor_instance p' = _monitor_instance p
    ∧ (fault = None →
       r_status r = (if enabled then "started" else "stopped")
       ∧ ∃ l, p_db p' = repo_create_log (p_db p) l
              ∧ log_type l = "health_check" ∧ resolved l = Some true)
    ∧ (∀ e, fault = Some e →
            r_status r = "error" ∧ r_message r = Some e
            ∧ p_db p' = p_db p).
Proof.
  cbn zeta.
  destruct enabled;
    unfold start_button_monitoring_service, stop_button_monitoring_service,
      set_monitoring_enabled, try_except, bind, modify, guard_fault,
      ret, raise, cache_set;
    destruct fault as [e|]; cbn; eexists _, _;
    (split; [reflexivity|]); cbn; rewrite lookup_insert_eq;
    split_and!; try done.
  all: try (intros _; split; [done|]; by eexists).
  all: by intros e' [= <-].
Qed.

Lemma task_enabled_not_disabled env p r p' :
  monitoring_enabled p →
  monitor_button_presses env p = (Returned r, p') →
  r_status r ≠ "disabled".
Proof.
  intros Hen. unfold monitor_button_presses, try_except.
  destruct (monitor_button_presses_try env p) as [[r0|e] p0] eqn:Htry.
  - intros [= <- <-]. revert Htry. unfold monitor_button_presses_try.
    unfold bind at 1, get_state at 1. rewrite Hen. cbn [negb].
    unfold bind at 1.
    destruct (get_button_monitor env p) as [[m|e] p1]; [|discriminate].
    unfold bind at 1, on_monitor.
    destruct (monitor_single_cycle (cycle_env env)
                {| self := m; db := p_db p1; activities := [] |})
      as [[r1|e] f1] eqn:Hcycle; [|discriminate].
    unfold bind, modify, ret. intros [= <- _].
    destruct (cycle_status _ _ _ _ Hcycle) as [-> | ->]; discriminate.
  - unfold bind, guard_fault.
    destruct (task_log_fault env); cbn; [discriminate|].
    intros [= <- _]. discriminate.
Qed.

(** X20.  The status command and the scheduled task read the enable flag
    with different defaults.  Once the flag is stored, the 'Enabled' line
    of [show_status] agrees with what the task does; on a cache without
    the flag the status shows monitoring as not enabled while the task
    runs and never returns the disabled status. *)
Theorem status_and_task_defaults_differ env p :
  (∀ v t, cache p !! "button_monitoring_enabled" = Some (v, t) →
          show_status_enabled (cache p) = truthy v
          ∧ (monitoring_enabled p ↔ truthy v = true))
  ∧ (cache p !! "button_monitoring_enabled" = None →
     show_status_enabled (cache p) = false
     ∧ monitoring_enabled p
     ∧ ∀ r p', monitor_button_presses env p = (Returned r, p') →
               r_status r ≠ "disabled").
Proof.
  unfold show_status_enabled, monitoring_enabled. split.
  - intros v t Hflag. unfold cache_get. by rewrite Hflag.
  - intros Hflag.
    assert (Hen : monitoring_enabled p).
    { unfold monitoring_enabled, cache_get. by rewrite Hflag. }
    split; [unfold cache_get; by rewrite Hflag|]. split; [exact Hen|].
    intros r p'. by apply task_enabled_not_disabled.
Qed.

(** ** Two groups in one cycle, and the two decoders *)

(** X21.  Presses on two groups seen in the same cycle are recorded as two
    deliveries: each group gets its own start, with its own coffee type,
    and the two delivery rows have different ids. *)
Theorem simultaneous_presses_get_distinct_deliveries env g1 g2 s1 s2 f :
  g1 ≠ g2 → ids_well_formed f →
  polls env g1 s1 → not_active_before g1 f → is_delivery_active s1 = true →
  polls env g2 s2 → not_active_before g2 f → is_delivery_active s2 = true →
  ∃ r f' ct1 id1 ct2 id2,
    monitor_single_cycle env f = (Returned r, f')
    ∧ get_coffee_type_from_status s1 = Some ct1
    ∧ get_coffee_type_from_status s2 = Some ct2
    ∧ reported g1 (Returned r) = Some [delivery_started g1 ct1 id1]
    ∧ reported g2 (Returned r) = Some [delivery_started g2 ct2 id2]
    ∧ id1 ≠ id2
    ∧ deliveries (db f') !! id1 = Some (manual_delivery id1 ct1 g1 (now env))
    ∧ deliveries (db f') !! id2 = Some (manual_delivery id2 ct2 g2 (now env)).
Proof.
  intros Hne Hwf Hp1 Hprev1 Hs1 Hp2 Hprev2 Hs2.
  destruct (cycle_start_repo env g1 s1 f Hp1 Hwf Hprev1 Hs1)
    as (r & f' & ct1 & id1 & Hrun & Hct1 & Hr1 & Hv1 & _ & Hrow1 & _ & Hwf').
  destruct (cycle_start_repo env g2 s2 f Hp2 Hwf Hprev2 Hs2)
    as (r' & f'' & ct2 & id2 & Hrun' & Hct2 & Hr2 & Hv2 & _ & Hrow2 & _ & _).
  destruct (cycle_result_unique _ _ _ _ _ _ Hrun Hrun') as [<- <-].
  exists r, f', ct1, id1, ct2, id2. split_and!; try done.
  intros Hid. apply Hne, group_key_inj.
  destruct Hwf' as (_ & _ & Hinj). unfold view in Hv1, Hv2.
  injection Hv1 as _ Htr1. injection Hv2 as _ Htr2.
  by apply (Hinj _ _ _ _ Htr1 Htr2).
Qed.

Lemma simultaneous_presses_get_distinct_deliveries_witness :
  ∃ r f' ct1 id1 ct2 id2,
    monitor_single_cycle (cycle_on machine_two_pressed 70) new_frame
      = (Returned r, f')
    ∧ get_coffee_type_from_status pressed_single_short = Some ct1
    ∧ get_coffee_type_from_status
        (flags false false false false false true false) = Some ct2
    ∧ reported 1 (Returned r) = Some [delivery_started 1 ct1 id1]
    ∧ reported 2 (Returned r) = Some [delivery_started 2 ct2 id2]
    ∧ id1 ≠ id2
    ∧ deliveries (db f') !! id1 = Some (manual_delivery id1 ct1 1 70)
    ∧ deliveries (db f') !! id2 = Some (manual_delivery id2 ct2 2 70).
Proof.
  apply (simultaneous_presses_get_distinct_deliveries
           (cycle_on machine_two_pressed 70) 1 2 pressed_single_short
           (flags false false false false false true false) new_frame).
  - discriminate.
  - apply (new_monitor_ids_well_formed empty_repository).
    apply empty_repository_rows.
  - repeat split. exists (Some 3). split; [reflexivity|]. by vm_compute.
  - exact I.
  - reflexivity.
  - repeat split. exists (Some 3). split; [reflexivity|]. by vm_compute.
  - exact I.
  - reflexivity.
Defined.

(** X22.  The two decoders agree on every snapshot: [is_delivery_active]
    holds exactly when [get_coffee_type_from_status] finds a coffee type,
    and that coffee type is one of the seven names.  The inner guard
    [if coffee_type] of [detect_button_press] therefore never suppresses a
    start: an active snapshot after an absent or inactive one is always
    reported. *)
Theorem decoders_agree (s : StatusDict) :
  (is_delivery_active s = true ↔ is_Some (get_coffee_type_from_status s))
  ∧ (∀ ct, get_coffee_type_from_status s = Some ct →
           ct ∈ [ "single_short"; "single_medium"; "single_long";
                  "double_short"; "double_medium"; "double_long"; "purge" ])
  ∧ (∀ m g, match previous_states m !! group_key g with
            | Some p => is_delivery_active p = false
            | None => True
            end →
            is_delivery_active s = true →
            is_Some (detect_button_press m g s)).
Proof.
  split_and!.
  - split; [apply active_has_coffee_type|].
    intros [ct Hct]. destruct (is_delivery_active s) eqn:Hs; [done|].
    rewrite inactive_no_coffee_type in Hct by done. discriminate.
  - intros ct. destruct s as [[] [] [] [] [] [] []]; vm_compute;
      intros [= <-]; set_solver.
  - intros m g Hprev Hs. rewrite detect_button_press_edge; [|exact Hprev|done].
    by apply active_has_coffee_type.
Qed.
